(** * A shadow-mapped OpenGL scene: registries, render passes and shot updates

    Shallow embedding of [src/include/constants.cpp], [src/include/render.cpp]
    and [src/models/shot_model.cpp].

    The program:
    - [Float]     IEEE-754 binary32/binary64 arithmetic as used by the C++ code
                  ([float] components of [glm::vec3], [double] time stamps).
    - [StdMap]    [std::map<std::string, V>]: a finite map iterated in key order.
    - [Constants] the globals of [constants.cpp].
    - [Shot]      [ShotModel] and its per-frame [update].
    - [Render]    [RenderManager]: registries, shadow pass, main pass.

    Its properties:
    - [StdMapFacts], [ShotFacts], [RenderFacts]. *)

From Stdlib Require Import ZArith SpecFloat DecimalString.
From stdpp Require Import gmap strings list sorting functions.

Local Open Scope Z_scope.

(* ===================================================================== *)
(** ** Floating point *)
(* ===================================================================== *)

Module Float.

(** A C++ [float] is an IEEE-754 binary32 number, a [double] a binary64
    number; both are values of [spec_float], kept canonical for their format. *)
Abbreviation float := spec_float (only parsing).
Abbreviation double := spec_float (only parsing).

Definition fsub : float -> float -> float := SFsub 24 128.
Definition dsub : double -> double -> double := SFsub 53 1024.
Definition dmul : double -> double -> double := SFmul 53 1024.

(** [a < b] on doubles; false as soon as one side is a NaN. *)
Definition dlt (a b : double) : bool := SFltb a b.

(** [static_cast<float>(x)]: round to nearest, ties to even. *)
Definition float_of_double (x : double) : float :=
  match x with
  | S754_finite s m e => binary_round 24 128 s m e
  | _ => x
  end.

(** The implicit promotion of a [float] operand to [double] (exact). *)
Definition double_of_float (x : float) : double :=
  match x with
  | S754_finite s m e => binary_round 53 1024 s m e
  | _ => x
  end.

(** Literals: an integer literal such as [100.0], and a decimal literal
    [n/d] such as [0.5] or [0.002], rounded to the nearest double. *)
Definition double_of_Z (n : Z) : double := binary_normalize 53 1024 n 0 false.
Definition double_lit (n d : Z) : double :=
  SFdiv 53 1024 (double_of_Z n) (double_of_Z d).

(** [glm::vec3]: three [float] components. *)
Record vec3 := Vec3 { vec_x : float; vec_y : float; vec_z : float }.

(** [glm::vec3(a, b, c)] called with [double] arguments converts each one. *)
Definition vec3_of_doubles (a b c : double) : vec3 :=
  Vec3 (float_of_double a) (float_of_double b) (float_of_double c).

(** [glm::vec3(0.0, 0.0, 0.0)]. *)
Definition origin : vec3 := vec3_of_doubles (double_of_Z 0) (double_of_Z 0) (double_of_Z 0).

(** [u - v] on [glm::vec3] is componentwise binary32 subtraction. *)
Definition vec3_sub (u v : vec3) : vec3 :=
  Vec3 (fsub (vec_x u) (vec_x v)) (fsub (vec_y u) (vec_y v)) (fsub (vec_z u) (vec_z v)).

End Float.

(* ===================================================================== *)
(** ** [std::map<std::string, V>] *)
(* ===================================================================== *)

Module StdMap.

Abbreviation std_map V := (gmap string V) (only parsing).

Section ops.
Context {V : Type}.

(** [m.insert(std::pair(k, v))]: adds the pair only when no element with
    key [k] is present; an existing element is left as it is. *)
Definition map_insert (k : string) (v : V) (m : std_map V) : std_map V :=
  match m !! k with
  | Some _ => m
  | None => <[k := v]> m
  end.

(** [m.insert_or_assign(k, v)] / [m[k] = v]: adds or overwrites. *)
Definition map_assign (k : string) (v : V) (m : std_map V) : std_map V :=
  <[k := v]> m.

(** [m.erase(k)]: removes the element with key [k], if there is one. *)
Definition map_erase (k : string) (m : std_map V) : std_map V :=
  delete k m.

(** [std::less<std::string>] on the keys of two elements. *)
Definition key_le (a b : string * V) : Prop := String.leb a.1 b.1 = true.

#[export] Instance key_le_dec (a b : string * V) : Decision (key_le a b).
Proof. unfold key_le. apply _. Defined.

(** The elements from [m.begin()] to [m.end()]: in increasing key order. *)
Definition map_elements (m : std_map V) : list (string * V) :=
  merge_sort key_le (map_to_list m).

Definition map_values (m : std_map V) : list V := (map_elements m).*2.
End ops.

End StdMap.

(* ===================================================================== *)
(** ** [constants.cpp] *)
(* ===================================================================== *)

Module Constants.
Definition WINDOW_WIDTH : Z := 800.
Definition WINDOW_HEIGHT : Z := 600.
Definition MAX_CONE_LIGHTS : Z := 4.
Definition MAX_POINT_LIGHTS : Z := 6.
Definition MAX_TEXT_LENGTH : Z := 80.
Definition MAX_TEXT_CHARS : Z := 10240.

Definition VIEWPORT_WIDTH : Z := WINDOW_WIDTH.
Definition VIEWPORT_HEIGHT : Z := WINDOW_HEIGHT.
Definition FRAMEBUFFER_WIDTH : Z := VIEWPORT_WIDTH * 2.
Definition FRAMEBUFFER_HEIGHT : Z := VIEWPORT_HEIGHT * 2.
Definition TEXT_HEIGHT : Z := VIEWPORT_HEIGHT `quot` 21.
End Constants.

(* ===================================================================== *)
(** ** [shot_model.cpp] *)
(* ===================================================================== *)

Module Shot.
Import Float StdMap.

(** Objects live on the heap and are shared through [std::shared_ptr]: the
    managers and the shot hold addresses, and a write through one pointer is
    seen through every other one. *)
Abbreviation ptr := nat (only parsing).

(** [GLFW_KEY_H] of the GLFW header. *)
Definition GLFW_KEY_H : Z := 72.

(** Modelled from the spec: [ModelBase] ([model_base.cpp] is not among the
    sources). A model has an identifier, a display name, a world position and
    a scale; [setModelPosition] and [setModelScale] store their argument. *)
Record ModelBase := mkModelBase {
  getModelId : string;
  getModelName : string;
  getModelPosition : vec3;
  getModelScale : vec3;
}.

Definition setModelPosition (p : vec3) (m : ModelBase) : ModelBase :=
  mkModelBase (getModelId m) (getModelName m) p (getModelScale m).

Definition setModelScale (v : vec3) (m : ModelBase) : ModelBase :=
  mkModelBase (getModelId m) (getModelName m) (getModelPosition m) v.

(** Modelled from the spec: [PointLight] ([point_light.cpp] is not among the
    sources). A light has an identifier and a position. *)
Record PointLight := mkPointLight {
  getLightId : string;
  getLightPosition : vec3;
}.

Definition setLightPosition (p : vec3) (l : PointLight) : PointLight :=
  mkPointLight (getLightId l) p.

(** The process-wide state [ShotModel::update] works on: the heap objects, the
    registries of the two manager singletons, and the two static members of
    [ShotModel]. *)
Record World := mkWorld {
  modelObjects : ptr -> ModelBase;
  lightObjects : ptr -> PointLight;
  nextLight : ptr;                      (* next address [make_shared] hands out *)
  registeredModels : std_map ptr;       (* ModelManager *)
  registeredLights : std_map ptr;       (* LightManager *)
  isShotLightPresent : bool;            (* static bool ShotModel::isShotLightPresent *)
  lastShotLightChange : double;         (* static double ShotModel::lastShotLightChange *)
}.

(** The members a [ShotModel] adds to its [ModelBase] part, which is the heap
    object at address [this]. *)
Record ShotModel := mkShotModel {
  this : ptr;
  lastTime : double;
  shotLight : option ptr;
}.

Definition with_modelObjects (f : ptr -> ModelBase) (w : World) : World :=
  mkWorld f (lightObjects w) (nextLight w) (registeredModels w)
          (registeredLights w) (isShotLightPresent w) (lastShotLightChange w).
Definition with_lightObjects (f : ptr -> PointLight) (w : World) : World :=
  mkWorld (modelObjects w) f (nextLight w) (registeredModels w)
          (registeredLights w) (isShotLightPresent w) (lastShotLightChange w).
Definition with_nextLight (n : ptr) (w : World) : World :=
  mkWorld (modelObjects w) (lightObjects w) n (registeredModels w)
          (registeredLights w) (isShotLightPresent w) (lastShotLightChange w).
Definition with_registeredModels (m : std_map ptr) (w : World) : World :=
  mkWorld (modelObjects w) (lightObjects w) (nextLight w) m
          (registeredLights w) (isShotLightPresent w) (lastShotLightChange w).
Definition with_registeredLights (m : std_map ptr) (w : World) : World :=
  mkWorld (modelObjects w) (lightObjects w) (nextLight w) (registeredModels w)
          m (isShotLightPresent w) (lastShotLightChange w).
Definition with_isShotLightPresent (b : bool) (w : World) : World :=
  mkWorld (modelObjects w) (lightObjects w) (nextLight w) (registeredModels w)
          (registeredLights w) b (lastShotLightChange w).
Definition with_lastShotLightChange (t : double) (w : World) : World :=
  mkWorld (modelObjects w) (lightObjects w) (nextLight w) (registeredModels w)
          (registeredLights w) (isShotLightPresent w) t.

Definition with_lastTime (t : double) (s : ShotModel) : ShotModel :=
  mkShotModel (this s) t (shotLight s).
Definition with_shotLight (l : option ptr) (s : ShotModel) : ShotModel :=
  mkShotModel (this s) (lastTime s) l.

(** *** The managers *)

(** Modelled from the spec: [ModelManager] ([include/models.cpp] is not among
    the sources). [deregisterModel] removes by identifier and does nothing when
    the identifier is absent; [getAllModels] returns the registered models in
    identifier order. *)
Definition deregisterModel (modelId : string) (w : World) : World :=
  with_registeredModels (map_erase modelId (registeredModels w)) w.

(** The overload taking the model itself removes by that model's identifier. *)
Definition deregisterModel_ptr (model : ptr) (w : World) : World :=
  deregisterModel (getModelId (modelObjects w model)) w.

Definition getAllModels (w : World) : list ptr :=
  map_values (registeredModels w).

(** Modelled from the spec: [LightManager] ([include/light.cpp] is not among
    the sources). [registerLight] inserts or overwrites by identifier,
    [deregisterLight] removes by identifier. *)
Definition registerLight (light : ptr) (w : World) : World :=
  with_registeredLights
    (map_assign (getLightId (lightObjects w light)) light (registeredLights w)) w.

Definition deregisterLight (light : ptr) (w : World) : World :=
  with_registeredLights
    (map_erase (getLightId (lightObjects w light)) (registeredLights w)) w.

(** The collider of a model and the shape test of [DeepCollisionValidator] are
    not among the sources, nor is the position a light has when
    [PointLight::create] returns it. *)
Class Environment := {
  ColliderShape : Type;
  getColliderShape : ModelBase -> ColliderShape;
  haveShapesCollided : ColliderShape -> ColliderShape -> bool -> bool;
  initialLightPosition : vec3;
}.

Section update.
Context `{env : !Environment}.

(** [PointLight::create(lightId)]: a new heap object. *)
Definition PointLight_create (lightId : string) (w : World) : ptr * World :=
  let l := nextLight w in
  (l, with_nextLight (S l)
        (with_lightObjects (<[l := mkPointLight lightId initialLightPosition]> (lightObjects w)) w)).

(** *** [ShotModel] *)

Definition destroyShotLight (s : ShotModel) (w : World) : ShotModel * World :=
  let '(s, w) :=
    match shotLight s with
    | Some l => (with_shotLight None s, deregisterLight l w)
    | None => (s, w)
    end in
  (s, with_isShotLightPresent false w).

Definition createShotLight (s : ShotModel) (w : World) : ShotModel * World :=
  let '(s, w) := destroyShotLight s w in
  let '(l, w) :=
    PointLight_create (getModelId (modelObjects w (this s)) +:+ "::ShotLight") w in
  let s := with_shotLight (Some l) s in
  let w := with_lightObjects
             (<[l := setLightPosition (getModelPosition (modelObjects w (this s)))
                                     (lightObjects w l)]> (lightObjects w)) w in
  let w := registerLight l w in
  (s, with_isShotLightPresent true w).

Definition updateShotLight (s : ShotModel) (w : World) : ShotModel * World :=
  if isShotLightPresent w then
    let '(s, w) :=
      match shotLight s with
      | None => createShotLight s w
      | Some _ => (s, w)
      end in
    match shotLight s with
    | Some l =>
        (s, with_lightObjects
              (<[l := setLightPosition (getModelPosition (modelObjects w (this s)))
                                      (lightObjects w l)]> (lightObjects w)) w)
    | None => (s, w)
    end
  else
    match shotLight s with
    | Some _ => destroyShotLight s w
    | None => (s, w)
    end.

(** [ShotModel::init]. *)
Definition init (s : ShotModel) (w : World) : ShotModel * World :=
  let w :=
    with_modelObjects
      (<[this s :=
           setModelScale (vec3_of_doubles (double_lit 1 2) (double_lit 1 2) (double_lit 1 2))
                         (modelObjects w (this s))]> (modelObjects w)) w in
  if isShotLightPresent w then createShotLight s w else (s, w).

(** [ShotModel::deinit]. *)
Definition deinit (s : ShotModel) (w : World) : ShotModel * World :=
  if isShotLightPresent w then
    let '(s, w) := destroyShotLight s w in
    (s, with_isShotLightPresent true w)
  else (s, w).

(** [currentPosition.z < -50.0]: the [float] is promoted to [double]. *)
Definition beyondThreshold (p : vec3) : bool :=
  dlt (double_of_float (vec_z p)) (double_of_Z (-50)).

(** The test of the collision loop on one model of the list. *)
Definition isEnemy (w : World) (model : ptr) : bool :=
  String.eqb (getModelName (modelObjects w model)) "Enemy".

Definition collidesWith (s : ShotModel) (w : World) (model : ptr) : bool :=
  haveShapesCollided (getColliderShape (modelObjects w (this s)))
                     (getColliderShape (modelObjects w model)) true.

(** The loop over [models], a copy of the list of registered models. *)
Fixpoint collisionLoop (s : ShotModel) (models : list ptr) (w : World) : World :=
  match models with
  | [] => w
  | model :: rest =>
      if isEnemy w model then
        if collidesWith s w model then
          (* Shot has collided with an enemy. Destroy both. *)
          deregisterModel (getModelId (modelObjects w (this s)))
            (deregisterModel_ptr model w)
          (* break *)
        else collisionLoop s rest w
      else collisionLoop s rest w
  end.

(** Lines 170-182 of [update]: the debounced toggle, the move and the light
    update, which run when the shot was not beyond the threshold. *)
Definition toggleAndMove (currentTime : double) (isKeyPressed : Z -> bool)
    (s : ShotModel) (w : World) : ShotModel * World :=
  let deltaTime := dsub currentTime (lastTime s) in
  let w :=
    if isKeyPressed GLFW_KEY_H
       && dlt (double_lit 1 2) (dsub currentTime (lastShotLightChange w))
    then with_lastShotLightChange currentTime
           (with_isShotLightPresent (negb (isShotLightPresent w)) w)
    else w in
  let w :=
    with_modelObjects
      (<[this s :=
           setModelPosition
             (vec3_sub (getModelPosition (modelObjects w (this s)))
                (vec3_of_doubles (double_of_Z 0) (double_of_Z 0)
                   (dmul (double_of_Z 100) deltaTime)))
             (modelObjects w (this s))]> (modelObjects w)) w in
  updateShotLight s w.

(** [ShotModel::update], with the two inputs it reads from the outside:
    [currentTime], the value of [glfwGetTime()], and [isKeyPressed], the key
    state of the control manager. *)
Definition update (currentTime : double) (isKeyPressed : Z -> bool)
    (s : ShotModel) (w : World) : ShotModel * World :=
  let currentPosition := getModelPosition (modelObjects w (this s)) in
  if beyondThreshold currentPosition then
    (s, deregisterModel (getModelId (modelObjects w (this s))) w)
  else
    let '(s, w) := toggleAndMove currentTime isKeyPressed s w in
    let models := getAllModels w in
    let w := collisionLoop s models w in
    (with_lastTime currentTime s, w).

(** A sequence of [update] calls, each on some shot at some time. *)
Definition updates (calls : list (double * (Z -> bool) * ShotModel)) (w : World) : World :=
  foldl (fun w c => (update c.1.1 c.1.2 c.2 w).2) w calls.

(** The model [model] is an enemy the shot [s] has collided with. *)
Definition struck (s : ShotModel) (w : World) (model : ptr) : bool :=
  isEnemy w model && collidesWith s w model.

End update.

(** *** Concrete scenes *)

(** A stand-in for the collider code that is not among the sources, to run
    [update] on concrete scenes: the shape of a model is its z coordinate, and
    two shapes collide when they are less than [1.0] apart. *)
Definition zShape (m : ModelBase) : double :=
  double_of_float (vec_z (getModelPosition m)).

Definition zOverlap (a b : double) (_ : bool) : bool :=
  dlt (SFabs (dsub a b)) (double_of_Z 1).

(** A point on the z axis, [z = n/d]. *)
Definition onAxis (n d : Z) : vec3 :=
  vec3_of_doubles (double_of_Z 0) (double_of_Z 0) (double_lit n d).

Definition unitScale : vec3 :=
  vec3_of_doubles (double_of_Z 1) (double_of_Z 1) (double_of_Z 1).

Definition noKey (key : Z) : bool := false.
Definition keyH (key : Z) : bool := Z.eqb key GLFW_KEY_H.

(** A scene with the shot "Shot1" at [shotAt] (address 0) and two enemies:
    "Enemy1" half a unit behind the origin (address 1) and "Enemy2" far away
    (address 2). Only the models listed in [registered] are registered. The
    two statics have the values they are initialised with. *)
Definition sceneObjects (shotAt : vec3) : ptr -> ModelBase :=
  <[0%nat := mkModelBase "Shot1" "Shot" shotAt unitScale]>
    (<[1%nat := mkModelBase "Enemy1" "Enemy" (onAxis (-1) 2) unitScale]>
       (fun _ => mkModelBase "Enemy2" "Enemy" (onAxis (-30) 1) unitScale)).

Definition scene (shotAt : vec3) (registered : list (string * ptr)) : World :=
  mkWorld (sceneObjects shotAt)
          (fun _ => mkPointLight "" origin) 0%nat
          (list_to_map registered) ∅
          true (double_of_Z (-1)).

Definition shot1 : ShotModel := mkShotModel 0%nat (double_of_Z 0) None.

#[export] Instance sceneEnvironment : Environment := {|
  ColliderShape := double;
  getColliderShape := zShape;
  haveShapesCollided := zOverlap;
  initialLightPosition := origin;
|}.

(** A scene with a second shot, "Shot2" (address 3), ten units down the axis;
    both shots are initialised, in this order, so that "Shot1" has the light at
    address 0 and "Shot2" the light at address 1. *)
Definition shot2 : ShotModel := mkShotModel 3%nat (double_of_Z 0) None.

Definition shotsScene (registered : list (string * ptr)) : World :=
  mkWorld (<[3%nat := mkModelBase "Shot2" "Shot" (onAxis (-10) 1) unitScale]>
             (sceneObjects origin))
          (fun _ => mkPointLight "" origin) 0%nat
          (list_to_map registered) ∅
          true (double_of_Z (-1)).

Definition litShot1 : ShotModel :=
  (init shot1 (shotsScene [("Shot1", 0%nat); ("Shot2", 3%nat)])).1.

Definition litShot2 : ShotModel :=
  (init shot2 (init shot1 (shotsScene [("Shot1", 0%nat); ("Shot2", 3%nat)])).2).1.

Definition twoShots : World :=
  (init shot2 (init shot1 (shotsScene [("Shot1", 0%nat); ("Shot2", 3%nat)])).2).2.

End Shot.

(* ===================================================================== *)
(** ** [render.cpp] *)
(* ===================================================================== *)

Module Render.
Import Float StdMap.

(** *** OpenGL values *)

(** [GLuint], [GLenum] and [GLint] are 32-bit; a value of a wider or of a
    differently signed type is converted modulo [2^32]. *)
Definition to_GLuint (n : Z) : Z := n mod 2 ^ 32.
Definition to_GLint (n : Z) : Z := (n + 2 ^ 31) mod 2 ^ 32 - 2 ^ 31.

(** Constants of the OpenGL header. *)
Definition GL_FALSE : Z := 0.
Definition GL_TRIANGLES : Z := 4.
Definition GL_DEPTH_BUFFER_BIT : Z := 256.
Definition GL_COLOR_BUFFER_BIT : Z := 16384.
Definition GL_TEXTURE_2D : Z := 3553.
Definition GL_FLOAT : Z := 5126.
Definition GL_TEXTURE0 : Z := 33984.
Definition GL_TEXTURE_CUBE_MAP : Z := 34067.
Definition GL_ARRAY_BUFFER : Z := 34962.
Definition GL_FRAMEBUFFER : Z := 36160.

(** [std::numeric_limits<GLuint>::max()]. *)
Definition GLuint_max : Z := 2 ^ 32 - 1.

(** [glGetUniformLocation(program, name)] only looks a name up; a location is
    kept as the program and the name it stands for. *)
Definition UniformLocation : Type := Z * string.
Definition glGetUniformLocation (program : Z) (name : string) : UniformLocation :=
  (program, name).

(** [std::to_string(i)]. *)
Definition to_string (i : nat) : string := NilEmpty.string_of_uint (Nat.to_uint i).

(** The type tag of a shadow buffer ([light_base.cpp] is not among the
    sources; [render.cpp] uses these two values). *)
Inductive ShadowBufferType := SIMPLE | CUBE.

#[export] Instance ShadowBufferType_eq_dec : EqDecision ShadowBufferType.
Proof. solve_decision. Defined.

(** The mutable globals of [constants.cpp] the render manager reads. *)
Record Globals := mkGlobals {
  FRAMEBUFFER_WIDTH : Z;
  FRAMEBUFFER_HEIGHT : Z;
}.

(** Their values at program start. *)
Definition initialGlobals : Globals :=
  mkGlobals Constants.FRAMEBUFFER_WIDTH Constants.FRAMEBUFFER_HEIGHT.

(** [glm::mat4] with its product and its default constructor [glm::mat4()];
    the GLM library is not among the sources. *)
Class Glm := {
  mat4 : Type;
  mat4_mul : mat4 -> mat4 -> mat4;
  mat4_ctor : mat4;
}.

Section render.
Context `{glm : !Glm}.

(** *** The calls that reach OpenGL and the window manager, in program order *)

Inductive GLCall :=
| switchToFrameBufferViewport
| switchToWindowViewport
| setClearColor (r g b a : float)
| clearScreen (mask : Z)
| glBindFramebuffer (target framebuffer : Z)
| glUseProgram (program : Z)
| glUniform1i (location : UniformLocation) (v0 : Z)
| glUniform1f (location : UniformLocation) (v0 : float)
| glUniform3f (location : UniformLocation) (v0 v1 v2 : float)
| glUniformMatrix4fv (location : UniformLocation) (count transpose : Z) (value : mat4)
| glActiveTexture (texture : Z)
| glBindTexture (target texture : Z)
| glEnableVertexAttribArray (index : Z)
| glDisableVertexAttribArray (index : Z)
| glBindBuffer (target buffer : Z)
| glVertexAttribPointer (index size type normalized stride pointer : Z)
| glDrawArrays (mode first count : Z).

(** *** Entities, as far as the render manager reads them *)

(** Modelled from the spec: [ShadowBufferDetails] and [LightBase]
    ([light_base.cpp] is not among the sources): a light has an identifier, a
    position, a colour, an intensity, near and far planes, view and projection
    matrices, a shader program and a shadow buffer with a framebuffer, a
    texture and a type tag. *)
Record ShadowBufferDetails := mkShadowBufferDetails {
  getShadowBufferId : Z;
  getShadowBufferTextureId : Z;
  getShadowBufferType : ShadowBufferType;
}.

Record LightBase := mkLightBase {
  getLightId : string;
  getLightPosition : vec3;
  getProjectionMatrices : list mat4;
  getViewMatrices : list mat4;
  getLightColor : vec3;
  getLightIntensity : double;
  getNearPlane : double;
  getFarPlane : double;
  getShadowBufferDetails : ShadowBufferDetails;
  getLightShaderId : Z;                 (* getShaderDetails()->getShaderId() *)
}.

(** Modelled from the spec: [ModelBase] ([model_base.cpp] is not among the
    sources): a model has an identifier, a model matrix, and handles of its
    shader program, its texture and its vertex, UV and normal buffers. *)
Record ModelBase := mkModelBase {
  getModelId : string;
  getModelMatrix : mat4;
  getShaderId : Z;                      (* getShaderDetails()->getShaderId() *)
  getTextureId : Z;                     (* getTextureDetails()->getTextureId() *)
  getVertexBufferId : Z;                (* getObjectDetails()->... *)
  getUvBufferId : Z;
  getNormalBufferId : Z;
  getBufferSize : Z;
}.

(** Modelled from the spec: [CameraBase] ([camera_base.cpp] is not among the
    sources): a camera has an identifier, a view and a projection matrix. *)
Record CameraBase := mkCameraBase {
  getCameraId : string;
  getViewMatrix : mat4;
  getProjectionMatrix : mat4;
}.

Record LightDetails := mkLightDetails {
  lightPosition : vec3;
  lightVpMatrix : mat4;
  lightColor : vec3;
  lightIntensity : double;
  mapWidth : Z;
  mapHeight : Z;
  nearPlane : double;
  farPlane : double;
  textureId : Z;
}.

(** [std::map<ShadowBufferType, std::vector<LightDetails>>] with its two keys. *)
Record CategorizedLights := mkCategorizedLights {
  simpleLights : list LightDetails;
  cubeLights : list LightDetails;
}.

Definition push_back (type : ShadowBufferType) (d : LightDetails)
    (cl : CategorizedLights) : CategorizedLights :=
  match type with
  | SIMPLE => mkCategorizedLights (simpleLights cl ++ [d]) (cubeLights cl)
  | CUBE => mkCategorizedLights (simpleLights cl) (cubeLights cl ++ [d])
  end.

(** *** [RenderManager] *)

(** The registries hold shared pointers; an entry is shown with the object it
    points to. The two placeholder lights are null pointers until they are
    registered. *)
Record RenderManager := mkRenderManager {
  activeCameraId : string;
  deadSimpleLight : option LightBase;
  deadCubeLight : option LightBase;
  registeredLights : std_map LightBase;
  registeredModels : std_map ModelBase;
  registeredCameras : std_map CameraBase;
  startTime : double;
  lastTime : double;
}.

(** [double RenderManager::ambientFactor = 0.25]. *)
Definition ambientFactor : double := double_lit 25 100.

Definition registerDeadSimpleLight (light : LightBase) (rm : RenderManager) : RenderManager :=
  mkRenderManager (activeCameraId rm) (Some light) (deadCubeLight rm)
    (registeredLights rm) (registeredModels rm) (registeredCameras rm)
    (startTime rm) (lastTime rm).

Definition registerDeadCubeLight (light : LightBase) (rm : RenderManager) : RenderManager :=
  mkRenderManager (activeCameraId rm) (deadSimpleLight rm) (Some light)
    (registeredLights rm) (registeredModels rm) (registeredCameras rm)
    (startTime rm) (lastTime rm).

Definition with_registeredLights (m : std_map LightBase) (rm : RenderManager) : RenderManager :=
  mkRenderManager (activeCameraId rm) (deadSimpleLight rm) (deadCubeLight rm)
    m (registeredModels rm) (registeredCameras rm) (startTime rm) (lastTime rm).

Definition with_registeredModels (m : std_map ModelBase) (rm : RenderManager) : RenderManager :=
  mkRenderManager (activeCameraId rm) (deadSimpleLight rm) (deadCubeLight rm)
    (registeredLights rm) m (registeredCameras rm) (startTime rm) (lastTime rm).

Definition with_registeredCameras (m : std_map CameraBase) (rm : RenderManager) : RenderManager :=
  mkRenderManager (activeCameraId rm) (deadSimpleLight rm) (deadCubeLight rm)
    (registeredLights rm) (registeredModels rm) m (startTime rm) (lastTime rm).

Definition with_lastTime (t : double) (rm : RenderManager) : RenderManager :=
  mkRenderManager (activeCameraId rm) (deadSimpleLight rm) (deadCubeLight rm)
    (registeredLights rm) (registeredModels rm) (registeredCameras rm) (startTime rm) t.

Definition registerLight (light : LightBase) (rm : RenderManager) : RenderManager :=
  with_registeredLights (map_insert (getLightId light) light (registeredLights rm)) rm.

Definition deregisterLight (light : LightBase) (rm : RenderManager) : RenderManager :=
  with_registeredLights (map_erase (getLightId light) (registeredLights rm)) rm.

Definition deregisterLight_id (lightId : string) (rm : RenderManager) : RenderManager :=
  with_registeredLights (map_erase lightId (registeredLights rm)) rm.

Definition registerModel (model : ModelBase) (rm : RenderManager) : RenderManager :=
  with_registeredModels (map_insert (getModelId model) model (registeredModels rm)) rm.

Definition deregisterModel (model : ModelBase) (rm : RenderManager) : RenderManager :=
  with_registeredModels (map_erase (getModelId model) (registeredModels rm)) rm.

Definition deregisterModel_id (modelId : string) (rm : RenderManager) : RenderManager :=
  with_registeredModels (map_erase modelId (registeredModels rm)) rm.

Definition registerCamera (camera : CameraBase) (rm : RenderManager) : RenderManager :=
  with_registeredCameras (map_insert (getCameraId camera) camera (registeredCameras rm)) rm.

Definition deregisterCamera (camera : CameraBase) (rm : RenderManager) : RenderManager :=
  with_registeredCameras (map_erase (getCameraId camera) (registeredCameras rm)) rm.

Definition deregisterCamera_id (cameraId : string) (rm : RenderManager) : RenderManager :=
  with_registeredCameras (map_erase cameraId (registeredCameras rm)) rm.

Definition registerActiveCamera (camera : CameraBase) (rm : RenderManager) : RenderManager :=
  mkRenderManager (getCameraId camera) (deadSimpleLight rm) (deadCubeLight rm)
    (registeredLights rm) (registeredModels rm) (registeredCameras rm)
    (startTime rm) (lastTime rm).

Definition registerActiveCamera_id (cameraId : string) (rm : RenderManager) : RenderManager :=
  mkRenderManager cameraId (deadSimpleLight rm) (deadCubeLight rm)
    (registeredLights rm) (registeredModels rm) (registeredCameras rm)
    (startTime rm) (lastTime rm).

(** *** Running code that calls OpenGL *)

(** A computation starts from the attribute indices in use (the static
    [VertexAttributeArray::attributeIds]) and either returns the calls it made,
    a result and the indices then in use, or ends the process ([None]):
    [exit(1)], or a dereferenced null pointer or an out-of-range index. *)
Definition GL (A : Type) : Type := gset Z -> option (list GLCall * A * gset Z).

#[export] Instance GL_ret : MRet GL := fun A a ids => Some ([], a, ids).

#[export] Instance GL_bind : MBind GL := fun A B f m ids =>
  match m ids with
  | Some (calls1, a, ids1) =>
      match f a ids1 with
      | Some (calls2, b, ids2) => Some (calls1 ++ calls2, b, ids2)
      | None => None
      end
  | None => None
  end.

Definition call (c : GLCall) : GL unit := fun ids => Some ([c], tt, ids).
Definition calls (cs : list GLCall) : GL unit := fun ids => Some (cs, tt, ids).
Definition crash {A} : GL A := fun _ => None.

(** [*p] for a pointer that may be null, [v[i]] for an index that may be out
    of range. *)
Definition deref {A} (p : option A) : GL A :=
  match p with
  | Some a => mret a
  | None => crash
  end.

(** A [for] loop over the elements of [l] that carries the local state [s]. *)
Fixpoint foldM {A S} (body : S -> A -> GL S) (s : S) (l : list A) : GL S :=
  match l with
  | [] => mret s
  | a :: l => s ← body s a; foldM body s l
  end.

Definition forM {A} (l : list A) (body : A -> GL unit) : GL unit :=
  foldM (fun _ a => body a) tt l.

(** *** [VertexAttributeArray] *)

(** [createAttributeId]: the least index not in use. The loop of the source
    tries [0, 1, 2, ...]; one of the first [size + 1] candidates is free. When
    that index is not below [GLuint_max] the loop ends without a result and the
    process exits. *)
Definition createAttributeId : GL Z := fun attributeIds =>
  match List.find (fun i => bool_decide (i ∉ attributeIds))
                  (seqZ 0 (Z.of_nat (size attributeIds) + 1)) with
  | Some i => if i <? GLuint_max then Some ([], i, attributeIds) else None
  | None => None
  end.

Record VertexAttributeArray := mkVertexAttributeArray {
  attributeId : Z;
  attributeName : string;
  bufferId : Z;
  bufferElementSize : Z;
}.

Definition insertAttributeId (attributeId : Z) : GL unit := fun attributeIds =>
  Some ([], tt, {[attributeId]} ∪ attributeIds).

Definition eraseAttributeId (attributeId : Z) : GL unit := fun attributeIds =>
  Some ([], tt, attributeIds ∖ {[attributeId]}).

(** The constructor. *)
Definition VertexAttributeArray_new (attributeName : string) (bufferId bufferElementSize : Z)
    : GL VertexAttributeArray :=
  attributeId ← createAttributeId;
  insertAttributeId attributeId;;
  mret (mkVertexAttributeArray attributeId attributeName bufferId bufferElementSize).

(** The destructor. *)
Definition VertexAttributeArray_delete (a : VertexAttributeArray) : GL unit :=
  eraseAttributeId (attributeId a);;
  call (glDisableVertexAttribArray (attributeId a)).

Definition enableAttribute (a : VertexAttributeArray) : GL unit :=
  calls [glEnableVertexAttribArray (attributeId a);
         glBindBuffer GL_ARRAY_BUFFER (bufferId a);
         glVertexAttribPointer (attributeId a) (bufferElementSize a) GL_FLOAT GL_FALSE 0 0].

(** *** The shader cache of both passes *)

(** [if (shaderId != id) { shaderId = id; glUseProgram(shaderId); }] for the
    local [int shaderId] and a [GLuint id]: the comparison is unsigned. *)
Definition useShader (shaderId : Z) (id : Z) : GL Z :=
  if bool_decide (to_GLuint shaderId = id) then mret shaderId
  else
    let shaderId := to_GLint id in
    call (glUseProgram (to_GLuint shaderId));; mret shaderId.

(** *** The shadow pass *)

(** The uniform [name] of each of the three shader stages. *)
Definition stages (program : Z) (block field : string) : list UniformLocation :=
  [glGetUniformLocation program (block +:+ "_vertex" +:+ field);
   glGetUniformLocation program (block +:+ "_geometry" +:+ field);
   glGetUniformLocation program (block +:+ "_fragment" +:+ field)].

(** The body of the inner [for] loop: the view-projection matrix of view [i]. *)
Definition uploadVpMatrix (program : Z) (projectionMatrices viewMatrices : list mat4)
    (i : nat) : GL unit :=
  projection ← deref (projectionMatrices !! i);
  view ← deref (viewMatrices !! i);
  let vpMatrix := mat4_mul projection view in
  calls ((fun location => glUniformMatrix4fv location 1 GL_FALSE vpMatrix)
           <$> stages program "lightDetails" (".vpMatrices[" +:+ to_string i +:+ "]")).

(** The body of the loop over the models. *)
Definition renderModelShadow (light : LightBase) (lightDetails : LightDetails)
    (model : ModelBase) : GL unit :=
  let program := getLightShaderId light in
  let count := to_GLint (Z.of_nat (length (getViewMatrices light))) in
  let position := lightPosition lightDetails in
  calls ((fun location => glUniform1i location count)
           <$> stages program "lightDetails" ".vpMatrixCount");;
  calls ((fun location =>
            glUniform3f location (vec_x position) (vec_y position) (vec_z position))
           <$> stages program "lightDetails" ".lightPosition");;
  calls ((fun location => glUniform1f location (float_of_double (nearPlane lightDetails)))
           <$> stages program "projectionDetails" ".nearPlane");;
  calls ((fun location => glUniform1f location (float_of_double (farPlane lightDetails)))
           <$> stages program "projectionDetails" ".farPlane");;
  call (glUniformMatrix4fv (glGetUniformLocation program "modelMatrix") 1 GL_FALSE
          (getModelMatrix model));;
  forM (seq 0 (length (getViewMatrices light)))
       (uploadVpMatrix program (getProjectionMatrices light) (getViewMatrices light));;
  vertexArray ← VertexAttributeArray_new "VertexArray" (getVertexBufferId model) 3;
  enableAttribute vertexArray;;
  call (glDrawArrays GL_TRIANGLES 0 (getBufferSize model));;
  VertexAttributeArray_delete vertexArray.

(** The record [renderLights] collects for a light. *)
Definition collectLightDetails (g : Globals) (light : LightBase) : GL LightDetails :=
  projection ← deref (getProjectionMatrices light !! 0%nat);
  view ← deref (getViewMatrices light !! 0%nat);
  mret (mkLightDetails
          (getLightPosition light)
          (mat4_mul (mat4_mul projection view) mat4_ctor)
          (getLightColor light)
          (getLightIntensity light)
          (FRAMEBUFFER_WIDTH g)
          (FRAMEBUFFER_WIDTH g)
          (getNearPlane light)
          (getFarPlane light)
          (getShadowBufferTextureId (getShadowBufferDetails light))).

(** The body of the loop over the lights; the loop carries [categorizedLights]
    and [shaderId]. *)
Definition renderLight (g : Globals) (rm : RenderManager)
    (st : CategorizedLights * Z) (light : LightBase) : GL (CategorizedLights * Z) :=
  let '(categorizedLights, shaderId) := st in
  lightDetails ← collectLightDetails g light;
  let categorizedLights :=
    push_back (getShadowBufferType (getShadowBufferDetails light)) lightDetails
              categorizedLights in
  call (glBindFramebuffer GL_FRAMEBUFFER (getShadowBufferId (getShadowBufferDetails light)));;
  call (clearScreen (Z.lor GL_COLOR_BUFFER_BIT GL_DEPTH_BUFFER_BIT));;
  shaderId ← useShader shaderId (getLightShaderId light);
  forM (map_values (registeredModels rm)) (renderModelShadow light lightDetails);;
  call (glBindFramebuffer GL_FRAMEBUFFER 0);;
  mret (categorizedLights, shaderId).

Definition renderLights (g : Globals) (rm : RenderManager) : GL CategorizedLights :=
  call switchToFrameBufferViewport;;
  call (setClearColor (float_of_double (double_of_Z 1)) (float_of_double (double_of_Z 1))
                      (float_of_double (double_of_Z 1)) (float_of_double (double_of_Z 1)));;
  st ← foldM (renderLight g rm) (mkCategorizedLights [] [], -1)
             (map_values (registeredLights rm));
  mret st.1.

(** *** The main pass *)

(** The uniforms of light [i] of one kind ("simple" or "cube"): each field goes
    to the vertex and to the fragment stage. *)
Definition lightUniforms (program : Z) (kind : string) (i : nat) (lightDetails : LightDetails)
    : list GLCall :=
  let vertex field :=
    glGetUniformLocation program
      (kind +:+ "LightDetails_vertex[" +:+ to_string i +:+ "]" +:+ field) in
  let fragment field :=
    glGetUniformLocation program
      (kind +:+ "LightDetails_fragment[" +:+ to_string i +:+ "]" +:+ field) in
  let position := lightPosition lightDetails in
  let color := lightColor lightDetails in
  [glUniform3f (vertex ".lightPosition") (vec_x position) (vec_y position) (vec_z position);
   glUniform3f (fragment ".lightPosition") (vec_x position) (vec_y position) (vec_z position);
   glUniformMatrix4fv (vertex ".lightVpMatrix") 1 GL_FALSE (lightVpMatrix lightDetails);
   glUniformMatrix4fv (fragment ".lightVpMatrix") 1 GL_FALSE (lightVpMatrix lightDetails);
   glUniform3f (vertex ".lightColor") (vec_x color) (vec_y color) (vec_z color);
   glUniform3f (fragment ".lightColor") (vec_x color) (vec_y color) (vec_z color);
   glUniform1f (vertex ".lightIntensity") (float_of_double (lightIntensity lightDetails));
   glUniform1f (fragment ".lightIntensity") (float_of_double (lightIntensity lightDetails));
   glUniform1i (vertex ".mapWidth") (mapWidth lightDetails);
   glUniform1i (fragment ".mapWidth") (mapWidth lightDetails);
   glUniform1i (vertex ".mapHeight") (mapHeight lightDetails);
   glUniform1i (fragment ".mapHeight") (mapHeight lightDetails);
   glUniform1f (vertex ".nearPlane") (float_of_double (nearPlane lightDetails));
   glUniform1f (fragment ".nearPlane") (float_of_double (nearPlane lightDetails));
   glUniform1f (vertex ".farPlane") (float_of_double (farPlane lightDetails));
   glUniform1f (fragment ".farPlane") (float_of_double (farPlane lightDetails))].

(** The body of the loop over the simple lights ([int i]). *)
Definition simpleLight (program : Z) (i : nat) (lightDetails : LightDetails) : list GLCall :=
  lightUniforms program "simple" i lightDetails ++
  [glActiveTexture (to_GLuint (GL_TEXTURE0 + (Z.of_nat i + 1)));
   glBindTexture GL_TEXTURE_2D (textureId lightDetails);
   glUniform1i (glGetUniformLocation program ("simpleLightTextures[" +:+ to_string i +:+ "]"))
               (Z.of_nat i + 1)].

(** The body of the loop over the unused simple slots ([size_t i]). *)
Definition simplePlaceholder (rm : RenderManager) (program : Z) (i : nat) : GL unit :=
  call (glActiveTexture (to_GLuint (GL_TEXTURE0 + (Z.of_nat i + 1))));;
  dead ← deref (deadSimpleLight rm);
  call (glBindTexture GL_TEXTURE_2D (getShadowBufferTextureId (getShadowBufferDetails dead)));;
  call (glUniform1i
          (glGetUniformLocation program ("simpleLightTextures[" +:+ to_string i +:+ "]"))
          (to_GLint (Z.of_nat i + 1))).

(** The body of the loop over the cube lights ([int i]); [simpleCount] is
    [categorizedLights[ShadowBufferType::SIMPLE].size()]. *)
Definition cubeLight (program : Z) (simpleCount : nat) (i : nat) (lightDetails : LightDetails)
    : list GLCall :=
  lightUniforms program "cube" i lightDetails ++
  [glActiveTexture (to_GLuint (GL_TEXTURE0 + (Z.of_nat i + 8)));
   glBindTexture GL_TEXTURE_CUBE_MAP (textureId lightDetails);
   glUniform1i (glGetUniformLocation program ("cubeLightTextures[" +:+ to_string i +:+ "]"))
               (to_GLint (Z.of_nat simpleCount + Z.of_nat i + 8))].

(** The body of the loop over the unused cube slots ([size_t i]). *)
Definition cubePlaceholder (rm : RenderManager) (program : Z) (simpleCount : nat) (i : nat)
    : GL unit :=
  call (glActiveTexture (to_GLuint (GL_TEXTURE0 + (Z.of_nat i + 8))));;
  dead ← deref (deadCubeLight rm);
  call (glBindTexture GL_TEXTURE_CUBE_MAP
          (getShadowBufferTextureId (getShadowBufferDetails dead)));;
  call (glUniform1i
          (glGetUniformLocation program ("cubeLightTextures[" +:+ to_string i +:+ "]"))
          (to_GLint (Z.of_nat simpleCount + Z.of_nat i + 8))).

(** The four loops that bind the shadow textures of one model. *)
Definition bindShadowTextures (rm : RenderManager) (categorizedLights : CategorizedLights)
    (program : Z) : GL unit :=
  let simpleCount := length (simpleLights categorizedLights) in
  let cubeCount := length (cubeLights categorizedLights) in
  calls (concat (imap (simpleLight program) (simpleLights categorizedLights)));;
  forM (seq simpleCount (7 - simpleCount)) (simplePlaceholder rm program);;
  calls (concat (imap (cubeLight program simpleCount) (cubeLights categorizedLights)));;
  forM (seq cubeCount (8 - cubeCount)) (cubePlaceholder rm program simpleCount).

(** The uniforms of a model and its diffuse texture. *)
Definition modelUniforms (categorizedLights : CategorizedLights)
    (viewMatrix projectionMatrix : mat4) (totalTime deltaTime : double) (model : ModelBase)
    : list GLCall :=
  let program := getShaderId model in
  let modelMatrix := getModelMatrix model in
  let mvpMatrix :=
    mat4_mul (mat4_mul (mat4_mul projectionMatrix viewMatrix) modelMatrix) mat4_ctor in
  [glUniformMatrix4fv (glGetUniformLocation program "modelDetails.modelMatrix") 1 GL_FALSE
                      modelMatrix;
   glUniformMatrix4fv (glGetUniformLocation program "modelDetails.viewMatrix") 1 GL_FALSE
                      viewMatrix;
   glUniformMatrix4fv (glGetUniformLocation program "modelDetails.projectionMatrix") 1 GL_FALSE
                      projectionMatrix;
   glUniformMatrix4fv (glGetUniformLocation program "modelDetails.mvpMatrix") 1 GL_FALSE
                      mvpMatrix;
   glUniform1f (glGetUniformLocation program "timeDetails.totalTime") (float_of_double totalTime);
   glUniform1f (glGetUniformLocation program "timeDetails.deltaTime") (float_of_double deltaTime);
   glUniform1f (glGetUniformLocation program "ambientFactor") (float_of_double ambientFactor);
   glUniform1i (glGetUniformLocation program "simpleLightsCount")
               (to_GLint (Z.of_nat (length (simpleLights categorizedLights))));
   glUniform1i (glGetUniformLocation program "cubeLightsCount")
               (to_GLint (Z.of_nat (length (cubeLights categorizedLights))));
   glActiveTexture GL_TEXTURE0;
   glBindTexture GL_TEXTURE_2D (getTextureId model);
   glUniform1i (glGetUniformLocation program "diffuseTexture") 0].

(** The three attribute arrays of a model and its draw call. *)
Definition drawModel (model : ModelBase) : GL unit :=
  vertexArray ← VertexAttributeArray_new "VertexArray" (getVertexBufferId model) 3;
  uvArray ← VertexAttributeArray_new "UvArray" (getUvBufferId model) 2;
  normalArray ← VertexAttributeArray_new "NormalArray" (getNormalBufferId model) 3;
  enableAttribute vertexArray;;
  enableAttribute uvArray;;
  enableAttribute normalArray;;
  call (glDrawArrays GL_TRIANGLES 0 (getBufferSize model));;
  VertexAttributeArray_delete normalArray;;
  VertexAttributeArray_delete uvArray;;
  VertexAttributeArray_delete vertexArray.

(** The body of the loop over the models; the loop carries [shaderId]. *)
Definition renderModel (rm : RenderManager) (categorizedLights : CategorizedLights)
    (viewMatrix projectionMatrix : mat4) (totalTime deltaTime : double)
    (shaderId : Z) (model : ModelBase) : GL Z :=
  shaderId ← useShader shaderId (getShaderId model);
  calls (modelUniforms categorizedLights viewMatrix projectionMatrix totalTime deltaTime model);;
  bindShadowTextures rm categorizedLights (getShaderId model);;
  drawModel model;;
  mret shaderId.

(** [renderModels]; [currentTime] is the value of [glfwGetTime()]. *)
Definition renderModels (currentTime : double) (categorizedLights : CategorizedLights)
    (rm : RenderManager) : GL RenderManager :=
  call switchToWindowViewport;;
  call (setClearColor (float_of_double (double_of_Z 0)) (float_of_double (double_of_Z 0))
                      (float_of_double (double_of_Z 0)) (float_of_double (double_of_Z 1)));;
  call (clearScreen (Z.lor GL_COLOR_BUFFER_BIT GL_DEPTH_BUFFER_BIT));;
  let deltaTime := dsub currentTime (lastTime rm) in
  let totalTime := dsub currentTime (startTime rm) in
  activeCamera ← deref (registeredCameras rm !! activeCameraId rm);
  let viewMatrix := getViewMatrix activeCamera in
  let projectionMatrix := getProjectionMatrix activeCamera in
  foldM (renderModel rm categorizedLights viewMatrix projectionMatrix totalTime deltaTime)
        (-1) (map_values (registeredModels rm));;
  mret (with_lastTime currentTime rm).

(** [render]. *)
Definition render (g : Globals) (currentTime : double) (rm : RenderManager)
    : GL RenderManager :=
  categorizedLights ← renderLights g rm;
  renderModels currentTime categorizedLights rm.

(** *** Reading a sequence of calls *)

(** The texture bindings a sequence of calls makes, as (texture unit, target,
    texture), when it starts with [active] as the active unit. *)
Fixpoint textureBindings (active : Z) (cs : list GLCall) : list (Z * Z * Z) :=
  match cs with
  | [] => []
  | glActiveTexture texture :: cs => textureBindings texture cs
  | glBindTexture target texture :: cs =>
      (active, target, texture) :: textureBindings active cs
  | _ :: cs => textureBindings active cs
  end.

(** The unit that is active after a sequence of calls. *)
Fixpoint activeTexture (active : Z) (cs : list GLCall) : Z :=
  match cs with
  | [] => active
  | glActiveTexture texture :: cs => activeTexture texture cs
  | _ :: cs => activeTexture active cs
  end.

(** The integer uniforms a sequence of calls uploads. *)
Definition integerUniforms (cs : list GLCall) : list (UniformLocation * Z) :=
  omap (fun c => match c with
                 | glUniform1i location v0 => Some (location, v0)
                 | _ => None
                 end) cs.

Definition isTextureCall (c : GLCall) : bool :=
  match c with
  | glActiveTexture _ | glBindTexture _ _ => true
  | _ => false
  end.

Definition isFramebufferCall (c : GLCall) : bool :=
  match c with
  | glBindFramebuffer _ _ => true
  | _ => false
  end.

(** Every call a computation makes satisfies [P]. *)
Definition emits {A} (P : GLCall -> Prop) (m : GL A) : Prop :=
  forall ids cs a ids', m ids = Some (cs, a, ids') -> Forall P cs.

(** The registered lights of one type, in the order of the shadow pass. *)
Definition lightsOfType (type : ShadowBufferType) (rm : RenderManager) : list LightBase :=
  filter (fun light => getShadowBufferType (getShadowBufferDetails light) = type)
         (map_values (registeredLights rm)).

(** [lightDetails] is the record [renderLights] collects for [light]. *)
Definition describes (g : Globals) (light : LightBase) (lightDetails : LightDetails) : Prop :=
  exists ids, collectLightDetails g light ids = Some ([], lightDetails, ids).

(** A computation that starts with no attribute index in use returns, with no
    attribute index in use. *)
Definition returns {A} (m : GL A) : Prop :=
  exists cs a, m ∅ = Some (cs, a, ∅).

(** The texture of the placeholder light [dead]. *)
Definition placeholderTexture (dead : option LightBase) : Z :=
  from_option (fun light => getShadowBufferTextureId (getShadowBufferDetails light)) 0 dead.

(** The texture slot [i] of a kind is to show: that of light [i] when there is
    one, that of the placeholder light otherwise. *)
Definition slotTexture (lights : list LightDetails) (dead : option LightBase) (i : nat) : Z :=
  match lights !! i with
  | Some lightDetails => textureId lightDetails
  | None => placeholderTexture dead
  end.

(** Seven 2D textures on the units 1 to 7, then eight cube-map textures on the
    units 8 to 15. *)
Definition shadowBindings (rm : RenderManager) (categorizedLights : CategorizedLights)
    : list (Z * Z * Z) :=
  ((fun i => (GL_TEXTURE0 + 1 + Z.of_nat i, GL_TEXTURE_2D,
              slotTexture (simpleLights categorizedLights) (deadSimpleLight rm) i))
     <$> seq 0 7)
  ++ ((fun i => (GL_TEXTURE0 + 8 + Z.of_nat i, GL_TEXTURE_CUBE_MAP,
                 slotTexture (cubeLights categorizedLights) (deadCubeLight rm) i))
        <$> seq 0 8).

(** The calls that open the main pass. *)
Definition mainPassHeader : list GLCall :=
  [switchToWindowViewport;
   setClearColor (float_of_double (double_of_Z 0)) (float_of_double (double_of_Z 0))
                 (float_of_double (double_of_Z 0)) (float_of_double (double_of_Z 1));
   clearScreen (Z.lor GL_COLOR_BUFFER_BIT GL_DEPTH_BUFFER_BIT)].

(** *** More ways to read a run *)

(** A computation leaves the attribute indices in use as it found them. *)
Definition keeps {A} (m : GL A) : Prop :=
  forall ids cs a ids', m ids = Some (cs, a, ids') -> ids' = ids.

(** The vertex counts of the draw calls a sequence of calls makes. *)
Definition drawnCount (c : GLCall) : option Z :=
  match c with
  | glDrawArrays _ _ count => Some count
  | _ => None
  end.

Definition drawCalls (cs : list GLCall) : list Z := omap drawnCount cs.

(** The programs a sequence of calls makes current. *)
Definition usedProgram (c : GLCall) : option Z :=
  match c with
  | glUseProgram program => Some program
  | _ => None
  end.

Definition usedPrograms (cs : list GLCall) : list Z := omap usedProgram cs.

(** A call that neither draws nor changes the program. *)
Definition quiet (c : GLCall) : Prop := drawnCount c = None /\ usedProgram c = None.

(** The programs of a list that differ from the one before them; [previous] is
    the program before the first one, if any. *)
Fixpoint programChanges (previous : option Z) (programs : list Z) : list Z :=
  match programs with
  | [] => []
  | program :: programs =>
      if bool_decide (previous = Some program) then programChanges previous programs
      else program :: programChanges (Some program) programs
  end.

(** The calls [enableAttribute] makes for the attribute [index]. *)
Definition attributeCalls (index buffer size : Z) : list GLCall :=
  [glEnableVertexAttribArray index;
   glBindBuffer GL_ARRAY_BUFFER buffer;
   glVertexAttribPointer index size GL_FLOAT GL_FALSE 0 0].

(** The local [shaderId] of a pass stands for the program made current last:
    [-1] before the first one. *)
Definition represents (shaderId : Z) (previous : option Z) : Prop :=
  match previous with
  | None => shaderId = -1
  | Some program => shaderId = to_GLint program /\ 0 <= program < GLuint_max
  end.

(** The constructor: empty registries, null placeholder lights and an empty
    active identifier; [start] and [last] are the values of the two calls of
    [glfwGetTime()]. *)
Definition RenderManager_new (start last : double) : RenderManager :=
  mkRenderManager "" None None ∅ ∅ ∅ start last.

(** The calls of a frame that has nothing to draw. *)
Definition emptyFrame : list GLCall :=
  [switchToFrameBufferViewport;
   setClearColor (float_of_double (double_of_Z 1)) (float_of_double (double_of_Z 1))
                 (float_of_double (double_of_Z 1)) (float_of_double (double_of_Z 1));
   switchToWindowViewport;
   setClearColor (float_of_double (double_of_Z 0)) (float_of_double (double_of_Z 0))
                 (float_of_double (double_of_Z 0)) (float_of_double (double_of_Z 1));
   clearScreen (Z.lor GL_COLOR_BUFFER_BIT GL_DEPTH_BUFFER_BIT)].

End render.

(** *** A concrete scene *)

(** Matrices are stood in for by integers (one-by-one matrices). *)
#[export] Instance sceneGlm : Glm := {|
  mat4 := Z;
  mat4_mul := Z.mul;
  mat4_ctor := 1;
|}.

(** The scene has
    the simple light "LightA", the cube light "LightB", the two placeholder
    lights, the model "Model1" and the camera "Main", which is the active one. *)
Definition white : vec3 := vec3_of_doubles (double_of_Z 1) (double_of_Z 1) (double_of_Z 1).

Definition simpleLightOf (lightId : string) (intensity framebuffer texture : Z) : LightBase :=
  mkLightBase lightId origin [2] [3] white (double_of_Z intensity)
    (double_lit 1 10) (double_of_Z 100)
    (mkShadowBufferDetails framebuffer texture SIMPLE) 5.

Definition cubeLightOf (lightId : string) (framebuffer texture : Z) : LightBase :=
  mkLightBase lightId origin [2; 2; 2; 2; 2; 2] [3; 4; 5; 6; 7; 8] white (double_of_Z 1)
    (double_lit 1 10) (double_of_Z 100)
    (mkShadowBufferDetails framebuffer texture CUBE) 6.

Definition lightA : LightBase := simpleLightOf "LightA" 1 11 21.
Definition lightB : LightBase := cubeLightOf "LightB" 12 22.
Definition deadSimple : LightBase := simpleLightOf "DeadSimple" 0 18 90.
Definition deadCube : LightBase := cubeLightOf "DeadCube" 19 91.
Definition model1 : ModelBase := mkModelBase "Model1" 9 7 31 41 42 43 36.
Definition mainCamera : CameraBase := mkCameraBase "Main" 10 11.

Definition emptyManager : RenderManager :=
  mkRenderManager "" None None ∅ ∅ ∅ (double_of_Z 0) (double_of_Z 0).

(** The scene without lights, and the scenes with "LightA" and with both. *)
Definition darkScene : RenderManager :=
  registerActiveCamera mainCamera
    (registerCamera mainCamera
       (registerModel model1
          (registerDeadCubeLight deadCube
             (registerDeadSimpleLight deadSimple emptyManager)))).

Definition oneLightScene : RenderManager := registerLight lightA darkScene.
Definition twoLightScene : RenderManager := registerLight lightB oneLightScene.

(** The calls of a run, and the calls of a list that upload to [location]. *)
Definition callsOf {A} (run : option (list (GLCall) * A * gset Z)) : list GLCall :=
  match run with
  | Some (cs, _, _) => cs
  | None => []
  end.

Definition resultOf {A} (run : option (list (GLCall) * A * gset Z)) : option A :=
  match run with
  | Some (_, a, _) => Some a
  | None => None
  end.

Definition uploadsTo (location : UniformLocation) (cs : list (GLCall)) : list Z :=
  snd <$> filter (fun u => u.1 = location) (integerUniforms cs).

Definition bindingsOn (target : Z) (cs : list (GLCall)) : list (Z * Z * Z) :=
  filter (fun b => b.1.2 = target /\ b.1.1 <> GL_TEXTURE0) (textureBindings GL_TEXTURE0 cs).

(** A second simple light with the program of "LightA", sorted right after it,
    and a second model with the program of "Model1": a scene in which both
    passes meet the same program twice in a row. *)
Definition lightA2 : LightBase := simpleLightOf "LightAA" 1 13 23.
Definition model2 : ModelBase := mkModelBase "Model2" 9 7 32 44 45 46 12.

Definition cachedScene : RenderManager :=
  registerModel model2 (registerLight lightA2 twoLightScene).

(** The record of a light with the shadow texture [texture], and more simple
    lights than the main pass has slots for. *)
Definition detailsOf (texture : Z) : LightDetails :=
  mkLightDetails origin 6 white (double_of_Z 1) 1600 1600 (double_lit 1 10) (double_of_Z 100)
                 texture.

Definition crowdedLights : CategorizedLights :=
  mkCategorizedLights (detailsOf <$> [21; 22; 23; 24; 25; 26; 27; 28]) [detailsOf 31].

End Render.

(* ===================================================================== *)
(** ** Properties of [std::map] *)
(* ===================================================================== *)

Module StdMapFacts.
Import StdMap.

Lemma map_insert_present {V} (k : string) (v old : V) (m : std_map V) :
  m !! k = Some old -> map_insert k v m = m.
Proof. intros H. unfold map_insert. by rewrite H. Qed.

Lemma map_insert_absent {V} (k : string) (v : V) (m : std_map V) :
  m !! k = None -> map_insert k v m !! k = Some v.
Proof. intros H. unfold map_insert. rewrite H. apply lookup_insert_eq. Qed.

Lemma map_erase_absent {V} (k : string) (m : std_map V) :
  m !! k = None -> map_erase k m = m.
Proof. apply delete_id. Qed.

Lemma map_erase_twice {V} (k : string) (m : std_map V) :
  map_erase k (map_erase k m) = map_erase k m.
Proof. apply delete_id, lookup_delete_eq. Qed.

Lemma elem_of_map_values {V} (m : std_map V) (v : V) :
  v ∈ map_values m <-> exists k, m !! k = Some v.
Proof.
  unfold map_values, map_elements. rewrite list_elem_of_fmap. split.
  - intros ([k u] & -> & Hin). exists k.
    rewrite merge_sort_Permutation in Hin. by apply elem_of_map_to_list in Hin.
  - intros (k & Hk). exists (k, v). split; [done|].
    rewrite merge_sort_Permutation. by apply elem_of_map_to_list.
Qed.

(** The elements come in identifier order. *)
Lemma map_elements_sorted {V} (m : std_map V) : Sorted key_le (map_elements m).
Proof.
  apply Sorted_merge_sort. intros a b. unfold key_le. apply String.leb_total.
Qed.

End StdMapFacts.

(* ===================================================================== *)
(** ** Properties of [ShotModel::update] *)
(* ===================================================================== *)

Module ShotFacts.
Import Float StdMap StdMapFacts Shot.

Section facts.
Context `{env : !Environment}.

(** *** What the light update leaves alone *)

Lemma destroyShotLight_models s w :
  modelObjects (destroyShotLight s w).2 = modelObjects w
  /\ registeredModels (destroyShotLight s w).2 = registeredModels w
  /\ lastShotLightChange (destroyShotLight s w).2 = lastShotLightChange w
  /\ this (destroyShotLight s w).1 = this s
  /\ isShotLightPresent (destroyShotLight s w).2 = false.
Proof. unfold destroyShotLight. destruct (shotLight s); simpl; auto. Qed.

Lemma createShotLight_models s w :
  modelObjects (createShotLight s w).2 = modelObjects w
  /\ registeredModels (createShotLight s w).2 = registeredModels w
  /\ lastShotLightChange (createShotLight s w).2 = lastShotLightChange w
  /\ this (createShotLight s w).1 = this s
  /\ isShotLightPresent (createShotLight s w).2 = true.
Proof.
  unfold createShotLight.
  pose proof (destroyShotLight_models s w) as H.
  destruct (destroyShotLight s w) as [s0 w0]; simpl in *.
  intuition.
Qed.

Lemma updateShotLight_models s w :
  modelObjects (updateShotLight s w).2 = modelObjects w
  /\ registeredModels (updateShotLight s w).2 = registeredModels w
  /\ lastShotLightChange (updateShotLight s w).2 = lastShotLightChange w
  /\ this (updateShotLight s w).1 = this s
  /\ isShotLightPresent (updateShotLight s w).2 = isShotLightPresent w.
Proof.
  unfold updateShotLight.
  destruct (isShotLightPresent w) eqn:Hflag.
  - destruct (shotLight s) as [l|] eqn:Hl.
    + rewrite Hl. simpl. auto.
    + pose proof (createShotLight_models s w) as H.
      destruct (createShotLight s w) as [s0 w0]; simpl in *.
      destruct (shotLight s0); simpl; intuition congruence.
  - destruct (shotLight s) as [l|] eqn:Hl.
    + pose proof (destroyShotLight_models s w) as H. intuition congruence.
    + simpl. auto.
Qed.

(** [init] and [deinit] leave the two statics as they are. *)
Lemma init_statics s w :
  isShotLightPresent (init s w).2 = isShotLightPresent w
  /\ lastShotLightChange (init s w).2 = lastShotLightChange w.
Proof.
  unfold init. simpl. destruct (isShotLightPresent w) eqn:Hflag; [|by simpl].
  match goal with |- context [createShotLight s ?w0] =>
    pose proof (createShotLight_models s w0) as (_ & _ & -> & _ & ->)
  end.
  done.
Qed.

Lemma deinit_statics s w :
  isShotLightPresent (deinit s w).2 = isShotLightPresent w
  /\ lastShotLightChange (deinit s w).2 = lastShotLightChange w.
Proof.
  unfold deinit. destruct (isShotLightPresent w) eqn:Hflag; [|done].
  pose proof (destroyShotLight_models s w) as (_ & _ & Hl & _).
  destruct (destroyShotLight s w). simpl in *. done.
Qed.

Lemma toggleAndMove_frame t key s w :
  registeredModels (toggleAndMove t key s w).2 = registeredModels w
  /\ this (toggleAndMove t key s w).1 = this s
  /\ getModelId (modelObjects (toggleAndMove t key s w).2 (this s))
     = getModelId (modelObjects w (this s))
  /\ getModelPosition (modelObjects (toggleAndMove t key s w).2 (this s))
     = vec3_sub (getModelPosition (modelObjects w (this s)))
         (vec3_of_doubles (double_of_Z 0) (double_of_Z 0)
            (dmul (double_of_Z 100) (dsub t (lastTime s))))
  /\ forall p, p <> this s ->
       modelObjects (toggleAndMove t key s w).2 p = modelObjects w p.
Proof.
  unfold toggleAndMove.
  match goal with |- context [updateShotLight s ?w0] =>
    pose proof (updateShotLight_models s w0) as (Hm & Hr & _ & Ht & _);
    rewrite Hm, Hr, Ht
  end.
  destruct (key GLFW_KEY_H && _); simpl;
    rewrite fn_lookup_insert; repeat split; auto;
    intros p Hp; by rewrite fn_lookup_insert_ne.
Qed.

(** The toggle is the only place where [update] changes the two statics for
    good: the light update puts the flag back to the value it found. *)
Lemma toggleAndMove_statics t key s w :
  let accepted :=
    key GLFW_KEY_H && dlt (double_lit 1 2) (dsub t (lastShotLightChange w)) in
  isShotLightPresent (toggleAndMove t key s w).2
    = (if accepted then negb (isShotLightPresent w) else isShotLightPresent w)
  /\ lastShotLightChange (toggleAndMove t key s w).2
    = (if accepted then t else lastShotLightChange w).
Proof.
  unfold toggleAndMove.
  match goal with |- context [updateShotLight s ?w0] =>
    pose proof (updateShotLight_models s w0) as (_ & _ & Hc & _ & Hf);
    rewrite Hc, Hf
  end.
  destruct (key GLFW_KEY_H && _); simpl; auto.
Qed.

(** *** The collision loop *)

Lemma collisionLoop_statics s models w :
  modelObjects (collisionLoop s models w) = modelObjects w
  /\ lightObjects (collisionLoop s models w) = lightObjects w
  /\ registeredLights (collisionLoop s models w) = registeredLights w
  /\ isShotLightPresent (collisionLoop s models w) = isShotLightPresent w
  /\ lastShotLightChange (collisionLoop s models w) = lastShotLightChange w.
Proof.
  induction models as [|model rest IH]; simpl; [auto|].
  destruct (isEnemy w model); [|exact IH].
  destruct (collidesWith s w model); [simpl; auto | exact IH].
Qed.

(** No model of the list is a struck enemy: the loop runs through and changes
    nothing. *)
Lemma collisionLoop_miss s models w :
  Forall (fun p => struck s w p = false) models ->
  collisionLoop s models w = w.
Proof.
  induction 1 as [|model rest Hmiss _ IH]; simpl; [done|].
  unfold struck in Hmiss.
  destruct (isEnemy w model); [|exact IH].
  destruct (collidesWith s w model); [discriminate | exact IH].
Qed.

(** The first struck enemy of the list ends the loop: it and the shot are
    erased, and the models after it are not looked at. *)
Lemma collisionLoop_hit s pre e post w :
  Forall (fun p => struck s w p = false) pre ->
  struck s w e = true ->
  collisionLoop s (pre ++ e :: post) w
  = deregisterModel (getModelId (modelObjects w (this s))) (deregisterModel_ptr e w).
Proof.
  intros Hpre He.
  induction Hpre as [|model rest Hmiss _ IH]; simpl.
  - unfold struck in He. apply andb_true_iff in He as [-> ->]. done.
  - unfold struck in Hmiss.
    destruct (isEnemy w model); [|exact IH].
    destruct (collidesWith s w model); [discriminate | exact IH].
Qed.

(** A list of models either has a first struck enemy or none at all. *)
Lemma first_struck s w models :
  Forall (fun p => struck s w p = false) models
  \/ exists pre e post,
       models = pre ++ e :: post
       /\ Forall (fun p => struck s w p = false) pre
       /\ struck s w e = true.
Proof.
  induction models as [|model rest [IH | (pre & e & post & -> & Hpre & He)]].
  - left. constructor.
  - destruct (struck s w model) eqn:Hm.
    + right. exists [], model, rest. auto.
    + left. by constructor.
  - destruct (struck s w model) eqn:Hm.
    + right. exists [], model, (pre ++ e :: post). auto.
    + right. exists (model :: pre), e, post. repeat split; auto.
Qed.

(** The models [getAllModels] returns are the registered ones. *)
Lemma elem_of_getAllModels w p :
  p ∈ getAllModels w <-> exists k, registeredModels w !! k = Some p.
Proof. apply elem_of_map_values. Qed.

(** *** One call of [update] *)

Lemma update_early s w t key :
  beyondThreshold (getModelPosition (modelObjects w (this s))) = true ->
  update t key s w = (s, deregisterModel (getModelId (modelObjects w (this s))) w).
Proof. intros H. unfold update. by rewrite H. Qed.

Lemma update_late s w t key :
  beyondThreshold (getModelPosition (modelObjects w (this s))) = false ->
  update t key s w
  = (with_lastTime t (toggleAndMove t key s w).1,
     collisionLoop (toggleAndMove t key s w).1
       (getAllModels (toggleAndMove t key s w).2) (toggleAndMove t key s w).2).
Proof.
  intros H. unfold update. rewrite H.
  by destruct (toggleAndMove t key s w).
Qed.

(** What one call does to the two statics. *)
Lemma update_statics t key s w :
  let accepted :=
    negb (beyondThreshold (getModelPosition (modelObjects w (this s))))
    && (key GLFW_KEY_H && dlt (double_lit 1 2) (dsub t (lastShotLightChange w))) in
  isShotLightPresent (update t key s w).2
    = (if accepted then negb (isShotLightPresent w) else isShotLightPresent w)
  /\ lastShotLightChange (update t key s w).2
    = (if accepted then t else lastShotLightChange w).
Proof.
  destruct (beyondThreshold (getModelPosition (modelObjects w (this s)))) eqn:Hb.
  - rewrite update_early by done. simpl. auto.
  - rewrite update_late by done. simpl.
    match goal with |- context [collisionLoop ?a ?b ?c] =>
      pose proof (collisionLoop_statics a b c) as (_ & _ & _ & -> & ->)
    end.
    apply toggleAndMove_statics.
Qed.

(** Calls that come no later than half a second after the time stamp of the
    last toggle leave both statics as they are. *)
Lemma updates_debounced calls w :
  Forall (fun c => dlt (double_lit 1 2) (dsub c.1.1 (lastShotLightChange w)) = false) calls ->
  isShotLightPresent (updates calls w) = isShotLightPresent w
  /\ lastShotLightChange (updates calls w) = lastShotLightChange w.
Proof.
  revert w. induction calls as [|[[t key] s] calls IH]; intros w Hall; [done|].
  inversion Hall as [|c calls' Hc Hall']; subst. simpl in Hc.
  unfold updates. simpl. fold (updates calls (update t key s w).2).
  pose proof (update_statics t key s w) as [Hf Hl].
  rewrite Hc, andb_false_r, andb_false_r in Hf, Hl. simpl in Hf, Hl.
  destruct (IH (update t key s w).2) as [IHf IHl].
  - by rewrite Hl.
  - by rewrite IHf, IHl, Hf, Hl.
Qed.

(** *** The threshold *)

(** C9: a shot that is beyond the threshold ([z < -50.0]) when [update] starts
    is erased from the model registry and nothing else happens in that call:
    the shot keeps its position and its members, no light object or light
    registration changes, the two statics keep their values, and every other
    model keeps its registration. *)
Theorem update_beyond_threshold t key s w :
  beyondThreshold (getModelPosition (modelObjects w (this s))) = true ->
  (update t key s w).1 = s
  /\ registeredModels (update t key s w).2 !! getModelId (modelObjects w (this s)) = None
  /\ (forall k, k <> getModelId (modelObjects w (this s)) ->
        registeredModels (update t key s w).2 !! k = registeredModels w !! k)
  /\ modelObjects (update t key s w).2 = modelObjects w
  /\ lightObjects (update t key s w).2 = lightObjects w
  /\ nextLight (update t key s w).2 = nextLight w
  /\ registeredLights (update t key s w).2 = registeredLights w
  /\ isShotLightPresent (update t key s w).2 = isShotLightPresent w
  /\ lastShotLightChange (update t key s w).2 = lastShotLightChange w.
Proof.
  intros Hb. rewrite update_early by done. simpl. unfold map_erase.
  split; [done|]. split; [apply lookup_delete_eq|].
  split; [|done]. intros k Hk. by apply lookup_delete_ne.
Qed.

(** A shot that is not beyond the threshold when [update] starts and strikes
    no enemy stays registered, wherever the move takes it. *)
Lemma update_keeps_registration t key s w :
  beyondThreshold (getModelPosition (modelObjects w (this s))) = false ->
  Forall (fun p => struck (toggleAndMove t key s w).1 (toggleAndMove t key s w).2 p = false)
         (getAllModels (toggleAndMove t key s w).2) ->
  registeredModels (update t key s w).2 = registeredModels w
  /\ this (update t key s w).1 = this s
  /\ modelObjects (update t key s w).2 = modelObjects (toggleAndMove t key s w).2.
Proof.
  intros Hb Hmiss. rewrite update_late by done. simpl.
  rewrite collisionLoop_miss by done.
  pose proof (toggleAndMove_frame t key s w) as (Hr & Ht & _). auto.
Qed.

(** C2, amended: a shot at [z = -49.9] whose [update] runs with a time step of
    [0.002] is moved to about [z = -50.1] (the float [-13133415 * 2^-18]), past
    the threshold, but that call does not erase it: the threshold is tested on
    the position the call starts with. Unless the shot strikes an enemy in that
    call, the registry is left as it was, and it is the next call of [update]
    that erases the shot. *)
Theorem update_tests_threshold_before_move t key s w :
  vec_z (getModelPosition (modelObjects w (this s))) = float_of_double (double_lit (-499) 10) ->
  dsub t (lastTime s) = double_lit 2 1000 ->
  Forall (fun p => struck (toggleAndMove t key s w).1 (toggleAndMove t key s w).2 p = false)
         (getAllModels (toggleAndMove t key s w).2) ->
  vec_z (getModelPosition (modelObjects (update t key s w).2 (this s)))
    = S754_finite true 13133415 (-18)
  /\ beyondThreshold (getModelPosition (modelObjects (update t key s w).2 (this s))) = true
  /\ registeredModels (update t key s w).2 = registeredModels w
  /\ forall t' key',
       registeredModels (update t' key' (update t key s w).1 (update t key s w).2).2
         !! getModelId (modelObjects w (this s)) = None.
Proof.
  intros Hz Hdt Hmiss.
  assert (Hb : beyondThreshold (getModelPosition (modelObjects w (this s))) = false).
  { unfold beyondThreshold. rewrite Hz. by vm_compute. }
  destruct (update_keeps_registration t key s w Hb Hmiss) as (Hr & Ht & Hm).
  pose proof (toggleAndMove_frame t key s w) as (_ & _ & Hid & Hpos & _).
  assert (Hz' : vec_z (getModelPosition (modelObjects (update t key s w).2 (this s)))
                = S754_finite true 13133415 (-18)).
  { rewrite Hm, Hpos. simpl. rewrite Hz, Hdt. by vm_compute. }
  assert (Hb' : beyondThreshold
                  (getModelPosition (modelObjects (update t key s w).2 (this s))) = true).
  { unfold beyondThreshold. rewrite Hz'. by vm_compute. }
  repeat split; try done.
  intros t' key'.
  rewrite <- Ht in Hb'.
  rewrite update_early by done. simpl. unfold map_erase.
  rewrite Ht, Hm, Hid. apply lookup_delete_eq.
Qed.

(** *** The toggle *)

(** C7: once a toggle has been accepted at time [t1], every later call of
    [update] (on any shot, with the key pressed or not) that comes no later than
    half a second after [t1] leaves the flag and the time stamp of the last
    toggle as the accepted toggle set them. *)
Theorem toggle_debounced t1 key1 s1 w calls :
  beyondThreshold (getModelPosition (modelObjects w (this s1))) = false ->
  key1 GLFW_KEY_H = true ->
  dlt (double_lit 1 2) (dsub t1 (lastShotLightChange w)) = true ->
  Forall (fun c => dlt (double_lit 1 2) (dsub c.1.1 t1) = false) calls ->
  isShotLightPresent (update t1 key1 s1 w).2 = negb (isShotLightPresent w)
  /\ lastShotLightChange (update t1 key1 s1 w).2 = t1
  /\ isShotLightPresent (updates calls (update t1 key1 s1 w).2) = negb (isShotLightPresent w)
  /\ lastShotLightChange (updates calls (update t1 key1 s1 w).2) = t1.
Proof.
  intros Hb Hkey Hlate Hcalls.
  pose proof (update_statics t1 key1 s1 w) as [Hf Hl].
  rewrite Hb, Hkey, Hlate in Hf, Hl. simpl in Hf, Hl.
  destruct (updates_debounced calls (update t1 key1 s1 w).2) as [Hf' Hl'].
  - by rewrite Hl.
  - by rewrite Hf', Hl', Hf, Hl.
Qed.

(** *** Collisions *)

(** C6: in a call of [update] that gets to the collision loop, the models
    looked at are the registered ones, in identifier order. The first of them
    that is named "Enemy" and collides with the shot is erased together with
    the shot, and the loop stops there: every other model, among them every
    enemy that does not collide and every enemy further down the list, keeps
    its registration. When there is no such model, the registry is unchanged. *)
Theorem update_resolves_first_collision t key s w :
  beyondThreshold (getModelPosition (modelObjects w (this s))) = false ->
  let s1 := (toggleAndMove t key s w).1 in
  let w1 := (toggleAndMove t key s w).2 in
  let w' := (update t key s w).2 in
  (forall p, p ∈ getAllModels w1 <-> exists k, registeredModels w !! k = Some p)
  /\ (Forall (fun p => struck s1 w1 p = false) (getAllModels w1) ->
      registeredModels w' = registeredModels w)
  /\ (forall pre e post,
        getAllModels w1 = pre ++ e :: post ->
        Forall (fun p => struck s1 w1 p = false) pre ->
        struck s1 w1 e = true ->
        getModelName (modelObjects w1 e) = "Enemy"
        /\ registeredModels w' !! getModelId (modelObjects w1 e) = None
        /\ registeredModels w' !! getModelId (modelObjects w (this s)) = None
        /\ forall k, k <> getModelId (modelObjects w1 e) ->
                     k <> getModelId (modelObjects w (this s)) ->
                     registeredModels w' !! k = registeredModels w !! k).
Proof.
  intros Hb s1 w1 w'.
  pose proof (toggleAndMove_frame t key s w) as (Hr & Ht & Hid & _ & _).
  fold s1 w1 in Hr, Ht, Hid.
  split; [|split].
  - intros p. rewrite elem_of_getAllModels. by rewrite Hr.
  - intros Hmiss. by apply update_keeps_registration.
  - intros pre e post Hlist Hpre He.
    assert (Hw' : w' = deregisterModel (getModelId (modelObjects w1 (this s1)))
                         (deregisterModel_ptr e w1)).
    { unfold w'. rewrite update_late by done. simpl. fold s1 w1.
      rewrite Hlist. by apply collisionLoop_hit. }
    rewrite Hw'. simpl. unfold map_erase. rewrite Ht, Hid, Hr.
    split; [|split; [|split]].
    + unfold struck, isEnemy in He. apply andb_true_iff in He as [He _].
      by apply String.eqb_eq in He.
    + destruct (decide (getModelId (modelObjects w1 e) = getModelId (modelObjects w (this s)))) as [->|Hne].
      * apply lookup_delete_eq.
      * rewrite lookup_delete_ne by done. apply lookup_delete_eq.
    + apply lookup_delete_eq.
    + intros k Hk1 Hk2. by rewrite !lookup_delete_ne.
Qed.

(** *** The light of a shot *)

Lemma createShotLight_registers s w :
  shotLight (createShotLight s w).1 = Some (nextLight w)
  /\ lightObjects (createShotLight s w).2 (nextLight w)
     = mkPointLight (getModelId (modelObjects w (this s)) +:+ "::ShotLight")
                    (getModelPosition (modelObjects w (this s)))
  /\ registeredLights (createShotLight s w).2
       !! (getModelId (modelObjects w (this s)) +:+ "::ShotLight") = Some (nextLight w).
Proof.
  unfold createShotLight, destroyShotLight, PointLight_create, registerLight, deregisterLight,
    map_assign, map_erase.
  destruct (shotLight s) as [l0|]; simpl; rewrite !fn_lookup_insert; simpl;
    (split; [done|]); (split; [done|]); apply lookup_insert_eq.
Qed.

(** X16: [createShotLight] makes a new light object, named after the shot and at
    the position of the shot, registers it and sets the flag; a light the shot
    had before is deregistered, and no other light object or registry entry
    changes. *)
Theorem createShotLight_postcondition s w :
  let l := nextLight w in
  let lightId := getModelId (modelObjects w (this s)) +:+ "::ShotLight" in
  shotLight (createShotLight s w).1 = Some l
  /\ lightObjects (createShotLight s w).2 l
     = mkPointLight lightId (getModelPosition (modelObjects w (this s)))
  /\ registeredLights (createShotLight s w).2 !! lightId = Some l
  /\ nextLight (createShotLight s w).2 = S l
  /\ isShotLightPresent (createShotLight s w).2 = true
  /\ (forall p, p <> l -> lightObjects (createShotLight s w).2 p = lightObjects w p)
  /\ (forall l0,
        shotLight s = Some l0 ->
        getLightId (lightObjects w l0) <> lightId ->
        registeredLights (createShotLight s w).2 !! getLightId (lightObjects w l0) = None)
  /\ (forall k,
        k <> lightId ->
        (forall l0, shotLight s = Some l0 -> k <> getLightId (lightObjects w l0)) ->
        registeredLights (createShotLight s w).2 !! k = registeredLights w !! k).
Proof.
  intros l lightId.
  unfold createShotLight, destroyShotLight, PointLight_create, registerLight, deregisterLight,
    map_assign, map_erase.
  destruct (shotLight s) as [l0|] eqn:Hlight; simpl; rewrite !fn_lookup_insert; simpl;
    (split; [done|]); (split; [done|]); (split; [apply lookup_insert_eq|]);
    (split; [done|]); (split; [done|]);
    (split; [by intros p Hp; rewrite !fn_lookup_insert_ne|]); split.
  - intros l1 [= <-] Hne. by rewrite lookup_insert_ne, lookup_delete_eq.
  - intros k Hk Hold. rewrite lookup_insert_ne by done.
    apply lookup_delete_ne. intros <-. by apply (Hold l0).
  - by intros l1 [=].
  - intros k Hk _. by rewrite lookup_insert_ne.
Qed.

(** After [updateShotLight] the shot has a light exactly when the flag is set,
    and the light is where the shot is. *)
Lemma updateShotLight_follows s w :
  (is_Some (shotLight (updateShotLight s w).1) <-> isShotLightPresent w = true)
  /\ forall l,
       shotLight (updateShotLight s w).1 = Some l ->
       getLightPosition (lightObjects (updateShotLight s w).2 l)
       = getModelPosition (modelObjects w (this s)).
Proof.
  unfold updateShotLight. destruct (isShotLightPresent w) eqn:Hflag.
  - destruct (shotLight s) as [l0|] eqn:Hlight.
    + simpl; rewrite ?Hlight; simpl. split; [by split|].
      intros l Hl. rewrite Hlight in Hl. injection Hl as <-. by rewrite fn_lookup_insert.
    + unfold createShotLight, destroyShotLight, PointLight_create, registerLight.
      simpl; rewrite ?Hlight; simpl. split; [by split|].
      intros l [= <-]. by rewrite !fn_lookup_insert.
  - destruct (shotLight s) as [l0|] eqn:Hlight.
    + unfold destroyShotLight. simpl; rewrite ?Hlight; simpl.
      split; [split; [by intros [? [=]] | done] | by intros l [=]].
    + simpl; rewrite ?Hlight; simpl.
      split; [split; [by intros [? [=]] | done] | by intros l [=]].
Qed.

Lemma toggleAndMove_updateShotLight t key s w :
  exists w0,
    toggleAndMove t key s w = updateShotLight s w0
    /\ modelObjects w0 (this s) = modelObjects (toggleAndMove t key s w).2 (this s)
    /\ lightObjects w0 = lightObjects w
    /\ registeredLights w0 = registeredLights w
    /\ isShotLightPresent w0 = isShotLightPresent (toggleAndMove t key s w).2.
Proof.
  unfold toggleAndMove. eexists. split; [reflexivity|].
  match goal with |- context [updateShotLight s ?w0] =>
    pose proof (updateShotLight_models s w0) as (Hobjects & _ & _ & _ & Hflag)
  end.
  rewrite Hobjects, Hflag. simpl.
  destruct (key GLFW_KEY_H && _); done.
Qed.

(** X17: After an update that did not return early, the shot has a light exactly
    when the flag is set, and the light is where the shot now is. *)
Theorem update_light_follows_flag t key s w :
  beyondThreshold (getModelPosition (modelObjects w (this s))) = false ->
  (is_Some (shotLight (update t key s w).1) <-> isShotLightPresent (update t key s w).2 = true)
  /\ forall l,
       shotLight (update t key s w).1 = Some l ->
       getLightPosition (lightObjects (update t key s w).2 l)
       = getModelPosition (modelObjects (update t key s w).2 (this (update t key s w).1)).
Proof.
  intros Hnear. rewrite (update_late _ _ _ _ Hnear). simpl.
  match goal with |- context [collisionLoop ?s1 ?models ?w1] =>
    pose proof (collisionLoop_statics s1 models w1) as (-> & -> & _ & -> & _)
  end.
  destruct (toggleAndMove_updateShotLight t key s w)
    as (w0 & Hrun & Hshot & _ & _ & Hflag).
  pose proof (toggleAndMove_frame t key s w) as (_ & -> & _).
  rewrite <- Hshot, <- Hflag, Hrun.
  apply updateShotLight_follows.
Qed.

(** What an update that does not return early does to the light of the shot:
    it is [updateShotLight] on a world [w0] that has the lights of [w]. *)
Lemma update_late_light t key s w :
  beyondThreshold (getModelPosition (modelObjects w (this s))) = false ->
  exists w0,
    shotLight (update t key s w).1 = shotLight (updateShotLight s w0).1
    /\ lightObjects (update t key s w).2 = lightObjects (updateShotLight s w0).2
    /\ registeredLights (update t key s w).2 = registeredLights (updateShotLight s w0).2
    /\ isShotLightPresent (update t key s w).2 = isShotLightPresent w0
    /\ lightObjects w0 = lightObjects w
    /\ registeredLights w0 = registeredLights w.
Proof.
  intros Hnear. rewrite (update_late _ _ _ _ Hnear). simpl.
  match goal with |- context [collisionLoop ?s1 ?models ?w1] =>
    pose proof (collisionLoop_statics s1 models w1) as (_ & -> & -> & -> & _)
  end.
  destruct (toggleAndMove_updateShotLight t key s w)
    as (w0 & Hrun & _ & Hlights & Hregistered & Hflag).
  exists w0. rewrite Hrun in *. by rewrite Hflag.
Qed.

Lemma updateShotLight_off s w :
  isShotLightPresent w = false ->
  shotLight (updateShotLight s w).1 = None
  /\ lightObjects (updateShotLight s w).2 = lightObjects w
  /\ (forall l,
        shotLight s = Some l ->
        registeredLights (updateShotLight s w).2 !! getLightId (lightObjects w l) = None)
  /\ (forall k,
        (forall l, shotLight s = Some l -> getLightId (lightObjects w l) <> k) ->
        registeredLights (updateShotLight s w).2 !! k = registeredLights w !! k).
Proof.
  intros Hflag. unfold updateShotLight, destroyShotLight, deregisterLight, map_erase.
  rewrite Hflag. destruct (shotLight s) as [l0|] eqn:Hlight; simpl.
  - split; [done|]. split; [done|]. split.
    + intros l [= <-]. apply lookup_delete_eq.
    + intros k Hk. apply lookup_delete_ne. by apply Hk.
  - by rewrite Hlight.
Qed.

(** X18: The flag is shared by all shots: once one shot has switched it off, every
    shot is without a light after its next update, and the light it had is no
    longer registered, although that shot did not toggle anything. *)
Theorem toggle_switches_off_every_shot t1 t2 key1 key2 a b w :
  beyondThreshold (getModelPosition (modelObjects w (this a))) = false ->
  isShotLightPresent w = true ->
  key1 GLFW_KEY_H = true ->
  dlt (double_lit 1 2) (dsub t1 (lastShotLightChange w)) = true ->
  beyondThreshold (getModelPosition (modelObjects (update t1 key1 a w).2 (this b))) = false ->
  key2 GLFW_KEY_H && dlt (double_lit 1 2) (dsub t2 t1) = false ->
  shotLight (update t1 key1 a w).1 = None
  /\ shotLight (update t2 key2 b (update t1 key1 a w).2).1 = None
  /\ isShotLightPresent (update t2 key2 b (update t1 key1 a w).2).2 = false
  /\ forall l,
       shotLight b = Some l ->
       registeredLights (update t2 key2 b (update t1 key1 a w).2).2
         !! getLightId (lightObjects (update t1 key1 a w).2 l) = None.
Proof.
  intros Hnear1 Hflag Hkey Hlate Hnear2 Hrejected.
  pose proof (update_statics t1 key1 a w) as [Hflag1 Hchange1].
  rewrite Hnear1, Hkey, Hlate, Hflag in *. simpl in Hflag1, Hchange1.
  pose proof (update_statics t2 key2 b (update t1 key1 a w).2) as [Hflag2 _].
  rewrite Hnear2, Hchange1, Hrejected, Hflag1 in Hflag2. simpl in Hflag2.
  destruct (update_late_light t1 key1 a w Hnear1)
    as (w0 & Hlight0 & _ & _ & Hflag0 & _).
  destruct (update_late_light t2 key2 b _ Hnear2)
    as (w3 & Hlight3 & _ & Hregistered3 & Hflag3 & Hlights3 & _).
  rewrite Hflag1 in Hflag0. rewrite Hflag2 in Hflag3.
  destruct (updateShotLight_off a w0) as (Hnone0 & _); [done|].
  destruct (updateShotLight_off b w3) as (Hnone3 & _ & Hgone & _); [done|].
  split; [congruence|]. split; [congruence|]. split; [done|].
  intros l Hl. rewrite Hregistered3, <- Hlights3. by apply Hgone.
Qed.

(** *** What an update does to other models *)

Lemma toggleAndMove_names t key s w p :
  getModelId (modelObjects (toggleAndMove t key s w).2 p) = getModelId (modelObjects w p)
  /\ getModelName (modelObjects (toggleAndMove t key s w).2 p)
     = getModelName (modelObjects w p).
Proof.
  unfold toggleAndMove.
  match goal with |- context [updateShotLight s ?w0] =>
    pose proof (updateShotLight_models s w0) as (-> & _)
  end.
  simpl. destruct (decide (this s = p)) as [<-|Hp].
  - rewrite fn_lookup_insert. by destruct (key GLFW_KEY_H && _).
  - rewrite fn_lookup_insert_ne by done. by destruct (key GLFW_KEY_H && _).
Qed.

(** X19: An update never registers a model: the registry afterwards is a part of
    the registry before. *)
Theorem update_only_removes_models t key s w :
  registeredModels (update t key s w).2 ⊆ registeredModels w.
Proof.
  destruct (beyondThreshold (getModelPosition (modelObjects w (this s)))) eqn:Hnear.
  - rewrite (update_early _ _ _ _ Hnear). simpl. apply delete_subseteq.
  - rewrite (update_late _ _ _ _ Hnear). simpl.
    pose proof (toggleAndMove_frame t key s w) as (Hregistered & _).
    destruct (first_struck (toggleAndMove t key s w).1 (toggleAndMove t key s w).2
                (getAllModels (toggleAndMove t key s w).2))
      as [Hmiss | (pre & e & post & Hmodels & Hpre & He)].
    + by rewrite (collisionLoop_miss _ _ _ Hmiss), Hregistered.
    + rewrite Hmodels, (collisionLoop_hit _ _ _ _ _ Hpre He). simpl.
      rewrite Hregistered. unfold map_erase.
      etrans; apply delete_subseteq.
Qed.

(** X20: An update leaves every model registered that is neither the shot nor
    named "Enemy", when every model is registered under its identifier. *)
Theorem update_spares_other_models t key s w k p :
  (forall k' p', registeredModels w !! k' = Some p' -> getModelId (modelObjects w p') = k') ->
  registeredModels w !! k = Some p ->
  k <> getModelId (modelObjects w (this s)) ->
  getModelName (modelObjects w p) <> "Enemy" ->
  registeredModels (update t key s w).2 !! k = Some p.
Proof.
  intros Hkeys Hk Hshot Hname.
  destruct (beyondThreshold (getModelPosition (modelObjects w (this s)))) eqn:Hnear.
  - rewrite (update_early _ _ _ _ Hnear). simpl. unfold map_erase.
    by rewrite lookup_delete_ne.
  - rewrite (update_late _ _ _ _ Hnear). simpl.
    pose proof (toggleAndMove_frame t key s w) as (Hregistered & Hthis & _).
    destruct (first_struck (toggleAndMove t key s w).1 (toggleAndMove t key s w).2
                (getAllModels (toggleAndMove t key s w).2))
      as [Hmiss | (pre & e & post & Hmodels & Hpre & He)].
    + by rewrite (collisionLoop_miss _ _ _ Hmiss), Hregistered.
    + rewrite Hmodels, (collisionLoop_hit _ _ _ _ _ Hpre He). simpl.
      rewrite Hregistered, Hthis. unfold map_erase.
      destruct (toggleAndMove_names t key s w (this s)) as [-> _].
      destruct (toggleAndMove_names t key s w e) as [-> Hename].
      rewrite lookup_delete_ne by done. rewrite lookup_delete_ne; [done|].
      intros <-.
      assert (He' : e ∈ getAllModels (toggleAndMove t key s w).2).
      { rewrite Hmodels. apply elem_of_app. right. apply list_elem_of_here. }
      apply elem_of_getAllModels in He' as [k' Hk'].
      rewrite Hregistered in Hk'. pose proof (Hkeys _ _ Hk') as <-.
      rewrite Hk in Hk'. injection Hk' as ->.
      apply Hname. rewrite <- Hename.
      unfold struck, isEnemy in He. apply andb_true_iff in He as [He _].
      by apply String.eqb_eq in He.
Qed.

(** *** [init] and [deinit] *)

(** X21: [init] halves the scale of the shot and leaves the rest of the model as it
    is. With the flag set it gives the shot a new light, at the position of the
    shot and registered under the name of the shot; without the flag it touches
    no light. *)
Theorem init_scales_and_lights s w :
  let lightId := getModelId (modelObjects w (this s)) +:+ "::ShotLight" in
  getModelScale (modelObjects (init s w).2 (this s))
  = vec3_of_doubles (double_lit 1 2) (double_lit 1 2) (double_lit 1 2)
  /\ getModelId (modelObjects (init s w).2 (this s)) = getModelId (modelObjects w (this s))
  /\ getModelName (modelObjects (init s w).2 (this s)) = getModelName (modelObjects w (this s))
  /\ getModelPosition (modelObjects (init s w).2 (this s))
     = getModelPosition (modelObjects w (this s))
  /\ (forall p, p <> this s -> modelObjects (init s w).2 p = modelObjects w p)
  /\ (isShotLightPresent w = true ->
      shotLight (init s w).1 = Some (nextLight w)
      /\ lightObjects (init s w).2 (nextLight w)
         = mkPointLight lightId (getModelPosition (modelObjects w (this s)))
      /\ registeredLights (init s w).2 !! lightId = Some (nextLight w))
  /\ (isShotLightPresent w = false ->
      shotLight (init s w).1 = shotLight s
      /\ lightObjects (init s w).2 = lightObjects w
      /\ registeredLights (init s w).2 = registeredLights w).
Proof.
  intros lightId. unfold init. simpl.
  destruct (isShotLightPresent w) eqn:Hflag.
  - match goal with |- context [createShotLight s ?w0] =>
      pose proof (createShotLight_models s w0) as (-> & _);
      pose proof (createShotLight_registers s w0) as (Hlight & Hobject & Hregistered)
    end.
    simpl in *. rewrite !fn_lookup_insert in *. simpl in *.
    repeat split; try done.
    intros p Hp. by rewrite fn_lookup_insert_ne.
  - simpl. rewrite fn_lookup_insert. simpl.
    repeat split; try done.
    intros p Hp. by rewrite fn_lookup_insert_ne.
Qed.

(** X22: [deinit] with the flag set takes the light of the shot away and leaves the
    flag set, so that the next shot that is initialised gets a light. *)
Theorem deinit_keeps_flag_for_next_shot s w next :
  isShotLightPresent w = true ->
  shotLight (deinit s w).1 = None
  /\ isShotLightPresent (deinit s w).2 = true
  /\ (forall l,
        shotLight s = Some l ->
        registeredLights (deinit s w).2 !! getLightId (lightObjects w l) = None)
  /\ is_Some (shotLight (init next (deinit s w).2).1).
Proof.
  intros Hflag. unfold deinit, destroyShotLight, deregisterLight, map_erase. rewrite Hflag.
  destruct (shotLight s) as [l0|] eqn:Hlight; simpl.
  - split; [done|]. split; [done|]. split; [intros l [= <-]; apply lookup_delete_eq|].
    unfold init. simpl.
    match goal with |- context [createShotLight next ?w0] =>
      pose proof (createShotLight_registers next w0) as (-> & _)
    end.
    done.
  - rewrite Hlight. split; [done|]. split; [done|]. split; [by intros l [=]|].
    unfold init. simpl.
    match goal with |- context [createShotLight next ?w0] =>
      pose proof (createShotLight_registers next w0) as (-> & _)
    end.
    done.
Qed.

(** X23: [deinit] without the flag does nothing. So a shot that is deinitialised
    after another shot has switched the flag off, and before its own next
    update, keeps its light registered. *)
Theorem deinit_after_toggle_leaves_light_registered t key a b w l :
  beyondThreshold (getModelPosition (modelObjects w (this a))) = false ->
  isShotLightPresent w = true ->
  key GLFW_KEY_H = true ->
  dlt (double_lit 1 2) (dsub t (lastShotLightChange w)) = true ->
  shotLight b = Some l ->
  registeredLights w !! getLightId (lightObjects w l) = Some l ->
  (forall la, shotLight a = Some la ->
              getLightId (lightObjects w la) <> getLightId (lightObjects w l)) ->
  deinit b (update t key a w).2 = (b, (update t key a w).2)
  /\ isShotLightPresent (update t key a w).2 = false
  /\ registeredLights (update t key a w).2
       !! getLightId (lightObjects (update t key a w).2 l) = Some l.
Proof.
  intros Hnear Hflag Hkey Hlate Hlight Hregistered Hother.
  pose proof (update_statics t key a w) as [Hflag1 _].
  rewrite Hnear, Hkey, Hlate, Hflag in Hflag1. simpl in Hflag1.
  split; [unfold deinit; by rewrite Hflag1|]. split; [done|].
  destruct (update_late_light t key a w Hnear)
    as (w0 & _ & Hlights1 & Hregistered1 & Hflag0 & Hlights0 & Hregistered0).
  rewrite Hflag1 in Hflag0.
  destruct (updateShotLight_off a w0) as (_ & Hlights & _ & Hkept); [done|].
  rewrite Hregistered1, Hlights1, Hlights, Hlights0, Hkept, Hregistered0; [done|].
  intros la Hla. rewrite Hlights0. by apply Hother.
Qed.

(** *** The move *)

(** Subtracting [+0] gives back the very same [float], whatever it is. *)
Lemma fsub_zero (x : spec_float) : fsub x (float_of_double (double_of_Z 0)) = x.
Proof.
  replace (float_of_double (double_of_Z 0)) with (S754_zero false) by (vm_compute; reflexivity).
  by destruct x as [[]| | |].
Qed.

(** X24: An update moves the shot along the z axis only: the x and the y coordinate
    are exactly what they were, the z coordinate is reduced by a hundred times
    the time since the last update, unless the update returned early, and the
    identifier, the name and the scale of the shot stay. *)
Theorem update_moves_along_z_only t key s w :
  let before := modelObjects w (this s) in
  let after := modelObjects (update t key s w).2 (this s) in
  vec_x (getModelPosition after) = vec_x (getModelPosition before)
  /\ vec_y (getModelPosition after) = vec_y (getModelPosition before)
  /\ vec_z (getModelPosition after)
     = (if beyondThreshold (getModelPosition before) then vec_z (getModelPosition before)
        else fsub (vec_z (getModelPosition before))
               (float_of_double (dmul (double_of_Z 100) (dsub t (lastTime s)))))
  /\ getModelId after = getModelId before
  /\ getModelName after = getModelName before
  /\ getModelScale after = getModelScale before.
Proof.
  intros before after. unfold before, after. clear before after.
  destruct (beyondThreshold (getModelPosition (modelObjects w (this s)))) eqn:Hnear.
  - by rewrite (update_early _ _ _ _ Hnear).
  - rewrite (update_late _ _ _ _ Hnear). simpl.
    match goal with |- context [collisionLoop ?s1 ?models ?w1] =>
      pose proof (collisionLoop_statics s1 models w1) as (-> & _)
    end.
    pose proof (toggleAndMove_frame t key s w) as (_ & _ & _ & -> & _).
    destruct (toggleAndMove_names t key s w (this s)) as [-> ->].
    simpl. rewrite !fsub_zero. repeat split; try done.
    unfold toggleAndMove.
    match goal with |- context [updateShotLight s ?w0] =>
      pose proof (updateShotLight_models s w0) as (-> & _)
    end.
    simpl. rewrite fn_lookup_insert. simpl. by destruct (key GLFW_KEY_H && _).
Qed.

End facts.

(** A shot at the origin between two enemies: the update erases the shot and
    "Enemy1", which it overlaps, and leaves "Enemy2". *)
Example collision_scene :
  getAllModels
    (update (double_lit 2 1000) noKey shot1
       (scene origin [("Shot1", 0%nat); ("Enemy1", 1%nat); ("Enemy2", 2%nat)])).2
  = [2%nat].
Proof. vm_compute; reflexivity. Qed.

(** C2: the shot "Shot1" at [z = -49.9], alone in the registry, updated with
    a time step of [0.002]: after the call it is beyond the threshold and
    [getAllModels] still returns it. *)
Lemma shot_moved_past_threshold_still_registered :
  let w' := (update (double_lit 2 1000) noKey shot1
               (scene (onAxis (-499) 10) [("Shot1", 0%nat)])).2 in
  beyondThreshold (getModelPosition (modelObjects w' 0%nat)) = true
  /\ getAllModels w' = [0%nat]
  /\ ~ (registeredModels w' !! "Shot1" = None).
Proof. vm_compute. split; [reflexivity | split; [reflexivity | discriminate]]. Qed.

Lemma update_tests_threshold_before_move_witness :
  let s := shot1 in
  let w := scene (onAxis (-499) 10) [("Shot1", 0%nat)] in
  let t := double_lit 2 1000 in
  registeredModels (update t noKey s w).2 = registeredModels w
  /\ registeredModels
       (update (double_lit 4 1000) noKey
          (update t noKey s w).1 (update t noKey s w).2).2 !! "Shot1" = None.
Proof.
  intros s w t.
  destruct (update_tests_threshold_before_move t noKey s w)
    as (_ & _ & Hr & Hnext).
  - vm_compute; reflexivity.
  - vm_compute; reflexivity.
  - replace (getAllModels (toggleAndMove t noKey s w).2) with [0%nat]
      by (vm_compute; reflexivity).
    constructor; [vm_compute; reflexivity | constructor].
  - split; [exact Hr | exact (Hnext (double_lit 4 1000) noKey)].
Defined.

Lemma update_beyond_threshold_witness :
  let w := scene (onAxis (-501) 10) [("Shot1", 0%nat); ("Enemy2", 2%nat)] in
  let w' := (update (double_lit 2 1000) keyH shot1 w).2 in
  registeredModels w' !! "Shot1" = None
  /\ modelObjects w' = modelObjects w
  /\ isShotLightPresent w' = isShotLightPresent w.
Proof.
  intros w w'.
  destruct (update_beyond_threshold (double_lit 2 1000) keyH shot1 w)
    as (_ & Hgone & _ & Hobj & _ & _ & _ & Hflag & _).
  - vm_compute; reflexivity.
  - split; [exact Hgone | split; [exact Hobj | exact Hflag]].
Defined.

(** Three presses of "H" on "Shot1", at [0.1], [0.3] and [0.7] seconds. The
    first one flips the flag. Before the second call the shot is at [z = -10],
    not beyond the threshold, so the call does not return early: it reaches the
    test of the key with the key down, moves the shot and sets its [lastTime],
    and leaves the flag and the time of the last change alone, since only
    [0.2] seconds have passed. The third press, [0.6] seconds after the first,
    flips the flag back. *)
Lemma toggle_debounced_witness :
  let w := scene origin [("Shot1", 0%nat)] in
  let t1 := double_lit 1 10 in
  let t2 := double_lit 3 10 in
  let t3 := double_lit 7 10 in
  let s1 := (update t1 keyH shot1 w).1 in
  let w1 := (update t1 keyH shot1 w).2 in
  let s2 := (update t2 keyH s1 w1).1 in
  let w2 := updates [(t2, keyH, s1)] w1 in
  isShotLightPresent w = true
  /\ (isShotLightPresent w1 = false /\ lastShotLightChange w1 = t1
      /\ isShotLightPresent w2 = false /\ lastShotLightChange w2 = t1)
  /\ keyH GLFW_KEY_H = true
  /\ beyondThreshold (getModelPosition (modelObjects w1 0%nat)) = false
  /\ getModelPosition (modelObjects w2 0%nat) <> getModelPosition (modelObjects w1 0%nat)
  /\ lastTime s2 = t2
  /\ getAllModels w2 = [0%nat]
  /\ beyondThreshold (getModelPosition (modelObjects w2 0%nat)) = false
  /\ isShotLightPresent (update t3 keyH s2 w2).2 = true
  /\ lastShotLightChange (update t3 keyH s2 w2).2 = t3.
Proof.
  intros w t1 t2 t3 s1 w1 s2 w2. split; [reflexivity|]. split.
  - apply (toggle_debounced t1 keyH shot1 w [(t2, keyH, s1)]).
    + vm_compute; reflexivity.
    + vm_compute; reflexivity.
    + vm_compute; reflexivity.
    + constructor; [vm_compute; reflexivity | constructor].
  - split; [reflexivity|]. split; [vm_compute; reflexivity|].
    split; [vm_compute; discriminate|]. split; [vm_compute; reflexivity|].
    split; [vm_compute; reflexivity|]. split; [vm_compute; reflexivity|].
    split; vm_compute; reflexivity.
Defined.

Lemma update_resolves_first_collision_witness :
  let w := scene origin [("Shot1", 0%nat); ("Enemy1", 1%nat); ("Enemy2", 2%nat)] in
  let w' := (update (double_lit 2 1000) noKey shot1 w).2 in
  registeredModels w' !! "Enemy1" = None
  /\ registeredModels w' !! "Shot1" = None
  /\ registeredModels w' !! "Enemy2" = Some 2%nat.
Proof.
  intros w w'.
  destruct (update_resolves_first_collision (double_lit 2 1000) noKey shot1 w) as (_ & _ & Hhit).
  - vm_compute; reflexivity.
  - destruct (Hhit [] 1%nat [2%nat; 0%nat]) as (_ & He & Hs & Hrest).
    + vm_compute; reflexivity.
    + constructor.
    + vm_compute; reflexivity.
    + split; [exact He | split; [exact Hs |]].
      unfold w'. rewrite (Hrest "Enemy2") by (vm_compute; discriminate).
      vm_compute; reflexivity.
Defined.

(** *** The further properties on the concrete scenes *)

Lemma createShotLight_postcondition_witness :
  let w := scene origin [("Shot1", 0%nat)] in
  shotLight (createShotLight shot1 w).1 = Some 0%nat
  /\ lightObjects (createShotLight shot1 w).2 0%nat = mkPointLight "Shot1::ShotLight" origin
  /\ registeredLights (createShotLight shot1 w).2 !! "Shot1::ShotLight" = Some 0%nat.
Proof.
  intros w.
  destruct (createShotLight_postcondition shot1 w) as (Hlight & Hobject & Hregistered & _).
  split; [exact Hlight | split; [exact Hobject | exact Hregistered]].
Defined.

Lemma update_light_follows_flag_witness :
  let w := scene origin [("Shot1", 0%nat)] in
  let w' := (update (double_lit 2 1000) noKey shot1 w).2 in
  is_Some (shotLight (update (double_lit 2 1000) noKey shot1 w).1)
  /\ getLightPosition (lightObjects w' 0%nat) = getModelPosition (modelObjects w' 0%nat).
Proof.
  intros w w'.
  destruct (update_light_follows_flag (double_lit 2 1000) noKey shot1 w) as [Hflag Hposition];
    [vm_compute; reflexivity|].
  split.
  - apply Hflag. vm_compute; reflexivity.
  - exact (Hposition 0%nat ltac:(vm_compute; reflexivity)).
Defined.

(** "Shot1" switches the flag off at [1.0] seconds; "Shot2", updated at [1.2]
    seconds with the key still down, loses its light. *)
Lemma toggle_switches_off_every_shot_witness :
  let w1 := (update (double_of_Z 1) keyH litShot1 twoShots).2 in
  let w2 := (update (double_lit 12 10) keyH litShot2 w1).2 in
  shotLight litShot2 = Some 1%nat
  /\ registeredLights twoShots !! "Shot2::ShotLight" = Some 1%nat
  /\ shotLight (update (double_lit 12 10) keyH litShot2 w1).1 = None
  /\ registeredLights w2 !! "Shot2::ShotLight" = None.
Proof.
  intros w1 w2.
  split; [vm_compute; reflexivity|]. split; [vm_compute; reflexivity|].
  destruct (toggle_switches_off_every_shot (double_of_Z 1) (double_lit 12 10) keyH keyH
              litShot1 litShot2 twoShots) as (_ & Hnone & _ & Hgone).
  - vm_compute; reflexivity.
  - vm_compute; reflexivity.
  - vm_compute; reflexivity.
  - vm_compute; reflexivity.
  - vm_compute; reflexivity.
  - vm_compute; reflexivity.
  - split; [exact Hnone|].
    replace "Shot2::ShotLight" with (getLightId (lightObjects w1 1%nat))
      by (vm_compute; reflexivity).
    apply Hgone. vm_compute; reflexivity.
Defined.

(** "Shot1" hits "Enemy1"; "Shot2", which is not an enemy, stays registered. *)
Lemma update_spares_other_models_witness :
  let w := shotsScene [("Shot1", 0%nat); ("Shot2", 3%nat); ("Enemy1", 1%nat)] in
  let w' := (update (double_lit 2 1000) noKey shot1 w).2 in
  registeredModels w' !! "Enemy1" = None
  /\ registeredModels w' !! "Shot2" = Some 3%nat.
Proof.
  intros w w'. split; [vm_compute; reflexivity|].
  apply (update_spares_other_models (double_lit 2 1000) noKey shot1 w).
  - intros k' p' Hk'. apply elem_of_map_to_list in Hk'.
    assert (Hall : Forall (fun kp => getModelId (modelObjects w kp.2) = kp.1)
                          (map_to_list (registeredModels w)))
      by (vm_compute; repeat constructor).
    rewrite list.Forall_forall in Hall. exact (Hall (k', p') Hk').
  - vm_compute; reflexivity.
  - vm_compute; discriminate.
  - vm_compute; discriminate.
Defined.

Lemma init_scales_and_lights_witness :
  let w := scene origin [("Shot1", 0%nat)] in
  getModelScale (modelObjects (init shot1 w).2 0%nat)
  = vec3_of_doubles (double_lit 1 2) (double_lit 1 2) (double_lit 1 2)
  /\ shotLight (init shot1 w).1 = Some 0%nat
  /\ registeredLights (init shot1 w).2 !! "Shot1::ShotLight" = Some 0%nat.
Proof.
  intros w.
  destruct (init_scales_and_lights shot1 w) as (Hscale & _ & _ & _ & _ & Hlit & _).
  destruct (Hlit ltac:(reflexivity)) as (Hlight & _ & Hregistered).
  split; [exact Hscale | split; [exact Hlight | exact Hregistered]].
Defined.

Lemma deinit_keeps_flag_for_next_shot_witness :
  shotLight (deinit litShot1 twoShots).1 = None
  /\ isShotLightPresent (deinit litShot1 twoShots).2 = true
  /\ registeredLights (deinit litShot1 twoShots).2 !! "Shot1::ShotLight" = None
  /\ is_Some (shotLight (init shot1 (deinit litShot1 twoShots).2).1).
Proof.
  destruct (deinit_keeps_flag_for_next_shot litShot1 twoShots shot1)
    as (Hnone & Hflag & Hgone & Hnext); [vm_compute; reflexivity|].
  split; [exact Hnone|]. split; [exact Hflag|]. split; [|exact Hnext].
  replace "Shot1::ShotLight" with (getLightId (lightObjects twoShots 0%nat))
    by (vm_compute; reflexivity).
  apply Hgone. vm_compute; reflexivity.
Defined.

(** "Shot1" switches the flag off; "Shot2" is deinitialised before its next
    update and its light stays in the registry. *)
Lemma deinit_after_toggle_leaves_light_registered_witness :
  let w1 := (update (double_of_Z 1) keyH litShot1 twoShots).2 in
  deinit litShot2 w1 = (litShot2, w1)
  /\ registeredLights w1 !! "Shot2::ShotLight" = Some 1%nat.
Proof.
  intros w1.
  destruct (deinit_after_toggle_leaves_light_registered (double_of_Z 1) keyH
              litShot1 litShot2 twoShots 1%nat) as (Hnothing & _ & Hkept).
  - vm_compute; reflexivity.
  - vm_compute; reflexivity.
  - vm_compute; reflexivity.
  - vm_compute; reflexivity.
  - vm_compute; reflexivity.
  - vm_compute; reflexivity.
  - intros la Hla. vm_compute in Hla. injection Hla as <-. vm_compute. discriminate.
  - split; [exact Hnothing|].
    replace "Shot2::ShotLight" with (getLightId (lightObjects w1 1%nat))
      by (vm_compute; reflexivity).
    exact Hkept.
Defined.

End ShotFacts.

(* ===================================================================== *)
(** ** Properties of [RenderManager] *)
(* ===================================================================== *)

Module RenderFacts.
Import Float StdMap StdMapFacts Render.

Section facts.
Context `{glm : !Glm}.

(** *** The registries *)

Lemma with_registeredLights_same rm : with_registeredLights (registeredLights rm) rm = rm.
Proof. by destruct rm. Qed.

Lemma with_registeredModels_same rm : with_registeredModels (registeredModels rm) rm = rm.
Proof. by destruct rm. Qed.

Lemma with_registeredCameras_same rm : with_registeredCameras (registeredCameras rm) rm = rm.
Proof. by destruct rm. Qed.

(** C1, amended: registering an entity whose identifier already has an entry
    leaves the registry as it is: the entry registered first stays, a lookup
    still returns it, and no error is reported. This holds for the lights, the
    models and the cameras. *)
Theorem register_keeps_first_entry :
  (forall rm light old,
      registeredLights rm !! getLightId light = Some old ->
      registerLight light rm = rm)
  /\ (forall rm model old,
      registeredModels rm !! getModelId model = Some old ->
      registerModel model rm = rm)
  /\ (forall rm camera old,
      registeredCameras rm !! getCameraId camera = Some old ->
      registerCamera camera rm = rm).
Proof.
  split; [|split]; intros rm e old H.
  - unfold registerLight. erewrite map_insert_present by done.
    apply with_registeredLights_same.
  - unfold registerModel. erewrite map_insert_present by done.
    apply with_registeredModels_same.
  - unfold registerCamera. erewrite map_insert_present by done.
    apply with_registeredCameras_same.
Qed.

(** C8: deregistering an identifier that has no entry leaves the registry as
    it is, and deregistering an identifier twice gives what deregistering it
    once gives. This holds for the lights, the models and the cameras, by
    identifier and by entity; no call reports an error. *)
Theorem deregister_absent_idempotent :
  (forall rm lightId,
      (registeredLights rm !! lightId = None -> deregisterLight_id lightId rm = rm)
      /\ deregisterLight_id lightId (deregisterLight_id lightId rm)
         = deregisterLight_id lightId rm)
  /\ (forall rm light,
      (registeredLights rm !! getLightId light = None -> deregisterLight light rm = rm)
      /\ deregisterLight light (deregisterLight light rm) = deregisterLight light rm)
  /\ (forall rm modelId,
      (registeredModels rm !! modelId = None -> deregisterModel_id modelId rm = rm)
      /\ deregisterModel_id modelId (deregisterModel_id modelId rm)
         = deregisterModel_id modelId rm)
  /\ (forall rm model,
      (registeredModels rm !! getModelId model = None -> deregisterModel model rm = rm)
      /\ deregisterModel model (deregisterModel model rm) = deregisterModel model rm)
  /\ (forall rm cameraId,
      (registeredCameras rm !! cameraId = None -> deregisterCamera_id cameraId rm = rm)
      /\ deregisterCamera_id cameraId (deregisterCamera_id cameraId rm)
         = deregisterCamera_id cameraId rm)
  /\ (forall rm camera,
      (registeredCameras rm !! getCameraId camera = None -> deregisterCamera camera rm = rm)
      /\ deregisterCamera camera (deregisterCamera camera rm) = deregisterCamera camera rm).
Proof.
  repeat split; try intros Habsent;
    unfold deregisterLight_id, deregisterLight, deregisterModel_id, deregisterModel,
           deregisterCamera_id, deregisterCamera; simpl;
    rewrite ?map_erase_twice, ?map_erase_absent by done;
    first [ apply with_registeredLights_same | apply with_registeredModels_same
          | apply with_registeredCameras_same | done ].
Qed.

(** *** Runs of computations *)

Lemma bind_Some {A B} (m : GL A) (f : A -> GL B) ids cs b ids' :
  (m ≫= f) ids = Some (cs, b, ids') <->
  exists cs1 a ids1 cs2,
    m ids = Some (cs1, a, ids1) /\ f a ids1 = Some (cs2, b, ids') /\ cs = cs1 ++ cs2.
Proof.
  unfold mbind, GL_bind. split.
  - destruct (m ids) as [[[cs1 a] ids1]|]; [|done].
    destruct (f a ids1) as [[[cs2 b'] ids2]|] eqn:Hf; [|done].
    intros [= <- <- <-]. by exists cs1, a, ids1, cs2.
  - intros (cs1 & a & ids1 & cs2 & -> & -> & ->). done.
Qed.

Lemma deref_Some {A} (p : option A) ids cs a ids' :
  deref p ids = Some (cs, a, ids') <-> p = Some a /\ cs = [] /\ ids' = ids.
Proof.
  destruct p as [a'|]; simpl; unfold mret, GL_ret, crash; split.
  - by intros [= <- <- <-].
  - by intros ([= ->] & -> & ->).
  - done.
  - by intros ([=] & _).
Qed.

Lemma createAttributeId_Some ids cs i ids' :
  createAttributeId ids = Some (cs, i, ids') -> cs = [] /\ ids' = ids.
Proof.
  unfold createAttributeId.
  destruct (List.find _ _) as [j|]; [|done].
  destruct (j <? GLuint_max); [|done]. by intros [= <- <- <-].
Qed.

(** A loop makes the calls of its iterations, one after the other. *)
Lemma foldM_Some {A S} (body : S -> A -> GL S) l : forall s ids cs s' ids',
  foldM body s l ids = Some (cs, s', ids') ->
  exists segments,
    cs = concat segments
    /\ Forall2 (fun a segment =>
                  exists s0 ids0 s1 ids1, body s0 a ids0 = Some (segment, s1, ids1))
               l segments.
Proof.
  induction l as [|a l IH]; intros s ids cs s' ids' Hrun; simpl in Hrun.
  - injection Hrun as <- <- <-. exists []. split; [done | constructor].
  - apply bind_Some in Hrun as (cs1 & s1 & ids1 & cs2 & Hbody & Hrest & ->).
    destruct (IH _ _ _ _ _ Hrest) as (segments & -> & Hall).
    exists (cs1 :: segments). split; [done|].
    constructor; [|done]. by exists s, ids, s1, ids1.
Qed.

(** *** What a computation emits *)

Lemma emits_ret {A} P (a : A) : emits P (mret a).
Proof. intros ids cs a' ids' [= <- <- <-]. constructor. Qed.

Lemma emits_bind {A B} P (m : GL A) (f : A -> GL B) :
  emits P m -> (forall a, emits P (f a)) -> emits P (m ≫= f).
Proof.
  intros Hm Hf ids cs b ids' Hrun.
  apply bind_Some in Hrun as (cs1 & a & ids1 & cs2 & H1 & H2 & ->).
  apply Forall_app. split; [by eapply Hm | by eapply Hf].
Qed.

Lemma emits_call P c : P c -> emits P (call c).
Proof. intros Hc ids cs a ids' [= <- <- <-]. by repeat constructor. Qed.

Lemma emits_calls P cs : Forall P cs -> emits P (calls cs).
Proof. by intros Hcs ids cs' a ids' [= <- <- <-]. Qed.

Lemma emits_deref {A} P (p : option A) : emits P (deref p).
Proof. intros ids cs a ids' (_ & -> & _)%deref_Some. constructor. Qed.

Lemma emits_foldM {A S} P (body : S -> A -> GL S) l s :
  (forall s a, emits P (body s a)) -> emits P (foldM body s l).
Proof.
  intros Hbody. revert s. induction l as [|a l IH]; intros s; simpl.
  - apply emits_ret.
  - apply emits_bind; [apply Hbody | apply IH].
Qed.

Lemma emits_forM {A} P (body : A -> GL unit) l :
  (forall a, emits P (body a)) -> emits P (forM l body).
Proof. intros Hbody. apply emits_foldM. intros _. apply Hbody. Qed.

Lemma emits_createAttributeId P : emits P createAttributeId.
Proof. intros ids cs a ids' [-> _]%createAttributeId_Some. constructor. Qed.

Lemma emits_insertAttributeId P i : emits P (insertAttributeId i).
Proof. intros ids cs a ids' [= <- <- <-]. constructor. Qed.

Lemma emits_eraseAttributeId P i : emits P (eraseAttributeId i).
Proof. intros ids cs a ids' [= <- <- <-]. constructor. Qed.

Lemma emits_useShader P shaderId id :
  (forall program, P (glUseProgram program)) -> emits P (useShader shaderId id).
Proof.
  intros HP. unfold useShader. case_bool_decide.
  - apply emits_ret.
  - apply emits_bind; [by apply emits_call | intros _; apply emits_ret].
Qed.

Lemma Forall_stages (P : GLCall -> Prop) (f : UniformLocation -> GLCall) program block field :
  (forall location, P (f location)) -> Forall P (f <$> stages program block field).
Proof. intros Hf. apply Forall_fmap, Forall_forall. intros location _. apply Hf. Qed.

Lemma Forall_concat_imap {A} (P : GLCall -> Prop) (f : nat -> A -> list GLCall) l :
  (forall i a, Forall P (f i a)) -> Forall P (concat (imap f l)).
Proof.
  revert f. induction l as [|a l IH]; intros f Hf; simpl; [constructor|].
  apply Forall_app. split; [apply Hf | apply IH]. intros i b. apply Hf.
Qed.

Create HintDb gl.

#[local] Hint Resolve emits_ret emits_call emits_calls emits_deref emits_foldM emits_forM
  emits_createAttributeId emits_insertAttributeId emits_eraseAttributeId emits_useShader
  Forall_stages Forall_concat_imap : gl.

(** Breaks a computation into the calls it is made of. *)
Ltac emits :=
  repeat first
    [ progress intros
    | apply emits_bind
    | solve [eauto with gl]
    | solve [repeat constructor] ].

(** *** Texture bindings of a sequence of calls *)

Lemma textureBindings_app active cs1 cs2 :
  textureBindings active (cs1 ++ cs2)
  = textureBindings active cs1 ++ textureBindings (activeTexture active cs1) cs2.
Proof.
  revert active. induction cs1 as [|c cs1 IH]; intros active; [done|].
  destruct c; simpl; rewrite ?IH; done.
Qed.

Lemma textureBindings_none active cs :
  Forall (fun c => isTextureCall c = false) cs ->
  textureBindings active cs = [] /\ activeTexture active cs = active.
Proof.
  induction 1 as [|c cs Hc _ IH]; [done|].
  destruct c; simpl in *; done.
Qed.

(** A loop whose iterations each select a unit and bind one texture to it. *)
Lemma textureBindings_concat_imap {A} (f : nat -> A -> list GLCall)
    (g : nat -> A -> Z * Z * Z) (l : list A) :
  (forall i a active rest,
      textureBindings active (f i a ++ rest)
      = g i a :: textureBindings (g i a).1.1 rest) ->
  forall active, textureBindings active (concat (imap f l)) = imap g l.
Proof.
  revert f g. induction l as [|a l IH]; intros f g Hf active; [done|].
  simpl. rewrite Hf. f_equal. apply IH. intros i b. apply Hf.
Qed.

Lemma textureBindings_simpleLights program l active :
  textureBindings active (concat (imap (simpleLight program) l))
  = imap (fun i lightDetails =>
            (to_GLuint (GL_TEXTURE0 + (Z.of_nat i + 1)), GL_TEXTURE_2D, textureId lightDetails)) l.
Proof. by apply textureBindings_concat_imap. Qed.

Lemma textureBindings_cubeLights program simpleCount l active :
  textureBindings active (concat (imap (cubeLight program simpleCount) l))
  = imap (fun i lightDetails =>
            (to_GLuint (GL_TEXTURE0 + (Z.of_nat i + 8)), GL_TEXTURE_CUBE_MAP,
             textureId lightDetails)) l.
Proof. by apply textureBindings_concat_imap. Qed.

(** The loops over the unused slots: when there is a slot to fill, the
    placeholder light is there, and every slot gets its texture. *)
Lemma textureBindings_simplePlaceholders rm program l ids cs u ids' active :
  forM l (simplePlaceholder rm program) ids = Some (cs, u, ids') ->
  (l = [] \/ exists dead, deadSimpleLight rm = Some dead)
  /\ textureBindings active cs
     = (fun i => (to_GLuint (GL_TEXTURE0 + (Z.of_nat i + 1)), GL_TEXTURE_2D,
                  placeholderTexture (deadSimpleLight rm))) <$> l.
Proof.
  unfold forM. revert ids cs active.
  induction l as [|i l IH]; intros ids cs active Hrun; simpl in Hrun.
  - injection Hrun as <- _ _. split; [by left | done].
  - apply bind_Some in Hrun as (cs1 & [] & ids1 & cs2 & Hbody & Hrest & ->).
    unfold simplePlaceholder in Hbody.
    destruct (deadSimpleLight rm) as [dead|] eqn:Hdead; [|done].
    injection Hbody as <- <-.
    split; [right; by exists dead|].
    simpl. f_equal. by eapply IH.
Qed.

Lemma textureBindings_cubePlaceholders rm program simpleCount l ids cs u ids' active :
  forM l (cubePlaceholder rm program simpleCount) ids = Some (cs, u, ids') ->
  (l = [] \/ exists dead, deadCubeLight rm = Some dead)
  /\ textureBindings active cs
     = (fun i => (to_GLuint (GL_TEXTURE0 + (Z.of_nat i + 8)), GL_TEXTURE_CUBE_MAP,
                  placeholderTexture (deadCubeLight rm))) <$> l.
Proof.
  unfold forM. revert ids cs active.
  induction l as [|i l IH]; intros ids cs active Hrun; simpl in Hrun.
  - injection Hrun as <- _ _. split; [by left | done].
  - apply bind_Some in Hrun as (cs1 & [] & ids1 & cs2 & Hbody & Hrest & ->).
    unfold cubePlaceholder in Hbody.
    destruct (deadCubeLight rm) as [dead|] eqn:Hdead; [|done].
    injection Hbody as <- <-.
    split; [right; by exists dead|].
    simpl. f_equal. by eapply IH.
Qed.

(** The slots of a kind, filled from the lights and then from the placeholder. *)
Lemma slots_filled {B} (h : nat -> Z -> B) (lights : list LightDetails) dead (n : nat) :
  (length lights <= n)%nat ->
  imap (fun i lightDetails => h i (textureId lightDetails)) lights
  ++ ((fun i => h i (placeholderTexture dead)) <$> seq (length lights) (n - length lights))
  = (fun i => h i (slotTexture lights dead i)) <$> seq 0 n.
Proof.
  intros Hn.
  replace n with (length lights + (n - length lights))%nat at 2 by lia.
  rewrite seq_app, fmap_app. f_equal.
  - apply list_eq. intros i.
    rewrite list_lookup_imap, list_lookup_fmap.
    destruct (lights !! i) as [d|] eqn:Hi; simpl.
    + rewrite lookup_seq_lt by (by eapply lookup_lt_Some).
      simpl. unfold slotTexture. by rewrite Hi.
    + rewrite lookup_seq_ge; [done|]. by apply lookup_ge_None.
  - apply list_fmap_ext. intros j i Hi.
    apply lookup_seq in Hi as [-> _].
    unfold slotTexture. rewrite lookup_ge_None_2; [done | simpl; lia].
Qed.

Lemma to_GLuint_unit (i : nat) (base : Z) :
  0 <= base <= 8 -> (i < 8)%nat ->
  to_GLuint (GL_TEXTURE0 + (Z.of_nat i + base)) = GL_TEXTURE0 + base + Z.of_nat i.
Proof.
  intros Hbase Hi. unfold to_GLuint, GL_TEXTURE0.
  rewrite Z.mod_small; lia.
Qed.

(** The four loops of [bindShadowTextures], read as bindings. *)
Lemma bindShadowTextures_bindings rm categorizedLights program ids cs u ids' active :
  (length (simpleLights categorizedLights) <= 7)%nat ->
  (length (cubeLights categorizedLights) <= 8)%nat ->
  bindShadowTextures rm categorizedLights program ids = Some (cs, u, ids') ->
  textureBindings active cs = shadowBindings rm categorizedLights
  /\ ((length (simpleLights categorizedLights) < 7)%nat -> is_Some (deadSimpleLight rm))
  /\ ((length (cubeLights categorizedLights) < 8)%nat -> is_Some (deadCubeLight rm)).
Proof.
  intros Hsimple Hcube Hrun. unfold bindShadowTextures in Hrun.
  apply bind_Some in Hrun as (cs1 & [] & ids1 & r1 & [= <- <-] & Hrun & ->).
  apply bind_Some in Hrun as (cs2 & [] & ids2 & r2 & Hsp & Hrun & ->).
  apply bind_Some in Hrun as (cs3 & [] & ids3 & cs4 & [= <- <-] & Hcp & ->).
  rewrite !textureBindings_app.
  eapply textureBindings_simplePlaceholders in Hsp as [Hdead2 ->].
  eapply textureBindings_cubePlaceholders in Hcp as [Hdead4 ->].
  rewrite textureBindings_simpleLights, textureBindings_cubeLights.
  split; [|split].
  - rewrite app_assoc. unfold shadowBindings. f_equal.
    + rewrite (slots_filled (fun i texture =>
                 (to_GLuint (GL_TEXTURE0 + (Z.of_nat i + 1)), GL_TEXTURE_2D, texture))) by done.
      apply list_fmap_ext. intros j i Hi. apply lookup_seq in Hi as [-> Hi].
      simpl. rewrite to_GLuint_unit by lia. done.
    + rewrite (slots_filled (fun i texture =>
                 (to_GLuint (GL_TEXTURE0 + (Z.of_nat i + 8)), GL_TEXTURE_CUBE_MAP, texture))) by done.
      apply list_fmap_ext. intros j i Hi. apply lookup_seq in Hi as [-> Hi].
      simpl. rewrite to_GLuint_unit by lia. done.
  - intros Hlt. destruct Hdead2 as [Hnil | [dead ->]]; [|done].
    apply (f_equal length) in Hnil. rewrite length_seq in Hnil. simpl in Hnil. lia.
  - intros Hlt. destruct Hdead4 as [Hnil | [dead ->]]; [|done].
    apply (f_equal length) in Hnil. rewrite length_seq in Hnil. simpl in Hnil. lia.
Qed.

Lemma drawModel_no_texture model :
  emits (fun c => isTextureCall c = false) (drawModel model).
Proof.
  unfold drawModel, VertexAttributeArray_new, VertexAttributeArray_delete, enableAttribute.
  emits.
Qed.

(** One iteration of the loop over the models, read as bindings: the diffuse
    texture on unit 0, then the fifteen shadow slots. *)
Lemma renderModel_bindings rm categorizedLights viewMatrix projectionMatrix totalTime deltaTime
    shaderId model ids cs shaderId' ids' :
  (length (simpleLights categorizedLights) <= 7)%nat ->
  (length (cubeLights categorizedLights) <= 8)%nat ->
  renderModel rm categorizedLights viewMatrix projectionMatrix totalTime deltaTime
              shaderId model ids = Some (cs, shaderId', ids') ->
  (forall active,
      textureBindings active cs
      = (GL_TEXTURE0, GL_TEXTURE_2D, getTextureId model) :: shadowBindings rm categorizedLights)
  /\ ((length (simpleLights categorizedLights) < 7)%nat -> is_Some (deadSimpleLight rm))
  /\ ((length (cubeLights categorizedLights) < 8)%nat -> is_Some (deadCubeLight rm)).
Proof.
  intros Hsimple Hcube Hrun. unfold renderModel in Hrun.
  apply bind_Some in Hrun as (cs0 & shaderId1 & ids1 & r1 & Hshader & Hrun & ->).
  apply bind_Some in Hrun as (cs1 & [] & ids2 & r2 & [= <- <-] & Hrun & ->).
  apply bind_Some in Hrun as (cs2 & [] & ids3 & r3 & Hshadow & Hrun & ->).
  apply bind_Some in Hrun as (cs3 & [] & ids4 & cs4 & Hdraw & [= <- <- <-] & ->).
  apply (emits_useShader (fun c => isTextureCall c = false)) in Hshader; [|done].
  apply drawModel_no_texture in Hdraw.
  pose proof (fun active => bindShadowTextures_bindings _ _ _ _ _ _ _ active
                              Hsimple Hcube Hshadow) as Hb.
  split; [|apply (Hb 0)].
  intros active.
  destruct (textureBindings_none active _ Hshader) as [Hb0 Ha0].
  rewrite textureBindings_app, Hb0, Ha0. simpl. f_equal.
  rewrite textureBindings_app. destruct (Hb GL_TEXTURE0) as [-> _].
  rewrite app_nil_r.
  match goal with |- _ ++ textureBindings ?a _ = _ =>
    destruct (textureBindings_none a _ Hdraw) as [-> _] end.
  by rewrite app_nil_r.
Qed.

(** C3, amended: for every count of simple lights up to 7 and of cube lights
    up to 8, [renderModels] binds for every model it draws its diffuse texture
    on unit 0, then exactly seven 2D textures, on the units 1 to 7, and exactly
    eight cube-map textures, on the units 8 to 15. A slot that has a light
    shows the shadow texture of that light; every other simple slot shows the
    texture of the simple placeholder and every other cube slot that of the
    cube placeholder. Seven and eight are written in [renderModels]; the
    constants [MAX_CONE_LIGHTS] and [MAX_POINT_LIGHTS] are not used. *)
Theorem renderModels_binds_seven_and_eight currentTime categorizedLights rm ids cs rm' ids' :
  (length (simpleLights categorizedLights) <= 7)%nat ->
  (length (cubeLights categorizedLights) <= 8)%nat ->
  renderModels currentTime categorizedLights rm ids = Some (cs, rm', ids') ->
  exists segments,
    cs = mainPassHeader ++ concat segments
    /\ Forall2 (fun model segment =>
                  forall active,
                    textureBindings active segment
                    = (GL_TEXTURE0, GL_TEXTURE_2D, getTextureId model)
                      :: shadowBindings rm categorizedLights)
               (map_values (registeredModels rm)) segments
    /\ (map_values (registeredModels rm) <> [] ->
        ((length (simpleLights categorizedLights) < 7)%nat -> is_Some (deadSimpleLight rm))
        /\ ((length (cubeLights categorizedLights) < 8)%nat -> is_Some (deadCubeLight rm))).
Proof.
  intros Hsimple Hcube Hrun. unfold renderModels in Hrun.
  apply bind_Some in Hrun as (c1 & [] & ids1 & r1 & [= <- <-] & Hrun & ->).
  apply bind_Some in Hrun as (c2 & [] & ids2 & r2 & [= <- <-] & Hrun & ->).
  apply bind_Some in Hrun as (c3 & [] & ids3 & r3 & [= <- <-] & Hrun & ->).
  apply bind_Some in Hrun as (c4 & camera & ids4 & r4 & Hcam & Hrun & ->).
  apply deref_Some in Hcam as (Hcam & -> & ->).
  apply bind_Some in Hrun as (cs5 & shaderId & ids5 & c6 & Hloop & [= <- <- <-] & ->).
  apply foldM_Some in Hloop as (segments & -> & Hall).
  exists segments. split; [by rewrite app_nil_r|].
  assert (Hseg : Forall2 (fun model segment =>
            (forall active,
                textureBindings active segment
                = (GL_TEXTURE0, GL_TEXTURE_2D, getTextureId model)
                  :: shadowBindings rm categorizedLights)
            /\ ((length (simpleLights categorizedLights) < 7)%nat -> is_Some (deadSimpleLight rm))
            /\ ((length (cubeLights categorizedLights) < 8)%nat -> is_Some (deadCubeLight rm)))
          (map_values (registeredModels rm)) segments).
  { eapply Forall2_impl; [|exact Hall].
    intros model segment (s0 & ids0 & s1 & ids1 & Hbody).
    by eapply renderModel_bindings. }
  split.
  - eapply Forall2_impl; [|exact Hseg]. by intros model segment [H _].
  - intros Hne. destruct Hseg as [|model segment models segments' [_ H] _]; [done | exact H].
Qed.

(** *** What [renderLights] collects, and what the cube slots upload *)

Lemma collectLightDetails_Some g light ids cs lightDetails ids' :
  collectLightDetails g light ids = Some (cs, lightDetails, ids') ->
  exists projection view,
    getProjectionMatrices light !! 0%nat = Some projection
    /\ getViewMatrices light !! 0%nat = Some view
    /\ lightVpMatrix lightDetails = mat4_mul (mat4_mul projection view) mat4_ctor
    /\ mapWidth lightDetails = FRAMEBUFFER_WIDTH g
    /\ mapHeight lightDetails = FRAMEBUFFER_WIDTH g
    /\ textureId lightDetails = getShadowBufferTextureId (getShadowBufferDetails light).
Proof.
  unfold collectLightDetails. intros Hrun.
  apply bind_Some in Hrun as (c & projection & i0 & r0 & Hp & Hrun & ->).
  apply bind_Some in Hrun as (c' & view & i1 & r1 & Hv & [= <- <- <-] & ->).
  apply deref_Some in Hp as (Hp & _). apply deref_Some in Hv as (Hv & _).
  by exists projection, view.
Qed.

Lemma foldM_invariant {A S} (I : S -> Prop) (body : S -> A -> GL S) l :
  (forall s a ids cs s' ids', I s -> body s a ids = Some (cs, s', ids') -> I s') ->
  forall s ids cs s' ids', I s -> foldM body s l ids = Some (cs, s', ids') -> I s'.
Proof.
  intros Hbody. induction l as [|a l IH]; intros s ids cs s' ids' Hs Hrun; simpl in Hrun.
  - by injection Hrun as _ <- _.
  - apply bind_Some in Hrun as (cs1 & s1 & ids1 & cs2 & Hstep & Hrest & _).
    eapply IH; [|exact Hrest]. by eapply Hbody.
Qed.

Lemma renderLight_collects g rm categorizedLights shaderId light ids cs st' ids' :
  renderLight g rm (categorizedLights, shaderId) light ids = Some (cs, st', ids') ->
  exists lightDetails,
    collectLightDetails g light ids = Some ([], lightDetails, ids)
    /\ st'.1 = push_back (getShadowBufferType (getShadowBufferDetails light)) lightDetails
                         categorizedLights.
Proof.
  unfold renderLight. intros Hrun.
  apply bind_Some in Hrun as (cs0 & lightDetails & ids0 & r0 & Hcollect & Hrun & ->).
  apply bind_Some in Hrun as (cs1 & [] & ids1 & r1 & [= <- <-] & Hrun & ->).
  apply bind_Some in Hrun as (cs2 & [] & ids2 & r2 & [= <- <-] & Hrun & ->).
  apply bind_Some in Hrun as (cs3 & shaderId1 & ids3 & r3 & Hshader & Hrun & ->).
  apply bind_Some in Hrun as (cs4 & [] & ids4 & r4 & Hmodels & Hrun & ->).
  apply bind_Some in Hrun as (cs5 & [] & ids5 & r5 & [= <- <-] & [= <- <- <-] & ->).
  exists lightDetails. split; [|done].
  unfold collectLightDetails in *.
  apply bind_Some in Hcollect as (c & projection & i0 & r6 & Hp & Hcollect & ->).
  apply bind_Some in Hcollect as (c' & view & i1 & r7 & Hv & [= <- <- <-] & ->).
  apply deref_Some in Hp as (-> & -> & ->). apply deref_Some in Hv as (-> & -> & ->).
  done.
Qed.

(** Every record [renderLights] returns has the framebuffer width both as its
    map width and as its map height. *)
Lemma renderLights_map_sizes g rm ids cs categorizedLights ids' :
  renderLights g rm ids = Some (cs, categorizedLights, ids') ->
  Forall (fun lightDetails =>
            mapWidth lightDetails = FRAMEBUFFER_WIDTH g
            /\ mapHeight lightDetails = FRAMEBUFFER_WIDTH g)
         (simpleLights categorizedLights ++ cubeLights categorizedLights).
Proof.
  unfold renderLights. intros Hrun.
  apply bind_Some in Hrun as (cs0 & [] & ids0 & r0 & [= <- <-] & Hrun & ->).
  apply bind_Some in Hrun as (cs1 & [] & ids1 & r1 & [= <- <-] & Hrun & ->).
  apply bind_Some in Hrun as (cs2 & st & ids2 & r2 & Hloop & [= <- <- <-] & ->).
  revert Hloop.
  apply (foldM_invariant
           (fun st => Forall (fun lightDetails =>
                                mapWidth lightDetails = FRAMEBUFFER_WIDTH g
                                /\ mapHeight lightDetails = FRAMEBUFFER_WIDTH g)
                             (simpleLights st.1 ++ cubeLights st.1))).
  - intros [cl shaderId] light i c st' i' Hcl Hstep.
    apply renderLight_collects in Hstep as (lightDetails & Hcollect & ->).
    apply collectLightDetails_Some in Hcollect as (_ & _ & _ & _ & _ & Hw & Hh & _).
    simpl in Hcl. apply Forall_app in Hcl as [Hsimple Hcube].
    destruct (getShadowBufferType _); simpl; rewrite ?Forall_app; repeat split; auto.
  - simpl. constructor.
Qed.

(** The loop over the lights appends one record per light, to the sequence of
    the type of the light. *)
Lemma foldM_renderLight g rm l : forall categorizedLights shaderId ids cs st' ids',
  foldM (renderLight g rm) (categorizedLights, shaderId) l ids = Some (cs, st', ids') ->
  exists simple cube,
    simpleLights st'.1 = simpleLights categorizedLights ++ simple
    /\ cubeLights st'.1 = cubeLights categorizedLights ++ cube
    /\ Forall2 (describes g)
         (filter (fun light => getShadowBufferType (getShadowBufferDetails light) = SIMPLE) l)
         simple
    /\ Forall2 (describes g)
         (filter (fun light => getShadowBufferType (getShadowBufferDetails light) = CUBE) l)
         cube.
Proof.
  induction l as [|light l IH]; intros cl shaderId ids cs st' ids' Hrun; simpl in Hrun.
  - injection Hrun as _ <- _. exists [], []. simpl. rewrite !app_nil_r.
    repeat split; constructor.
  - apply bind_Some in Hrun as (cs1 & [cl1 shaderId1] & ids1 & cs2 & Hstep & Hrest & _).
    apply renderLight_collects in Hstep as (lightDetails & Hcollect & Hcl1).
    simpl in Hcl1. subst cl1.
    apply IH in Hrest as (simple & cube & Hs & Hc & Hsimple & Hcube).
    rewrite Hs, Hc. rewrite !filter_cons.
    destruct (getShadowBufferType (getShadowBufferDetails light)) eqn:Htype; simpl.
    + exists (lightDetails :: simple), cube. rewrite <- app_assoc.
      repeat split; try done. constructor; [by exists ids | done].
    + exists simple, (lightDetails :: cube). rewrite <- app_assoc.
      repeat split; try done. constructor; [by exists ids | done].
Qed.

(** [renderLights] returns one record for every registered light: the simple
    lights and the cube lights, each in identifier order. *)
Lemma renderLights_collects g rm ids cs categorizedLights ids' :
  renderLights g rm ids = Some (cs, categorizedLights, ids') ->
  Forall2 (describes g) (lightsOfType SIMPLE rm) (simpleLights categorizedLights)
  /\ Forall2 (describes g) (lightsOfType CUBE rm) (cubeLights categorizedLights).
Proof.
  unfold renderLights. intros Hrun.
  apply bind_Some in Hrun as (cs0 & [] & ids0 & r0 & [= <- <-] & Hrun & ->).
  apply bind_Some in Hrun as (cs1 & [] & ids1 & r1 & [= <- <-] & Hrun & ->).
  apply bind_Some in Hrun as (cs2 & st & ids2 & r2 & Hloop & [= <- <- <-] & ->).
  apply foldM_renderLight in Hloop as (simple & cube & -> & -> & Hsimple & Hcube).
  done.
Qed.

(** A cube slot with a light: the unit its texture is bound on, and the value
    its sampler gets. *)
Lemma cubeLight_unit_and_sampler program simpleCount i lightDetails active :
  textureBindings active (cubeLight program simpleCount i lightDetails)
  = [(to_GLuint (GL_TEXTURE0 + (Z.of_nat i + 8)), GL_TEXTURE_CUBE_MAP, textureId lightDetails)]
  /\ list.last (integerUniforms (cubeLight program simpleCount i lightDetails))
     = Some (glGetUniformLocation program ("cubeLightTextures[" +:+ to_string i +:+ "]"),
             to_GLint (Z.of_nat simpleCount + Z.of_nat i + 8)).
Proof. done. Qed.

(** A simple slot with a light: the unit and the value of the sampler. *)
Lemma simpleLight_unit_and_sampler program i lightDetails active :
  textureBindings active (simpleLight program i lightDetails)
  = [(to_GLuint (GL_TEXTURE0 + (Z.of_nat i + 1)), GL_TEXTURE_2D, textureId lightDetails)]
  /\ list.last (integerUniforms (simpleLight program i lightDetails))
     = Some (glGetUniformLocation program ("simpleLightTextures[" +:+ to_string i +:+ "]"),
             Z.of_nat i + 1).
Proof. done. Qed.

(** *** The order of the two passes *)

Lemma renderLights_no_texture g rm :
  emits (fun c => isTextureCall c = false) (renderLights g rm).
Proof.
  unfold renderLights. emits.
  apply emits_foldM. intros [categorizedLights shaderId] light.
  unfold renderLight, collectLightDetails. emits.
  apply emits_forM. intros model.
  unfold renderModelShadow, VertexAttributeArray_new, VertexAttributeArray_delete,
    enableAttribute.
  emits.
  apply emits_forM. intros i. unfold uploadVpMatrix. emits.
Qed.

Lemma Forall_lightUniforms (P : GLCall -> Prop) program kind i lightDetails :
  (forall location v0, P (glUniform1i location v0)) ->
  (forall location v0, P (glUniform1f location v0)) ->
  (forall location v0 v1 v2, P (glUniform3f location v0 v1 v2)) ->
  (forall location count transpose value, P (glUniformMatrix4fv location count transpose value)) ->
  Forall P (lightUniforms program kind i lightDetails).
Proof. intros. unfold lightUniforms. repeat constructor; auto. Qed.

Lemma renderModels_no_framebuffer currentTime categorizedLights rm :
  emits (fun c => isFramebufferCall c = false) (renderModels currentTime categorizedLights rm).
Proof.
  unfold renderModels. emits.
  apply emits_foldM. intros shaderId model.
  unfold renderModel, bindShadowTextures, drawModel, VertexAttributeArray_new,
    VertexAttributeArray_delete, enableAttribute.
  emits.
  - apply emits_calls. unfold modelUniforms. by repeat constructor.
  - apply emits_calls, Forall_concat_imap. intros i lightDetails.
    apply Forall_app. split; [by apply Forall_lightUniforms | by repeat constructor].
  - apply emits_forM. intros i. unfold simplePlaceholder. emits.
  - apply emits_calls, Forall_concat_imap. intros i lightDetails.
    apply Forall_app. split; [by apply Forall_lightUniforms | by repeat constructor].
  - apply emits_forM. intros i. unfold cubePlaceholder. emits.
Qed.

(** The iteration of the shadow pass for a light binds the framebuffer of that
    light first and the default framebuffer last. *)
Lemma renderLight_binds g rm st light ids cs st' ids' :
  renderLight g rm st light ids = Some (cs, st', ids') ->
  exists middle,
    cs = glBindFramebuffer GL_FRAMEBUFFER (getShadowBufferId (getShadowBufferDetails light))
         :: middle ++ [glBindFramebuffer GL_FRAMEBUFFER 0].
Proof.
  destruct st as [categorizedLights shaderId]. unfold renderLight. intros Hrun.
  apply bind_Some in Hrun as (cs0 & lightDetails & ids0 & r0 & Hcollect & Hrun & ->).
  apply bind_Some in Hrun as (cs1 & [] & ids1 & r1 & [= <- <-] & Hrun & ->).
  apply bind_Some in Hrun as (cs2 & [] & ids2 & r2 & [= <- <-] & Hrun & ->).
  apply bind_Some in Hrun as (cs3 & shaderId1 & ids3 & r3 & Hshader & Hrun & ->).
  apply bind_Some in Hrun as (cs4 & [] & ids4 & r4 & Hmodels & Hrun & ->).
  apply bind_Some in Hrun as (cs5 & [] & ids5 & r5 & [= <- <-] & [= <- <- <-] & ->).
  unfold collectLightDetails in Hcollect.
  apply bind_Some in Hcollect as (c & projection & i0 & r6 & Hp & Hcollect & ->).
  apply bind_Some in Hcollect as (c' & view & i1 & r7 & Hv & [= <- <- <-] & ->).
  apply deref_Some in Hp as (_ & -> & ->). apply deref_Some in Hv as (_ & -> & ->).
  exists (clearScreen (Z.lor GL_COLOR_BUFFER_BIT GL_DEPTH_BUFFER_BIT) :: cs3 ++ cs4).
  simpl. by rewrite <- app_assoc.
Qed.

Lemma renderLights_binds_every_light g rm ids cs categorizedLights ids' light :
  renderLights g rm ids = Some (cs, categorizedLights, ids') ->
  light ∈ map_values (registeredLights rm) ->
  glBindFramebuffer GL_FRAMEBUFFER (getShadowBufferId (getShadowBufferDetails light)) ∈ cs.
Proof.
  unfold renderLights. intros Hrun Hlight.
  apply bind_Some in Hrun as (cs0 & [] & ids0 & r0 & [= <- <-] & Hrun & ->).
  apply bind_Some in Hrun as (cs1 & [] & ids1 & r1 & [= <- <-] & Hrun & ->).
  apply bind_Some in Hrun as (cs2 & st & ids2 & r2 & Hloop & [= <- <- <-] & ->).
  apply foldM_Some in Hloop as (segments & -> & Hall).
  apply list_elem_of_lookup in Hlight as [i Hi].
  destruct (Forall2_lookup_l _ _ _ _ _ Hall Hi)
    as (segment & Hsegment & st0 & ids0 & st1 & ids1 & Hbody).
  apply renderLight_binds in Hbody as [middle ->].
  rewrite app_nil_r. do 2 apply list_elem_of_further.
  apply list_elem_of_In, in_concat. eexists. split.
  - apply list_elem_of_In. by eapply list_elem_of_lookup_2.
  - by left.
Qed.

(** C5: in a call of [render] the calls of the shadow pass come first and the
    calls of the main pass after them. The shadow pass binds the shadow
    framebuffer of every registered light, hands one record for every
    registered light to the main pass, and touches no texture unit; the main
    pass binds no framebuffer. So every framebuffer binding of the frame comes
    before every texture binding of the frame. *)
Theorem render_shadow_pass_first g currentTime rm ids cs rm' ids' :
  render g currentTime rm ids = Some (cs, rm', ids') ->
  exists shadow main categorizedLights ids1,
    renderLights g rm ids = Some (shadow, categorizedLights, ids1)
    /\ renderModels currentTime categorizedLights rm ids1 = Some (main, rm', ids')
    /\ cs = shadow ++ main
    /\ (forall light,
          light ∈ map_values (registeredLights rm) ->
          glBindFramebuffer GL_FRAMEBUFFER (getShadowBufferId (getShadowBufferDetails light))
            ∈ shadow)
    /\ Forall2 (describes g) (lightsOfType SIMPLE rm) (simpleLights categorizedLights)
    /\ Forall2 (describes g) (lightsOfType CUBE rm) (cubeLights categorizedLights)
    /\ Forall (fun c => isTextureCall c = false) shadow
    /\ Forall (fun c => isFramebufferCall c = false) main
    /\ (forall i j ci cj,
          cs !! i = Some ci -> isFramebufferCall ci = true ->
          cs !! j = Some cj -> isTextureCall cj = true ->
          (i < j)%nat).
Proof.
  intros Hrun. unfold render in Hrun.
  apply bind_Some in Hrun as (shadow & categorizedLights & ids1 & main & Hlights & Hmodels & ->).
  pose proof (renderLights_no_texture _ _ _ _ _ _ Hlights) as Hshadow.
  pose proof (renderModels_no_framebuffer _ _ _ _ _ _ _ Hmodels) as Hmain.
  destruct (renderLights_collects _ _ _ _ _ _ Hlights) as [Hsimple Hcube].
  exists shadow, main, categorizedLights, ids1.
  repeat split; try done.
  - intros light Hlight. by eapply renderLights_binds_every_light.
  - intros i j ci cj Hi Hfb Hj Htex.
    destruct (decide (i < length shadow)%nat) as [Hlt|Hge].
    + destruct (decide (length shadow <= j)%nat) as [|Hj']; [lia|].
      rewrite lookup_app_l in Hj by lia.
      rewrite Forall_lookup in Hshadow. specialize (Hshadow _ _ Hj). congruence.
    + rewrite lookup_app_r in Hi by lia.
      rewrite Forall_lookup in Hmain. specialize (Hmain _ _ Hi). congruence.
Qed.

(** *** Frames that return *)

Lemma returns_ret {A} (a : A) : returns (mret a).
Proof. by exists [], a. Qed.

Lemma returns_calls cs : returns (calls cs).
Proof. by exists cs, tt. Qed.

Lemma returns_call c : returns (call c).
Proof. by exists [c], tt. Qed.

Lemma returns_bind {A B} (m : GL A) (f : A -> GL B) :
  returns m -> (forall a, returns (f a)) -> returns (m ≫= f).
Proof.
  intros (cs1 & a & Hm) Hf. destruct (Hf a) as (cs2 & b & Hfa).
  exists (cs1 ++ cs2), b. apply bind_Some. by exists cs1, a, ∅, cs2.
Qed.

Lemma returns_deref {A} (p : option A) : is_Some p -> returns (deref p).
Proof. intros [a ->]. by exists [], a. Qed.

Lemma returns_foldM {A S} (body : S -> A -> GL S) l s :
  (forall s a, a ∈ l -> returns (body s a)) -> returns (foldM body s l).
Proof.
  revert s. induction l as [|a l IH]; intros s Hbody; simpl.
  - apply returns_ret.
  - apply returns_bind.
    + apply Hbody. left.
    + intros s'. apply IH. intros s0 b Hb. apply Hbody. by right.
Qed.

Lemma returns_forM {A} (body : A -> GL unit) l :
  (forall a, a ∈ l -> returns (body a)) -> returns (forM l body).
Proof. intros Hbody. apply returns_foldM. intros _. apply Hbody. Qed.

Lemma returns_useShader shaderId id : returns (useShader shaderId id).
Proof.
  unfold useShader. case_bool_decide; [apply returns_ret|].
  apply returns_bind; [apply returns_call | intros _; apply returns_ret].
Qed.

(** With no attribute index in use the attribute arrays of a draw get the
    indices 0, 1, 2, and give them back. *)
Lemma shadowDraw_returns (model : ModelBase) :
  returns (vertexArray ← VertexAttributeArray_new "VertexArray" (getVertexBufferId model) 3;
           enableAttribute vertexArray;;
           call (glDrawArrays GL_TRIANGLES 0 (getBufferSize model));;
           VertexAttributeArray_delete vertexArray).
Proof. eexists _, _. vm_compute. reflexivity. Qed.

Lemma drawModel_returns (model : ModelBase) : returns (drawModel model).
Proof. eexists _, _. vm_compute. reflexivity. Qed.

Ltac returns :=
  repeat first
    [ progress intros
    | apply returns_ret | apply returns_call | apply returns_calls
    | apply returns_useShader | apply drawModel_returns | apply shadowDraw_returns
    | apply returns_bind ].

Lemma renderModelShadow_returns light lightDetails model :
  (length (getViewMatrices light) <= length (getProjectionMatrices light))%nat ->
  returns (renderModelShadow light lightDetails model).
Proof.
  intros Hviews. unfold renderModelShadow. returns.
  apply returns_forM. intros i Hi%elem_of_seq. unfold uploadVpMatrix. returns.
  - apply returns_deref, lookup_lt_is_Some_2. lia.
  - apply returns_deref, lookup_lt_is_Some_2. lia.
Qed.

Lemma renderLights_returns g rm :
  (forall light,
      light ∈ map_values (registeredLights rm) ->
      (0 < length (getViewMatrices light) <= length (getProjectionMatrices light))%nat) ->
  returns (renderLights g rm).
Proof.
  intros Hlights. unfold renderLights. returns.
  apply returns_foldM. intros [categorizedLights shaderId] light [Hv Hp]%Hlights.
  unfold renderLight, collectLightDetails. returns.
  - apply returns_deref, lookup_lt_is_Some_2. lia.
  - apply returns_deref, lookup_lt_is_Some_2. lia.
  - apply returns_forM. intros model _. by apply renderModelShadow_returns.
Qed.

Lemma renderModels_returns currentTime categorizedLights rm :
  is_Some (registeredCameras rm !! activeCameraId rm) ->
  is_Some (deadSimpleLight rm) ->
  is_Some (deadCubeLight rm) ->
  returns (renderModels currentTime categorizedLights rm).
Proof.
  intros Hcamera HdeadS HdeadC. unfold renderModels. returns.
  - by apply returns_deref.
  - apply returns_foldM. intros shaderId model _.
    unfold renderModel, bindShadowTextures. returns.
    + apply returns_forM. intros i _. unfold simplePlaceholder. returns.
      by apply returns_deref.
    + apply returns_forM. intros i _. unfold cubePlaceholder. returns.
      by apply returns_deref.
Qed.

(** A frame returns when no attribute index is in use at its start, the active
    camera and the two placeholder lights are registered, and every registered
    light has a view matrix and a projection matrix for every view matrix. *)
Lemma render_returns g currentTime rm :
  (forall light,
      light ∈ map_values (registeredLights rm) ->
      (0 < length (getViewMatrices light) <= length (getProjectionMatrices light))%nat) ->
  is_Some (registeredCameras rm !! activeCameraId rm) ->
  is_Some (deadSimpleLight rm) ->
  is_Some (deadCubeLight rm) ->
  returns (render g currentTime rm).
Proof.
  intros Hlights Hcamera HdeadS HdeadC. unfold render.
  apply returns_bind; [by apply renderLights_returns|].
  intros categorizedLights. by apply renderModels_returns.
Qed.

(** *** More on the registries *)

(** X1: Registering an entity under an identifier that has no entry adds it: a
    lookup returns it, the iteration contains it, and every other identifier
    keeps what it had. *)
Theorem register_fresh_adds :
  (forall rm light,
      registeredLights rm !! getLightId light = None ->
      registeredLights (registerLight light rm) !! getLightId light = Some light
      /\ light ∈ map_values (registeredLights (registerLight light rm))
      /\ forall k, k <> getLightId light ->
           registeredLights (registerLight light rm) !! k = registeredLights rm !! k)
  /\ (forall rm model,
      registeredModels rm !! getModelId model = None ->
      registeredModels (registerModel model rm) !! getModelId model = Some model
      /\ model ∈ map_values (registeredModels (registerModel model rm))
      /\ forall k, k <> getModelId model ->
           registeredModels (registerModel model rm) !! k = registeredModels rm !! k)
  /\ (forall rm camera,
      registeredCameras rm !! getCameraId camera = None ->
      registeredCameras (registerCamera camera rm) !! getCameraId camera = Some camera
      /\ camera ∈ map_values (registeredCameras (registerCamera camera rm))
      /\ forall k, k <> getCameraId camera ->
           registeredCameras (registerCamera camera rm) !! k = registeredCameras rm !! k).
Proof.
  split; [|split]; intros rm e Hfresh; simpl; unfold map_insert; rewrite Hfresh;
    (split; [apply lookup_insert_eq|]);
    (split; [apply elem_of_map_values; eexists; apply lookup_insert_eq|]);
    intros k Hk; by apply lookup_insert_ne.
Qed.

(** X2: Registering under a fresh identifier and deregistering again gives the
    manager back as it was. *)
Theorem register_deregister_fresh :
  (forall rm light,
      registeredLights rm !! getLightId light = None ->
      deregisterLight light (registerLight light rm) = rm
      /\ deregisterLight_id (getLightId light) (registerLight light rm) = rm)
  /\ (forall rm model,
      registeredModels rm !! getModelId model = None ->
      deregisterModel model (registerModel model rm) = rm
      /\ deregisterModel_id (getModelId model) (registerModel model rm) = rm)
  /\ (forall rm camera,
      registeredCameras rm !! getCameraId camera = None ->
      deregisterCamera camera (registerCamera camera rm) = rm
      /\ deregisterCamera_id (getCameraId camera) (registerCamera camera rm) = rm).
Proof.
  split; [|split]; intros rm e Hfresh;
    unfold deregisterLight, deregisterLight_id, registerLight,
           deregisterModel, deregisterModel_id, registerModel,
           deregisterCamera, deregisterCamera_id, registerCamera; simpl;
    unfold map_insert, map_erase; rewrite Hfresh, delete_insert_id by done;
    by destruct rm.
Qed.

(** X3: An entry is replaced by deregistering its identifier first: after
    deregistering, the identifier has no entry, and registering then installs
    the new entity, whatever the registry held under that identifier. *)
Theorem deregister_then_register_replaces :
  (forall rm light,
      registeredLights (deregisterLight_id (getLightId light) rm) !! getLightId light = None
      /\ registeredLights (registerLight light (deregisterLight_id (getLightId light) rm))
           !! getLightId light = Some light
      /\ forall k, k <> getLightId light ->
           registeredLights (registerLight light (deregisterLight_id (getLightId light) rm))
             !! k = registeredLights rm !! k)
  /\ (forall rm model,
      registeredModels (deregisterModel_id (getModelId model) rm) !! getModelId model = None
      /\ registeredModels (registerModel model (deregisterModel_id (getModelId model) rm))
           !! getModelId model = Some model
      /\ forall k, k <> getModelId model ->
           registeredModels (registerModel model (deregisterModel_id (getModelId model) rm))
             !! k = registeredModels rm !! k)
  /\ (forall rm camera,
      registeredCameras (deregisterCamera_id (getCameraId camera) rm) !! getCameraId camera
      = None
      /\ registeredCameras (registerCamera camera (deregisterCamera_id (getCameraId camera) rm))
           !! getCameraId camera = Some camera
      /\ forall k, k <> getCameraId camera ->
           registeredCameras (registerCamera camera (deregisterCamera_id (getCameraId camera) rm))
             !! k = registeredCameras rm !! k).
Proof.
  split; [|split]; intros rm e; simpl; unfold map_insert, map_erase;
    rewrite lookup_delete_eq;
    (split; [done|]); (split; [apply lookup_insert_eq|]);
    intros k Hk; by rewrite lookup_insert_ne, lookup_delete_ne.
Qed.

(** *** The active camera *)

(** X4: A frame does not complete when no camera is registered under the active
    identifier: [registeredCameras[activeCameraId]] is then a null pointer,
    which [renderModels] dereferences, whatever else is registered. *)
Theorem render_needs_active_camera g currentTime rm ids :
  registeredCameras rm !! activeCameraId rm = None ->
  render g currentTime rm ids = None.
Proof.
  intros Hcamera. unfold render, mbind, GL_bind.
  destruct (renderLights g rm ids) as [[[shadow categorizedLights] ids1]|]; [|done].
  unfold renderModels. rewrite Hcamera. reflexivity.
Qed.

(** *** Attribute indices *)

Lemma find_seqZ_Some (f : Z -> bool) (n : nat) : forall s i,
  List.find f (seqZ s (Z.of_nat n)) = Some i ->
  s <= i < s + Z.of_nat n /\ f i = true /\ forall j, s <= j < i -> f j = false.
Proof.
  induction n as [|n IH]; intros s i Hfind; [done|].
  rewrite seqZ_cons in Hfind by lia. simpl in Hfind.
  destruct (f s) eqn:Hs.
  - injection Hfind as <-. split; [lia|]. split; [done|]. intros j Hj. lia.
  - replace (Z.pred (Z.of_nat (S n))) with (Z.of_nat n) in Hfind by lia.
    apply IH in Hfind as (Hrange & Hi & Hbelow).
    split; [lia|]. split; [done|]. intros j Hj.
    destruct (decide (j = s)) as [->|Hne]; [done|]. apply Hbelow. lia.
Qed.

Lemma find_seqZ_None (f : Z -> bool) (n : nat) (s : Z) :
  List.find f (seqZ s (Z.of_nat n)) = None ->
  forall j, s <= j < s + Z.of_nat n -> f j = false.
Proof.
  intros Hfind j Hj. apply (find_none _ _ Hfind).
  apply list_elem_of_In, elem_of_seqZ. lia.
Qed.

(** More indices than are in use cannot all be in use. *)
Lemma some_index_is_free (ids : gset Z) :
  ~ forall j, 0 <= j < Z.of_nat (size ids) + 1 -> j ∈ ids.
Proof.
  intros Hall.
  assert (Hsub : list_to_set (C := gset Z) (seqZ 0 (Z.of_nat (size ids) + 1)) ⊆ ids).
  { intros j Hj%elem_of_list_to_set%elem_of_seqZ. apply Hall. lia. }
  apply subseteq_size in Hsub.
  rewrite size_list_to_set in Hsub by apply NoDup_seqZ.
  rewrite length_seqZ in Hsub. lia.
Qed.

Lemma createAttributeId_inv ids cs i ids' :
  createAttributeId ids = Some (cs, i, ids') ->
  cs = [] /\ ids' = ids /\ 0 <= i < GLuint_max /\ (i ∉ ids)
  /\ forall j, 0 <= j < i -> j ∈ ids.
Proof.
  unfold createAttributeId.
  replace (Z.of_nat (size ids) + 1) with (Z.of_nat (S (size ids))) by lia.
  destruct (List.find _ _) as [k|] eqn:Hfind; [|done].
  destruct (k <? GLuint_max) eqn:Hmax; [|done]. intros [= <- <- <-].
  apply find_seqZ_Some in Hfind as (Hrange & Hfree & Hbelow).
  apply Z.ltb_lt in Hmax. apply bool_decide_eq_true in Hfree.
  repeat split; try done; try lia.
  intros j Hj. specialize (Hbelow j Hj).
  apply bool_decide_eq_false in Hbelow. by apply dec_stable.
Qed.

(** X5: [createAttributeId] returns the least index that is not in use: it makes
    no call, leaves the set of indices as it is, and every smaller index is in
    use. *)
Theorem createAttributeId_least_free ids cs i ids' :
  createAttributeId ids = Some (cs, i, ids') ->
  cs = [] /\ ids' = ids /\ 0 <= i < GLuint_max /\ (i ∉ ids)
  /\ forall j, 0 <= j < i -> j ∈ ids.
Proof.
  unfold createAttributeId.
  replace (Z.of_nat (size ids) + 1) with (Z.of_nat (S (size ids))) by lia.
  destruct (List.find _ _) as [k|] eqn:Hfind; [|done].
  destruct (k <? GLuint_max) eqn:Hmax; [|done]. intros [= <- <- <-].
  apply find_seqZ_Some in Hfind as (Hrange & Hfree & Hbelow).
  apply Z.ltb_lt in Hmax. apply bool_decide_eq_true in Hfree.
  split; [done|]. split; [done|]. split; [lia|]. split; [done|].
  intros j Hj. specialize (Hbelow j Hj).
  apply bool_decide_eq_false in Hbelow. by apply dec_stable.
Qed.

(** X6: [createAttributeId] ends the process exactly when every index below
    [GLuint_max] is in use. *)
Theorem createAttributeId_exits_iff_exhausted ids :
  createAttributeId ids = None <-> forall j, 0 <= j < GLuint_max -> j ∈ ids.
Proof.
  split.
  - unfold createAttributeId.
    replace (Z.of_nat (size ids) + 1) with (Z.of_nat (S (size ids))) by lia.
    destruct (List.find _ _) as [k|] eqn:Hfind.
    + destruct (k <? GLuint_max) eqn:Hmax; [done|]. intros _ j Hj.
      apply find_seqZ_Some in Hfind as (_ & _ & Hbelow).
      apply Z.ltb_ge in Hmax.
      assert (Hjk : 0 <= j < k) by lia. specialize (Hbelow j Hjk).
      apply bool_decide_eq_false in Hbelow. by apply dec_stable.
    + intros _. exfalso. apply (some_index_is_free ids). intros j Hj.
      assert (Hj' : 0 <= j < 0 + Z.of_nat (S (size ids))) by lia.
      pose proof (find_seqZ_None _ _ _ Hfind j Hj') as Hused.
      apply bool_decide_eq_false in Hused. by apply dec_stable.
  - intros Hall. destruct (createAttributeId ids) as [[[cs i] ids']|] eqn:Hrun; [|done].
    apply createAttributeId_inv in Hrun as (_ & _ & Hrange & Hfree & _).
    destruct Hfree. by apply Hall.
Qed.

(** *** The life of an attribute array *)

Lemma release_fresh (i : Z) (ids : gset Z) : i ∉ ids -> ({[i]} ∪ ids) ∖ {[i]} = ids.
Proof.
  intros Hfree. apply set_eq. intros x.
  rewrite elem_of_difference, elem_of_union, !elem_of_singleton. split.
  - by intros [[->|Hx] Hne].
  - intros Hx. split; [by right | by intros ->].
Qed.

Lemma not_elem_of_insert (i j : Z) (ids : gset Z) :
  i ∉ {[j]} ∪ ids -> i <> j /\ (i ∉ ids).
Proof. by rewrite not_elem_of_union, not_elem_of_singleton. Qed.

Lemma VertexAttributeArray_new_Some name buffer size ids cs a ids' :
  VertexAttributeArray_new name buffer size ids = Some (cs, a, ids') ->
  cs = [] /\ a = mkVertexAttributeArray (attributeId a) name buffer size
  /\ ids' = {[attributeId a]} ∪ ids
  /\ 0 <= attributeId a < GLuint_max /\ (attributeId a ∉ ids)
  /\ forall j, 0 <= j < attributeId a -> j ∈ ids.
Proof.
  unfold VertexAttributeArray_new. intros Hrun.
  apply bind_Some in Hrun as (cs0 & i & ids0 & r0 & Hcreate & Hrun & ->).
  apply bind_Some in Hrun as (cs1 & [] & ids1 & r1 & [= <- <-] & [= <- <- <-] & ->).
  apply createAttributeId_inv in Hcreate as (-> & -> & Hrange & Hfree & Hbelow).
  done.
Qed.

Lemma VertexAttributeArray_delete_Some a ids :
  VertexAttributeArray_delete a ids
  = Some ([glDisableVertexAttribArray (attributeId a)], tt, ids ∖ {[attributeId a]}).
Proof. reflexivity. Qed.

(** The draw of the shadow pass: one attribute array, created, enabled, drawn
    and destroyed. *)
Lemma shadowDraw_Some (model : ModelBase) ids cs u ids' :
  (vertexArray ← VertexAttributeArray_new "VertexArray" (getVertexBufferId model) 3;
   enableAttribute vertexArray;;
   call (glDrawArrays GL_TRIANGLES 0 (getBufferSize model));;
   VertexAttributeArray_delete vertexArray) ids = Some (cs, u, ids') ->
  exists vertex,
    (vertex ∉ ids)
    /\ cs = attributeCalls vertex (getVertexBufferId model) 3
            ++ [glDrawArrays GL_TRIANGLES 0 (getBufferSize model);
                glDisableVertexAttribArray vertex]
    /\ ids' = ids.
Proof.
  intros Hrun.
  apply bind_Some in Hrun as (cs0 & a & ids0 & r0 & Hnew & Hrun & ->).
  apply VertexAttributeArray_new_Some in Hnew as (-> & Ha & -> & _ & Hfree & _).
  rewrite Ha in Hrun. simpl in Hrun. injection Hrun as <- <- <-.
  exists (attributeId a). split; [done|]. split; [done|]. by apply release_fresh.
Qed.

(** X7: The main pass gives the three attribute arrays of a model three different
    indices, none of which was in use, the least ones that are free; it enables
    them with the vertex buffer (three floats per vertex), the UV buffer (two)
    and the normal buffer (three), draws the whole buffer once, and releases
    the indices in the reverse order, so that the indices in use are afterwards
    the ones before. *)
Theorem drawModel_protocol model ids cs u ids' :
  drawModel model ids = Some (cs, u, ids') ->
  exists vertex uv normal,
    0 <= vertex < uv /\ uv < normal < GLuint_max
    /\ (vertex ∉ ids) /\ (uv ∉ ids) /\ (normal ∉ ids)
    /\ (forall j, 0 <= j < normal -> j = vertex \/ j = uv \/ j ∈ ids)
    /\ cs = attributeCalls vertex (getVertexBufferId model) 3
            ++ attributeCalls uv (getUvBufferId model) 2
            ++ attributeCalls normal (getNormalBufferId model) 3
            ++ [glDrawArrays GL_TRIANGLES 0 (getBufferSize model);
                glDisableVertexAttribArray normal;
                glDisableVertexAttribArray uv;
                glDisableVertexAttribArray vertex]
    /\ ids' = ids.
Proof.
  unfold drawModel. intros Hrun.
  apply bind_Some in Hrun as (cs0 & a & ids0 & r0 & Hnew0 & Hrun & ->).
  apply bind_Some in Hrun as (cs1 & b & ids1 & r1 & Hnew1 & Hrun & ->).
  apply bind_Some in Hrun as (cs2 & c & ids2 & r2 & Hnew2 & Hrun & ->).
  apply VertexAttributeArray_new_Some in Hnew0 as (-> & Ha & -> & Hra & Hfa & Hba).
  apply VertexAttributeArray_new_Some in Hnew1 as (-> & Hb & -> & Hrb & Hfb & Hbb).
  apply VertexAttributeArray_new_Some in Hnew2 as (-> & Hc & -> & Hrc & Hfc & Hbc).
  rewrite Ha, Hb, Hc in Hrun. simpl in Hrun. injection Hrun as <- <- <-.
  set (vertex := attributeId a) in *. set (uv := attributeId b) in *.
  set (normal := attributeId c) in *.
  apply not_elem_of_insert in Hfb as [Hba' Hfb].
  pose proof Hfc as Hfc'.
  apply not_elem_of_insert in Hfc as [Hcb Hfc]. apply not_elem_of_insert in Hfc as [Hca Hfc].
  assert (Hab : vertex < uv).
  { destruct (decide (uv < vertex)) as [Hlt|Hge]; [|lia]. destruct Hfb. apply Hba. lia. }
  assert (Hbc' : uv < normal).
  { destruct (decide (normal < uv)) as [Hlt|Hge]; [|lia].
    assert (Hin : normal ∈ {[vertex]} ∪ ids) by (apply Hbb; lia).
    apply elem_of_union in Hin as [Hin|Hin]; [|done].
    by apply elem_of_singleton in Hin. }
  exists vertex, uv, normal.
  split; [lia|]. split; [lia|]. do 3 (split; [done|]).
  split; [|split; [done|]].
  - intros j Hj. pose proof (Hbc j Hj) as Hin.
    apply elem_of_union in Hin as [Hin|Hin]; [right; left; by apply elem_of_singleton in Hin|].
    apply elem_of_union in Hin as [Hin|Hin]; [left; by apply elem_of_singleton in Hin|].
    by right; right.
  - rewrite (release_fresh normal) by done.
    rewrite (release_fresh uv) by by apply not_elem_of_union; split; [apply not_elem_of_singleton|].
    by apply release_fresh.
Qed.

(** *** What a frame leaves behind *)

Lemma keeps_ret {A} (a : A) : keeps (mret a).
Proof. by intros ids cs a' ids' [= <- <- <-]. Qed.

Lemma keeps_bind {A B} (m : GL A) (f : A -> GL B) :
  keeps m -> (forall a, keeps (f a)) -> keeps (m ≫= f).
Proof.
  intros Hm Hf ids cs b ids' (cs1 & a & ids1 & cs2 & Hrun1 & Hrun2 & ->)%bind_Some.
  apply Hm in Hrun1 as ->. by apply Hf in Hrun2.
Qed.

Lemma keeps_call c : keeps (call c).
Proof. by intros ids cs a ids' [= <- <- <-]. Qed.

Lemma keeps_calls cs : keeps (calls cs).
Proof. by intros ids cs' a ids' [= <- <- <-]. Qed.

Lemma keeps_deref {A} (p : option A) : keeps (deref p).
Proof. by intros ids cs a ids' (_ & _ & ->)%deref_Some. Qed.

Lemma keeps_foldM {A S} (body : S -> A -> GL S) l s :
  (forall s a, keeps (body s a)) -> keeps (foldM body s l).
Proof.
  intros Hbody. revert s. induction l as [|a l IH]; intros s; simpl.
  - apply keeps_ret.
  - apply keeps_bind; [apply Hbody | apply IH].
Qed.

Lemma keeps_forM {A} (body : A -> GL unit) l :
  (forall a, keeps (body a)) -> keeps (forM l body).
Proof. intros Hbody. apply keeps_foldM. intros _. apply Hbody. Qed.

Lemma keeps_useShader shaderId id : keeps (useShader shaderId id).
Proof.
  unfold useShader. destruct (bool_decide _); [apply keeps_ret|].
  apply keeps_bind; [apply keeps_call | intros; apply keeps_ret].
Qed.

Lemma keeps_shadowDraw (model : ModelBase) :
  keeps (vertexArray ← VertexAttributeArray_new "VertexArray" (getVertexBufferId model) 3;
         enableAttribute vertexArray;;
         call (glDrawArrays GL_TRIANGLES 0 (getBufferSize model));;
         VertexAttributeArray_delete vertexArray).
Proof. intros ids cs u ids' Hrun. by apply shadowDraw_Some in Hrun as (_ & _ & _ & ->). Qed.

Lemma keeps_drawModel model : keeps (drawModel model).
Proof.
  intros ids cs u ids' Hrun.
  unfold drawModel in Hrun.
  apply bind_Some in Hrun as (cs0 & a & ids0 & r0 & Hnew0 & Hrun & ->).
  apply bind_Some in Hrun as (cs1 & b & ids1 & r1 & Hnew1 & Hrun & ->).
  apply bind_Some in Hrun as (cs2 & c & ids2 & r2 & Hnew2 & Hrun & ->).
  apply VertexAttributeArray_new_Some in Hnew0 as (-> & Ha & -> & Hra & Hfa & Hba).
  apply VertexAttributeArray_new_Some in Hnew1 as (-> & Hb & -> & Hrb & Hfb & Hbb).
  apply VertexAttributeArray_new_Some in Hnew2 as (-> & Hc & -> & Hrc & Hfc & Hbc).
  simpl in Hrun. injection Hrun as <- <- <-.
  rewrite (release_fresh (attributeId c)) by done.
  rewrite (release_fresh (attributeId b)) by done.
  by apply release_fresh.
Qed.

#[local] Hint Resolve keeps_ret keeps_call keeps_calls keeps_deref keeps_useShader
  keeps_shadowDraw keeps_drawModel : gl.

(** Breaks a computation into the steps it is made of. *)
Ltac keeps :=
  repeat first
    [ progress intros
    | solve [eauto with gl]
    | apply keeps_bind
    | apply keeps_foldM
    | apply keeps_forM ].

Lemma keeps_renderModelShadow light lightDetails model :
  keeps (renderModelShadow light lightDetails model).
Proof. unfold renderModelShadow, uploadVpMatrix. keeps. Qed.

Lemma keeps_renderLights g rm : keeps (renderLights g rm).
Proof.
  unfold renderLights. keeps. destruct s as [categorizedLights shaderId].
  unfold renderLight, collectLightDetails. keeps.
Qed.

Lemma keeps_bindShadowTextures rm categorizedLights program :
  keeps (bindShadowTextures rm categorizedLights program).
Proof. unfold bindShadowTextures, simplePlaceholder, cubePlaceholder. keeps. Qed.

Lemma keeps_renderModel rm categorizedLights viewMatrix projectionMatrix totalTime deltaTime
    shaderId model :
  keeps (renderModel rm categorizedLights viewMatrix projectionMatrix totalTime deltaTime
                     shaderId model).
Proof. unfold renderModel. keeps. Qed.

Lemma keeps_renderModels currentTime categorizedLights rm :
  keeps (renderModels currentTime categorizedLights rm).
Proof. unfold renderModels. keeps. Qed.

Lemma renderModels_result currentTime categorizedLights rm ids cs rm' ids' :
  renderModels currentTime categorizedLights rm ids = Some (cs, rm', ids') ->
  rm' = with_lastTime currentTime rm.
Proof.
  unfold renderModels. intros Hrun.
  apply bind_Some in Hrun as (cs0 & [] & ids0 & r0 & _ & Hrun & ->).
  apply bind_Some in Hrun as (cs1 & [] & ids1 & r1 & _ & Hrun & ->).
  apply bind_Some in Hrun as (cs2 & [] & ids2 & r2 & _ & Hrun & ->).
  apply bind_Some in Hrun as (cs3 & camera & ids3 & r3 & _ & Hrun & ->).
  apply bind_Some in Hrun as (cs4 & shaderId & ids4 & r4 & _ & Hrun & ->).
  by injection Hrun as <- <- <-.
Qed.

(** X8: A frame that completes changes nothing but [lastTime], which becomes the
    time of the frame: the registries, the active camera, the placeholder
    lights and [startTime] are as before, and every attribute index the frame
    took is released again. *)
Theorem render_frame_effect g currentTime rm ids cs rm' ids' :
  render g currentTime rm ids = Some (cs, rm', ids') ->
  rm' = with_lastTime currentTime rm /\ ids' = ids.
Proof.
  unfold render. intros Hrun.
  apply bind_Some in Hrun as (shadow & categorizedLights & ids1 & main & Hshadow & Hmain & ->).
  apply keeps_renderLights in Hshadow as ->.
  split; [by eapply renderModels_result | by eapply keeps_renderModels].
Qed.

(** *** The parts of a frame *)

(** The calls of an iteration of a loop are among the calls of the loop. *)
Lemma foldM_Some_elem {A S} (body : S -> A -> GL S) l s ids cs s' ids' a :
  foldM body s l ids = Some (cs, s', ids') ->
  a ∈ l ->
  exists segment s0 ids0 s1 ids1,
    body s0 a ids0 = Some (segment, s1, ids1) /\ forall c, c ∈ segment -> c ∈ cs.
Proof.
  intros Hrun Ha. apply foldM_Some in Hrun as (segments & -> & Hall).
  apply list_elem_of_lookup in Ha as [i Hi].
  destruct (Forall2_lookup_l _ _ _ _ _ Hall Hi)
    as (segment & Hsegment & s0 & ids0 & s1 & ids1 & Hbody).
  exists segment, s0, ids0, s1, ids1. split; [done|]. intros c Hc.
  apply list_elem_of_In, in_concat. exists segment.
  split; apply list_elem_of_In; [by eapply list_elem_of_lookup_2 | done].
Qed.

Lemma renderModel_Some rm categorizedLights viewMatrix projectionMatrix totalTime deltaTime
    shaderId model ids cs shaderId' ids' :
  renderModel rm categorizedLights viewMatrix projectionMatrix totalTime deltaTime
              shaderId model ids = Some (cs, shaderId', ids') ->
  exists switch textures draw,
    useShader shaderId (getShaderId model) ids = Some (switch, shaderId', ids)
    /\ bindShadowTextures rm categorizedLights (getShaderId model) ids = Some (textures, tt, ids)
    /\ drawModel model ids = Some (draw, tt, ids)
    /\ cs = switch
            ++ modelUniforms categorizedLights viewMatrix projectionMatrix totalTime deltaTime
                             model
            ++ textures ++ draw
    /\ ids' = ids.
Proof.
  unfold renderModel. intros Hrun.
  apply bind_Some in Hrun as (switch & shaderId1 & ids1 & r1 & Hshader & Hrun & ->).
  apply bind_Some in Hrun as (cs1 & [] & ids2 & r2 & [= <- <-] & Hrun & ->).
  apply bind_Some in Hrun as (textures & [] & ids3 & r3 & Htextures & Hrun & ->).
  apply bind_Some in Hrun as (draw & [] & ids4 & r4 & Hdraw & [= <- <- <-] & ->).
  pose proof (keeps_useShader _ _ _ _ _ _ Hshader) as ->.
  pose proof (keeps_bindShadowTextures _ _ _ _ _ _ _ Htextures) as ->.
  pose proof (keeps_drawModel _ _ _ _ _ Hdraw) as ->.
  exists switch, textures, draw. by rewrite app_nil_r.
Qed.

Lemma renderModels_Some currentTime categorizedLights rm ids cs rm' ids' :
  renderModels currentTime categorizedLights rm ids = Some (cs, rm', ids') ->
  exists activeCamera loop shaderId,
    registeredCameras rm !! activeCameraId rm = Some activeCamera
    /\ foldM (renderModel rm categorizedLights (getViewMatrix activeCamera)
                (getProjectionMatrix activeCamera)
                (dsub currentTime (startTime rm)) (dsub currentTime (lastTime rm)))
             (-1) (map_values (registeredModels rm)) ids = Some (loop, shaderId, ids')
    /\ cs = mainPassHeader ++ loop.
Proof.
  unfold renderModels. intros Hrun.
  apply bind_Some in Hrun as (cs0 & [] & ids0 & r0 & [= <- <-] & Hrun & ->).
  apply bind_Some in Hrun as (cs1 & [] & ids1 & r1 & [= <- <-] & Hrun & ->).
  apply bind_Some in Hrun as (cs2 & [] & ids2 & r2 & [= <- <-] & Hrun & ->).
  apply bind_Some in Hrun as (cs3 & camera & ids3 & r3 & Hcamera & Hrun & ->).
  apply bind_Some in Hrun as (loop & shaderId & ids4 & r4 & Hloop & [= <- <- <-] & ->).
  apply deref_Some in Hcamera as (Hcamera & -> & ->).
  exists camera, loop, shaderId. split; [done|]. split; [done|].
  by rewrite app_nil_r.
Qed.

(** The main pass uploads the uniforms of every registered model. *)
Lemma renderModels_uniforms currentTime categorizedLights rm ids cs rm' ids' model c :
  renderModels currentTime categorizedLights rm ids = Some (cs, rm', ids') ->
  model ∈ map_values (registeredModels rm) ->
  (forall activeCamera,
      registeredCameras rm !! activeCameraId rm = Some activeCamera ->
      c ∈ modelUniforms categorizedLights (getViewMatrix activeCamera)
            (getProjectionMatrix activeCamera)
            (dsub currentTime (startTime rm)) (dsub currentTime (lastTime rm)) model) ->
  c ∈ cs.
Proof.
  intros Hrun Hmodel Hc.
  apply renderModels_Some in Hrun as (camera & loop & shaderId & Hcamera & Hloop & ->).
  apply elem_of_app. right.
  destruct (foldM_Some_elem _ _ _ _ _ _ _ _ Hloop Hmodel)
    as (segment & s0 & ids0 & s1 & ids1 & Hbody & Hsub).
  apply Hsub.
  apply renderModel_Some in Hbody as (switch & textures & draw & _ & _ & _ & -> & _).
  apply elem_of_app. right. apply elem_of_app. left. by apply Hc.
Qed.

(** X9: Of two frames that follow each other, the second uploads to every model
    the time since the first as [timeDetails.deltaTime], and the time since the
    manager was constructed as [timeDetails.totalTime]. *)
Theorem consecutive_frames_delta_time g t1 t2 rm ids cs1 rm1 ids1 cs2 rm2 ids2 model :
  render g t1 rm ids = Some (cs1, rm1, ids1) ->
  render g t2 rm1 ids1 = Some (cs2, rm2, ids2) ->
  model ∈ map_values (registeredModels rm) ->
  glUniform1f (glGetUniformLocation (getShaderId model) "timeDetails.deltaTime")
              (float_of_double (dsub t2 t1)) ∈ cs2
  /\ glUniform1f (glGetUniformLocation (getShaderId model) "timeDetails.totalTime")
                 (float_of_double (dsub t2 (startTime rm))) ∈ cs2
  /\ lastTime rm2 = t2.
Proof.
  unfold render. intros Hrun1 Hrun2 Hmodel.
  apply bind_Some in Hrun1 as (shadow1 & lights1 & i1 & main1 & _ & Hmain1 & ->).
  apply bind_Some in Hrun2 as (shadow2 & lights2 & i2 & main2 & _ & Hmain2 & ->).
  apply renderModels_result in Hmain1 as ->.
  pose proof (renderModels_result _ _ _ _ _ _ _ Hmain2) as ->.
  split; [|split; [|done]]; apply elem_of_app; right;
    apply (renderModels_uniforms _ _ _ _ _ _ _ model _ Hmain2); try done;
    intros camera _; unfold modelUniforms; simpl.
  - do 5 apply list_elem_of_further. apply list_elem_of_here.
  - do 4 apply list_elem_of_further. apply list_elem_of_here.
Qed.

(** *** Draw calls and program changes *)

Lemma quiet_silent cs : Forall quiet cs -> drawCalls cs = [] /\ usedPrograms cs = [].
Proof.
  induction 1 as [|c cs [Hdraw Hprogram] _ [IHdraw IHprogram]]; [done|].
  unfold drawCalls, usedPrograms in *. simpl. by rewrite Hdraw, Hprogram.
Qed.

Lemma drawCalls_app cs1 cs2 : drawCalls (cs1 ++ cs2) = drawCalls cs1 ++ drawCalls cs2.
Proof. apply omap_app. Qed.

Lemma usedPrograms_app cs1 cs2 :
  usedPrograms (cs1 ++ cs2) = usedPrograms cs1 ++ usedPrograms cs2.
Proof. apply omap_app. Qed.

Lemma useShader_draws shaderId id ids cs shaderId' ids' :
  useShader shaderId id ids = Some (cs, shaderId', ids') -> drawCalls cs = [].
Proof.
  unfold useShader. destruct (bool_decide _).
  - by intros [= <- <- <-].
  - by intros (cs1 & [] & ids1 & cs2 & [= <- <-] & [= <- <- <-] & ->)%bind_Some.
Qed.

Lemma to_GLuint_to_GLint (n : Z) : 0 <= n < 2 ^ 32 -> to_GLuint (to_GLint n) = n.
Proof. unfold to_GLuint, to_GLint. intros Hn. Z.div_mod_to_equations. lia. Qed.

Lemma useShader_changes shaderId previous id ids cs shaderId' ids' :
  represents shaderId previous ->
  0 <= id < GLuint_max ->
  useShader shaderId id ids = Some (cs, shaderId', ids') ->
  usedPrograms cs = programChanges previous [id] /\ represents shaderId' (Some id).
Proof.
  unfold useShader, GLuint_max. intros Hprevious Hid. simpl.
  destruct (bool_decide_reflect (to_GLuint shaderId = id)) as [Hsame|Hother].
  - intros [= <- <- <-]. destruct previous as [program|]; simpl in Hprevious.
    + destruct Hprevious as [-> Hprogram]. unfold GLuint_max in Hprogram.
      rewrite to_GLuint_to_GLint in Hsame by lia. subst program.
      by rewrite bool_decide_eq_true_2.
    + subst shaderId. vm_compute in Hsame. lia.
  - intros (cs1 & [] & ids1 & cs2 & [= <- <-] & [= <- <- <-] & ->)%bind_Some.
    rewrite to_GLuint_to_GLint by lia.
    rewrite bool_decide_eq_false_2; [done|].
    intros ->. simpl in Hprevious. destruct Hprevious as [-> Hprogram].
    unfold GLuint_max in Hprogram. rewrite to_GLuint_to_GLint in Hother by lia. done.
Qed.

#[local] Hint Extern 1 (quiet _) => split; reflexivity : gl.

Lemma uploadVpMatrix_quiet program projectionMatrices viewMatrices i :
  emits quiet (uploadVpMatrix program projectionMatrices viewMatrices i).
Proof. unfold uploadVpMatrix. emits. Qed.

Lemma renderModelShadow_Some light lightDetails model ids cs u ids' :
  renderModelShadow light lightDetails model ids = Some (cs, u, ids') ->
  exists uniforms uploads vertex,
    Forall quiet uniforms
    /\ forM (seq 0 (length (getViewMatrices light)))
            (uploadVpMatrix (getLightShaderId light) (getProjectionMatrices light)
                            (getViewMatrices light)) ids = Some (uploads, tt, ids)
    /\ (forall location,
          location ∈ stages (getLightShaderId light) "lightDetails" ".vpMatrixCount" ->
          glUniform1i location (to_GLint (Z.of_nat (length (getViewMatrices light))))
            ∈ uniforms)
    /\ cs = uniforms ++ uploads
            ++ attributeCalls vertex (getVertexBufferId model) 3
            ++ [glDrawArrays GL_TRIANGLES 0 (getBufferSize model);
                glDisableVertexAttribArray vertex]
    /\ ids' = ids.
Proof.
  unfold renderModelShadow. intros Hrun.
  apply bind_Some in Hrun as (cs0 & [] & ids0 & r0 & [= <- <-] & Hrun & ->).
  apply bind_Some in Hrun as (cs1 & [] & ids1 & r1 & [= <- <-] & Hrun & ->).
  apply bind_Some in Hrun as (cs2 & [] & ids2 & r2 & [= <- <-] & Hrun & ->).
  apply bind_Some in Hrun as (cs3 & [] & ids3 & r3 & [= <- <-] & Hrun & ->).
  apply bind_Some in Hrun as (cs4 & [] & ids4 & r4 & [= <- <-] & Hrun & ->).
  apply bind_Some in Hrun as (uploads & [] & ids5 & r5 & Huploads & Hrun & ->).
  assert (ids5 = ids) as ->.
  { revert Huploads. apply keeps_forM. intros i. unfold uploadVpMatrix. keeps. }
  apply shadowDraw_Some in Hrun as (vertex & _ & -> & ->).
  exists (((fun location =>
              glUniform1i location (to_GLint (Z.of_nat (length (getViewMatrices light)))))
             <$> stages (getLightShaderId light) "lightDetails" ".vpMatrixCount")
          ++ ((fun location =>
                 glUniform3f location (vec_x (lightPosition lightDetails))
                   (vec_y (lightPosition lightDetails)) (vec_z (lightPosition lightDetails)))
                <$> stages (getLightShaderId light) "lightDetails" ".lightPosition")
          ++ ((fun location => glUniform1f location (float_of_double (nearPlane lightDetails)))
                <$> stages (getLightShaderId light) "projectionDetails" ".nearPlane")
          ++ ((fun location => glUniform1f location (float_of_double (farPlane lightDetails)))
                <$> stages (getLightShaderId light) "projectionDetails" ".farPlane")
          ++ [glUniformMatrix4fv (glGetUniformLocation (getLightShaderId light) "modelMatrix")
                1 GL_FALSE (getModelMatrix model)]),
         uploads, vertex.
  split; [simpl; by repeat constructor|]. split; [done|]. split; [|done].
  intros location Hlocation. apply elem_of_app. left.
  by apply (list_elem_of_fmap_2 (fun location => glUniform1i location _)).
Qed.

Lemma renderModelShadow_draws light lightDetails model ids cs u ids' :
  renderModelShadow light lightDetails model ids = Some (cs, u, ids') ->
  drawCalls cs = [getBufferSize model] /\ usedPrograms cs = [].
Proof.
  intros (uniforms & uploads & vertex & Huniforms & Huploads & _ & -> & _)%renderModelShadow_Some.
  apply quiet_silent in Huniforms as [Hd0 Hp0].
  assert (Forall quiet uploads) as [Hd1 Hp1]%quiet_silent.
  { revert Huploads. apply emits_forM. intros i. apply uploadVpMatrix_quiet. }
  rewrite !drawCalls_app, !usedPrograms_app, Hd0, Hp0, Hd1, Hp1. done.
Qed.

Lemma concat_singletons {A B} (h : A -> B) (l : list A) :
  concat ((fun a => [h a]) <$> l) = h <$> l.
Proof. induction l as [|a l IH]; [done|]. simpl. f_equal. exact IH. Qed.

Lemma length_concat_const {A B} (x : list B) (l : list A) :
  length (concat ((fun _ => x) <$> l)) = (length l * length x)%nat.
Proof.
  induction l as [|a l IH]; [done|].
  rewrite fmap_cons. simpl. rewrite length_app. f_equal. exact IH.
Qed.

(** What a loop draws, and which programs it makes current, when every
    iteration draws [h a] and changes no program. *)
Lemma forM_draws {A} (body : A -> GL unit) (h : A -> list Z) l : forall ids cs u ids',
  (forall a ids cs u ids',
      body a ids = Some (cs, u, ids') -> drawCalls cs = h a /\ usedPrograms cs = []) ->
  forM l body ids = Some (cs, u, ids') ->
  drawCalls cs = concat (h <$> l) /\ usedPrograms cs = [].
Proof.
  unfold forM. induction l as [|a l IH]; intros ids cs u ids' Hbody Hrun; simpl in Hrun.
  - by injection Hrun as <- <- <-.
  - apply bind_Some in Hrun as (cs1 & [] & ids1 & cs2 & Ha & Hrest & ->).
    apply Hbody in Ha as [Hd Hp]. apply IH in Hrest as [IHd IHp]; [|done].
    rewrite drawCalls_app, usedPrograms_app, Hd, Hp, IHd, IHp. done.
Qed.

Lemma renderLight_Some g rm categorizedLights shaderId light ids cs st' ids' :
  renderLight g rm (categorizedLights, shaderId) light ids = Some (cs, st', ids') ->
  exists lightDetails switch loop,
    useShader shaderId (getLightShaderId light) ids = Some (switch, st'.2, ids)
    /\ forM (map_values (registeredModels rm)) (renderModelShadow light lightDetails) ids
       = Some (loop, tt, ids)
    /\ cs = [glBindFramebuffer GL_FRAMEBUFFER
               (getShadowBufferId (getShadowBufferDetails light));
             clearScreen (Z.lor GL_COLOR_BUFFER_BIT GL_DEPTH_BUFFER_BIT)]
            ++ switch ++ loop ++ [glBindFramebuffer GL_FRAMEBUFFER 0]
    /\ ids' = ids.
Proof.
  unfold renderLight. intros Hrun.
  apply bind_Some in Hrun as (cs0 & lightDetails & ids0 & r0 & Hcollect & Hrun & ->).
  apply bind_Some in Hrun as (cs1 & [] & ids1 & r1 & [= <- <-] & Hrun & ->).
  apply bind_Some in Hrun as (cs2 & [] & ids2 & r2 & [= <- <-] & Hrun & ->).
  apply bind_Some in Hrun as (switch & shaderId1 & ids3 & r3 & Hshader & Hrun & ->).
  apply bind_Some in Hrun as (loop & [] & ids4 & r4 & Hmodels & Hrun & ->).
  apply bind_Some in Hrun as (cs5 & [] & ids5 & r5 & [= <- <-] & [= <- <- <-] & ->).
  assert (cs0 = [] /\ ids0 = ids) as [-> ->].
  { unfold collectLightDetails in Hcollect.
    apply bind_Some in Hcollect as (c & projection & i0 & r6 & Hp & Hcollect & ->).
    apply bind_Some in Hcollect as (c' & view & i1 & r7 & Hv & [= <- <- <-] & ->).
    apply deref_Some in Hp as (_ & -> & ->). by apply deref_Some in Hv as (_ & -> & ->). }
  pose proof (keeps_useShader _ _ _ _ _ _ Hshader) as ->.
  assert (ids4 = ids) as ->.
  { revert Hmodels. apply keeps_forM. intros model. apply keeps_renderModelShadow. }
  exists lightDetails, switch, loop. simpl. by rewrite ?app_nil_r.
Qed.

Lemma programChanges_cons previous program programs :
  programChanges previous (program :: programs)
  = programChanges previous [program] ++ programChanges (Some program) programs.
Proof.
  simpl. destruct (bool_decide_reflect (previous = Some program)) as [->|_]; done.
Qed.

Lemma renderLights_loop_draws g rm l : forall st ids cs st' ids',
  foldM (renderLight g rm) st l ids = Some (cs, st', ids') ->
  drawCalls cs
  = concat ((fun _ => getBufferSize <$> map_values (registeredModels rm)) <$> l).
Proof.
  induction l as [|light l IH]; intros [categorizedLights shaderId] ids cs st' ids' Hrun;
    simpl in Hrun.
  - by injection Hrun as <- <- <-.
  - apply bind_Some in Hrun as (cs1 & st1 & ids1 & cs2 & Hlight & Hrest & ->).
    apply renderLight_Some in Hlight
      as (lightDetails & switch & loop & Hswitch & Hloop & -> & ->).
    apply useShader_draws in Hswitch.
    apply (forM_draws _ (fun model => [getBufferSize model])) in Hloop as [Hloop _];
      [|intros; by eapply renderModelShadow_draws].
    rewrite !drawCalls_app, Hswitch, Hloop, concat_singletons, (IH _ _ _ _ _ Hrest).
    simpl. by rewrite ?app_nil_r.
Qed.

Lemma renderLights_loop_programs g rm l :
  forall categorizedLights shaderId previous ids cs st' ids',
  represents shaderId previous ->
  Forall (fun light => 0 <= getLightShaderId light < GLuint_max) l ->
  foldM (renderLight g rm) (categorizedLights, shaderId) l ids = Some (cs, st', ids') ->
  usedPrograms cs = programChanges previous (getLightShaderId <$> l).
Proof.
  induction l as [|light l IH];
    intros categorizedLights shaderId previous ids cs st' ids' Hprevious Hrange Hrun;
    simpl in Hrun.
  - by injection Hrun as <- <- <-.
  - inversion Hrange as [|? ? Hlight' Hrange']; subst.
    apply bind_Some in Hrun as (cs1 & [categorizedLights1 shaderId1] & ids1 & cs2
                                & Hlight & Hrest & ->).
    apply renderLight_Some in Hlight
      as (lightDetails & switch & loop & Hswitch & Hloop & -> & ->).
    simpl in Hswitch.
    apply (useShader_changes _ previous) in Hswitch as [Hswitch Hnext]; [|done..].
    apply (forM_draws _ (fun model => [getBufferSize model])) in Hloop as [_ Hloop];
      [|intros; by eapply renderModelShadow_draws].
    rewrite fmap_cons, programChanges_cons, <- (IH _ _ _ _ _ _ _ Hnext Hrange' Hrest).
    rewrite !usedPrograms_app, Hswitch, Hloop. simpl. by rewrite app_nil_r.
Qed.

Lemma bindShadowTextures_quiet rm categorizedLights program :
  emits quiet (bindShadowTextures rm categorizedLights program).
Proof.
  unfold bindShadowTextures. emits.
  - apply emits_calls, Forall_concat_imap. intros i lightDetails.
    apply Forall_app. split; [by apply Forall_lightUniforms | by repeat constructor].
  - apply emits_forM. intros i. unfold simplePlaceholder. emits.
  - apply emits_calls, Forall_concat_imap. intros i lightDetails.
    apply Forall_app. split; [by apply Forall_lightUniforms | by repeat constructor].
  - apply emits_forM. intros i. unfold cubePlaceholder. emits.
Qed.

Lemma drawModel_draws model ids cs u ids' :
  drawModel model ids = Some (cs, u, ids') ->
  drawCalls cs = [getBufferSize model] /\ usedPrograms cs = [].
Proof.
  unfold drawModel. intros Hrun.
  apply bind_Some in Hrun as (cs0 & a & ids0 & r0 & Hnew0 & Hrun & ->).
  apply bind_Some in Hrun as (cs1 & b & ids1 & r1 & Hnew1 & Hrun & ->).
  apply bind_Some in Hrun as (cs2 & c & ids2 & r2 & Hnew2 & Hrun & ->).
  apply VertexAttributeArray_new_Some in Hnew0 as (-> & _).
  apply VertexAttributeArray_new_Some in Hnew1 as (-> & _).
  apply VertexAttributeArray_new_Some in Hnew2 as (-> & _).
  simpl in Hrun. by injection Hrun as <- <- <-.
Qed.

Lemma renderModel_draws rm categorizedLights viewMatrix projectionMatrix totalTime deltaTime
    shaderId model ids cs shaderId' ids' :
  renderModel rm categorizedLights viewMatrix projectionMatrix totalTime deltaTime
              shaderId model ids = Some (cs, shaderId', ids') ->
  drawCalls cs = [getBufferSize model]
  /\ exists switch,
       useShader shaderId (getShaderId model) ids = Some (switch, shaderId', ids)
       /\ usedPrograms cs = usedPrograms switch.
Proof.
  intros (switch & textures & draw & Hswitch & Htextures & Hdraw & -> & _)%renderModel_Some.
  apply bindShadowTextures_quiet, quiet_silent in Htextures as [Htextures1 Htextures2].
  apply drawModel_draws in Hdraw as [Hdraw1 Hdraw2].
  split; [|exists switch; split; [done|]].
  - apply useShader_draws in Hswitch.
    by rewrite !drawCalls_app, Hswitch, Htextures1, Hdraw1.
  - rewrite !usedPrograms_app, Htextures2, Hdraw2. simpl. by rewrite ?app_nil_r.
Qed.

Lemma renderModels_loop_draws rm categorizedLights viewMatrix projectionMatrix totalTime
    deltaTime l : forall shaderId ids cs shaderId' ids',
  foldM (renderModel rm categorizedLights viewMatrix projectionMatrix totalTime deltaTime)
        shaderId l ids = Some (cs, shaderId', ids') ->
  drawCalls cs = getBufferSize <$> l.
Proof.
  induction l as [|model l IH]; intros shaderId ids cs shaderId' ids' Hrun; simpl in Hrun.
  - by injection Hrun as <- <- <-.
  - apply bind_Some in Hrun as (cs1 & shaderId1 & ids1 & cs2 & Hmodel & Hrest & ->).
    apply renderModel_draws in Hmodel as (Hmodel & _).
    by rewrite drawCalls_app, Hmodel, (IH _ _ _ _ _ Hrest).
Qed.

Lemma renderModels_loop_programs rm categorizedLights viewMatrix projectionMatrix totalTime
    deltaTime l : forall shaderId previous ids cs shaderId' ids',
  represents shaderId previous ->
  Forall (fun model => 0 <= getShaderId model < GLuint_max) l ->
  foldM (renderModel rm categorizedLights viewMatrix projectionMatrix totalTime deltaTime)
        shaderId l ids = Some (cs, shaderId', ids') ->
  usedPrograms cs = programChanges previous (getShaderId <$> l).
Proof.
  induction l as [|model l IH];
    intros shaderId previous ids cs shaderId' ids' Hprevious Hrange Hrun; simpl in Hrun.
  - by injection Hrun as <- <- <-.
  - inversion Hrange as [|? ? Hmodel' Hrange']; subst.
    apply bind_Some in Hrun as (cs1 & shaderId1 & ids1 & cs2 & Hmodel & Hrest & ->).
    pose proof (keeps_renderModel _ _ _ _ _ _ _ _ _ _ _ _ Hmodel) as ->.
    apply renderModel_draws in Hmodel as (_ & switch & Hswitch & Hprograms).
    apply (useShader_changes _ previous) in Hswitch as [Hswitch Hnext]; [|done..].
    rewrite fmap_cons, programChanges_cons, <- (IH _ _ _ _ _ _ Hnext Hrange' Hrest).
    by rewrite usedPrograms_app, Hprograms, Hswitch.
Qed.

Lemma renderLights_Some g rm ids cs categorizedLights ids' :
  renderLights g rm ids = Some (cs, categorizedLights, ids') ->
  exists loop shaderId,
    foldM (renderLight g rm) (mkCategorizedLights [] [], -1)
          (map_values (registeredLights rm)) ids
    = Some (loop, (categorizedLights, shaderId), ids')
    /\ cs = [switchToFrameBufferViewport;
             setClearColor (float_of_double (double_of_Z 1)) (float_of_double (double_of_Z 1))
                           (float_of_double (double_of_Z 1)) (float_of_double (double_of_Z 1))]
            ++ loop.
Proof.
  unfold renderLights. intros Hrun.
  apply bind_Some in Hrun as (cs0 & [] & ids0 & r0 & [= <- <-] & Hrun & ->).
  apply bind_Some in Hrun as (cs1 & [] & ids1 & r1 & [= <- <-] & Hrun & ->).
  apply bind_Some in Hrun as (loop & [lights shaderId] & ids2 & r2 & Hloop & [= <- <- <-] & ->).
  exists loop, shaderId. split; [done|]. by rewrite app_nil_r.
Qed.

(** X10: A frame draws every registered model once for every registered light, in
    the shadow pass, and once more in the main pass; every draw covers the
    whole vertex buffer of the model. *)
Theorem render_draws_every_model_per_light g currentTime rm ids cs rm' ids' :
  render g currentTime rm ids = Some (cs, rm', ids') ->
  drawCalls cs
  = concat ((fun _ => getBufferSize <$> map_values (registeredModels rm))
              <$> map_values (registeredLights rm))
    ++ (getBufferSize <$> map_values (registeredModels rm))
  /\ length (drawCalls cs)
     = ((length (map_values (registeredLights rm)) + 1)
        * length (map_values (registeredModels rm)))%nat.
Proof.
  unfold render. intros Hrun.
  apply bind_Some in Hrun as (shadow & categorizedLights & ids1 & main & Hshadow & Hmain & ->).
  apply renderLights_Some in Hshadow as (loop1 & shaderId1 & Hloop1 & ->).
  apply renderModels_Some in Hmain as (camera & loop2 & shaderId2 & _ & Hloop2 & ->).
  apply renderLights_loop_draws in Hloop1. apply renderModels_loop_draws in Hloop2.
  assert (Hcs : drawCalls (([switchToFrameBufferViewport;
                     setClearColor (float_of_double (double_of_Z 1))
                       (float_of_double (double_of_Z 1)) (float_of_double (double_of_Z 1))
                       (float_of_double (double_of_Z 1))] ++ loop1) ++ mainPassHeader ++ loop2)
                = drawCalls loop1 ++ drawCalls loop2) by by rewrite !drawCalls_app.
  rewrite Hcs, Hloop1, Hloop2. split; [done|].
  rewrite length_app, length_concat_const, !length_fmap. nia.
Qed.

(** X11: In both passes a program is made current only when it differs from the one
    of the iteration before; each pass starts without a current program, so the
    first program of the main pass is made current even when it is the one the
    shadow pass used last. Programs are below [GLuint_max]. *)
Theorem render_changes_program_only_when_it_differs g currentTime rm ids cs rm' ids' :
  (forall light,
      light ∈ map_values (registeredLights rm) -> 0 <= getLightShaderId light < GLuint_max) ->
  (forall model,
      model ∈ map_values (registeredModels rm) -> 0 <= getShaderId model < GLuint_max) ->
  render g currentTime rm ids = Some (cs, rm', ids') ->
  usedPrograms cs
  = programChanges None (getLightShaderId <$> map_values (registeredLights rm))
    ++ programChanges None (getShaderId <$> map_values (registeredModels rm)).
Proof.
  unfold render. intros Hlights Hmodels Hrun.
  apply bind_Some in Hrun as (shadow & categorizedLights & ids1 & main & Hshadow & Hmain & ->).
  apply renderLights_Some in Hshadow as (loop1 & shaderId1 & Hloop1 & ->).
  apply renderModels_Some in Hmain as (camera & loop2 & shaderId2 & _ & Hloop2 & ->).
  apply (renderLights_loop_programs _ _ _ _ _ None) in Hloop1;
    [|done | by apply list.Forall_forall].
  apply (renderModels_loop_programs _ _ _ _ _ _ _ _ None) in Hloop2;
    [|done | by apply list.Forall_forall].
  rewrite !usedPrograms_app, Hloop1, Hloop2. done.
Qed.

(** X12: For every view of the light the shadow pass uploads, for a model, the
    product of the projection and the view matrix of that index to each of the
    three stages, and to each stage the number of view matrices as the count. *)
Theorem renderModelShadow_uploads_every_view light lightDetails model ids cs u ids'
    i projection view location :
  renderModelShadow light lightDetails model ids = Some (cs, u, ids') ->
  getProjectionMatrices light !! i = Some projection ->
  getViewMatrices light !! i = Some view ->
  location ∈ stages (getLightShaderId light) "lightDetails"
                    (".vpMatrices[" +:+ to_string i +:+ "]") ->
  glUniformMatrix4fv location 1 GL_FALSE (mat4_mul projection view) ∈ cs
  /\ forall count,
       count ∈ stages (getLightShaderId light) "lightDetails" ".vpMatrixCount" ->
       glUniform1i count (to_GLint (Z.of_nat (length (getViewMatrices light)))) ∈ cs.
Proof.
  intros (uniforms & uploads & vertex & _ & Huploads & Hcount & -> & _)%renderModelShadow_Some
         Hprojection Hview Hlocation.
  split.
  - apply elem_of_app. right. apply elem_of_app. left.
    assert (Hi : i ∈ seq 0 (length (getViewMatrices light))).
    { apply elem_of_seq. apply lookup_lt_Some in Hview. lia. }
    destruct (foldM_Some_elem _ _ _ _ _ _ _ _ Huploads Hi)
      as (segment & [] & ids0 & [] & ids1 & Hbody & Hsub).
    apply Hsub. unfold uploadVpMatrix in Hbody.
    apply bind_Some in Hbody as (cs0 & projection' & ids2 & r0 & Hp & Hbody & ->).
    apply bind_Some in Hbody as (cs1 & view' & ids3 & r1 & Hv & [= <- <-] & ->).
    apply deref_Some in Hp as (Hp & -> & ->). apply deref_Some in Hv as (Hv & -> & ->).
    rewrite Hprojection in Hp. rewrite Hview in Hv.
    injection Hp as <-. injection Hv as <-.
    apply (list_elem_of_fmap_2
             (fun location => glUniformMatrix4fv location 1 GL_FALSE
                                (mat4_mul projection view))) in Hlocation.
    exact Hlocation.
  - intros count Hcount'. apply elem_of_app. left. by apply Hcount.
Qed.

(** *** More lights than texture slots *)

(** The texture bindings of the four loops, whatever the number of lights. *)
Lemma bindShadowTextures_all_bindings rm categorizedLights program ids cs u ids' active :
  bindShadowTextures rm categorizedLights program ids = Some (cs, u, ids') ->
  textureBindings active cs
  = imap (fun i lightDetails =>
            (to_GLuint (GL_TEXTURE0 + (Z.of_nat i + 1)), GL_TEXTURE_2D, textureId lightDetails))
         (simpleLights categorizedLights)
    ++ ((fun i => (to_GLuint (GL_TEXTURE0 + (Z.of_nat i + 1)), GL_TEXTURE_2D,
                   placeholderTexture (deadSimpleLight rm)))
          <$> seq (length (simpleLights categorizedLights))
                  (7 - length (simpleLights categorizedLights)))
    ++ imap (fun i lightDetails =>
               (to_GLuint (GL_TEXTURE0 + (Z.of_nat i + 8)), GL_TEXTURE_CUBE_MAP,
                textureId lightDetails))
            (cubeLights categorizedLights)
    ++ ((fun i => (to_GLuint (GL_TEXTURE0 + (Z.of_nat i + 8)), GL_TEXTURE_CUBE_MAP,
                   placeholderTexture (deadCubeLight rm)))
          <$> seq (length (cubeLights categorizedLights))
                  (8 - length (cubeLights categorizedLights))).
Proof.
  intros Hrun. unfold bindShadowTextures in Hrun.
  apply bind_Some in Hrun as (cs1 & [] & ids1 & r1 & [= <- <-] & Hrun & ->).
  apply bind_Some in Hrun as (cs2 & [] & ids2 & r2 & Hsp & Hrun & ->).
  apply bind_Some in Hrun as (cs3 & [] & ids3 & cs4 & [= <- <-] & Hcp & ->).
  rewrite !textureBindings_app.
  eapply textureBindings_simplePlaceholders in Hsp as [_ ->].
  eapply textureBindings_cubePlaceholders in Hcp as [_ ->].
  by rewrite textureBindings_simpleLights, textureBindings_cubeLights.
Qed.

(** X13: The main pass does not cap the number of lights: simple light [7 + i] has
    its 2D shadow texture bound on texture unit [8 + i], the unit on which the
    cube map of cube light [i] is bound. *)
Theorem simple_lights_beyond_seven_take_cube_units rm categorizedLights program ids cs u ids'
    active (i : nat) simpleDetails cubeDetails :
  bindShadowTextures rm categorizedLights program ids = Some (cs, u, ids') ->
  simpleLights categorizedLights !! (7 + i)%nat = Some simpleDetails ->
  cubeLights categorizedLights !! i = Some cubeDetails ->
  GL_TEXTURE0 + 8 + Z.of_nat i < 2 ^ 32 ->
  (GL_TEXTURE0 + 8 + Z.of_nat i, GL_TEXTURE_2D, textureId simpleDetails)
    ∈ textureBindings active cs
  /\ (GL_TEXTURE0 + 8 + Z.of_nat i, GL_TEXTURE_CUBE_MAP, textureId cubeDetails)
       ∈ textureBindings active cs.
Proof.
  intros Hrun Hsimple Hcube Hunit.
  rewrite (bindShadowTextures_all_bindings _ _ _ _ _ _ _ active Hrun).
  assert (Hwrap : forall n, n = GL_TEXTURE0 + 8 + Z.of_nat i -> to_GLuint n = n).
  { intros n ->. unfold to_GLuint, GL_TEXTURE0 in *. apply Z.mod_small. lia. }
  split.
  - apply elem_of_app. left. apply elem_of_lookup_imap.
    exists (7 + i)%nat, simpleDetails. split; [|done].
    rewrite Hwrap by lia. f_equal. f_equal. lia.
  - apply elem_of_app. right. apply elem_of_app. right. apply elem_of_app. left.
    apply elem_of_lookup_imap. exists i, cubeDetails. split; [|done].
    rewrite Hwrap by lia. f_equal. f_equal. lia.
Qed.

(** *** When the main pass completes *)

Lemma map_values_empty {V} : map_values (∅ : std_map V) = [].
Proof. unfold map_values, map_elements. by rewrite map_to_list_empty. Qed.

(** X14: A manager as constructed cannot render: it has no camera. Once a camera is
    registered and made the active one, a frame completes, without placeholder
    lights, and consists of the two viewport switches, the two clear colours
    and the clearing of the window. *)
Theorem fresh_manager_frames g currentTime start last ids :
  render g currentTime (RenderManager_new start last) ids = None
  /\ forall camera,
       render g currentTime
         (registerActiveCamera camera (registerCamera camera (RenderManager_new start last)))
         ids
       = Some (emptyFrame,
               with_lastTime currentTime
                 (registerActiveCamera camera
                    (registerCamera camera (RenderManager_new start last))),
               ids).
Proof.
  split.
  - unfold render, renderLights, renderModels, RenderManager_new. simpl.
    rewrite !map_values_empty. reflexivity.
  - intros camera.
    set (rm := registerActiveCamera camera (registerCamera camera (RenderManager_new start last))).
    assert (Hcamera : registeredCameras rm !! activeCameraId rm = Some camera).
    { simpl. unfold map_insert. rewrite lookup_empty. apply lookup_insert_eq. }
    assert (Hlights : map_values (registeredLights rm) = []) by apply map_values_empty.
    assert (Hmodels : map_values (registeredModels rm) = []) by apply map_values_empty.
    unfold render, renderLights, renderModels. rewrite Hlights, Hmodels, Hcamera.
    reflexivity.
Qed.

(** X15: Starting with no attribute index in use, the main pass completes exactly
    when the active camera is registered and, if there is a model to draw,
    there is a placeholder light for every kind of light that leaves slots
    unused. *)
Theorem renderModels_completes_iff currentTime categorizedLights rm :
  returns (renderModels currentTime categorizedLights rm) <->
  is_Some (registeredCameras rm !! activeCameraId rm)
  /\ (map_values (registeredModels rm) <> [] ->
      ((length (simpleLights categorizedLights) < 7)%nat -> is_Some (deadSimpleLight rm))
      /\ ((length (cubeLights categorizedLights) < 8)%nat -> is_Some (deadCubeLight rm))).
Proof.
  split.
  - intros (cs & rm' & Hrun).
    apply renderModels_Some in Hrun as (camera & loop & shaderId & Hcamera & Hloop & _).
    split; [by rewrite Hcamera|]. intros Hmodels.
    destruct (map_values (registeredModels rm)) as [|model models]; [done|].
    simpl in Hloop.
    apply bind_Some in Hloop as (cs1 & shaderId1 & ids1 & cs2 & Hmodel & _ & _).
    apply renderModel_Some in Hmodel as (switch & textures & draw & _ & Htextures & _).
    unfold bindShadowTextures in Htextures.
    apply bind_Some in Htextures as (c1 & [] & i1 & r1 & _ & Htextures & _).
    apply bind_Some in Htextures as (c2 & [] & i2 & r2 & Hsimple & Htextures & _).
    apply bind_Some in Htextures as (c3 & [] & i3 & c4 & _ & Hcube & _).
    apply (textureBindings_simplePlaceholders _ _ _ _ _ _ _ 0) in Hsimple as [Hsimple _].
    apply (textureBindings_cubePlaceholders _ _ _ _ _ _ _ _ 0) in Hcube as [Hcube _].
    split; intros Hfree.
    + destruct Hsimple as [Hnil | [dead ->]]; [|done].
      apply (f_equal length) in Hnil. rewrite length_seq in Hnil. simpl in Hnil. lia.
    + destruct Hcube as [Hnil | [dead ->]]; [|done].
      apply (f_equal length) in Hnil. rewrite length_seq in Hnil. simpl in Hnil. lia.
  - intros [Hcamera Hdead]. unfold renderModels. returns.
    + by apply returns_deref.
    + apply returns_foldM. intros shaderId model Hmodel.
      destruct Hdead as [Hsimple Hcube];
        [by intros Hnil; rewrite Hnil in Hmodel; inversion Hmodel|].
      unfold renderModel, bindShadowTextures. returns.
      * apply returns_forM. intros i Hi%elem_of_seq. unfold simplePlaceholder. returns.
        apply returns_deref, Hsimple. lia.
      * apply returns_forM. intros i Hi%elem_of_seq. unfold cubePlaceholder. returns.
        apply returns_deref, Hcube. lia.
Qed.

End facts.

(** A frame of the scene with both lights, one second after the start: its
    173 calls bind the diffuse texture and the fifteen shadow slots. *)
Example frame_of_two_lights :
  let cs := callsOf (render initialGlobals (double_of_Z 1) twoLightScene ∅) in
  length cs = 173%nat
  /\ textureBindings GL_TEXTURE0 cs
     = (GL_TEXTURE0, GL_TEXTURE_2D, 31)
       :: [(33985, GL_TEXTURE_2D, 21); (33986, GL_TEXTURE_2D, 90); (33987, GL_TEXTURE_2D, 90);
           (33988, GL_TEXTURE_2D, 90); (33989, GL_TEXTURE_2D, 90); (33990, GL_TEXTURE_2D, 90);
           (33991, GL_TEXTURE_2D, 90)]
       ++ [(33992, GL_TEXTURE_CUBE_MAP, 22); (33993, GL_TEXTURE_CUBE_MAP, 91);
           (33994, GL_TEXTURE_CUBE_MAP, 91); (33995, GL_TEXTURE_CUBE_MAP, 91);
           (33996, GL_TEXTURE_CUBE_MAP, 91); (33997, GL_TEXTURE_CUBE_MAP, 91);
           (33998, GL_TEXTURE_CUBE_MAP, 91); (33999, GL_TEXTURE_CUBE_MAP, 91)].
Proof. vm_compute. split; reflexivity. Qed.

(** C1: a second light registered under the identifier "LightA" does not
    replace the first one: the lookup still returns the light registered first. *)
Lemma register_twice_keeps_first :
  let second := simpleLightOf "LightA" 2 13 23 in
  registeredLights (registerLight second oneLightScene) !! "LightA" = Some lightA
  /\ registeredLights (registerLight second oneLightScene) !! "LightA" <> Some second
  /\ map_values (registeredLights (registerLight second oneLightScene)) = [lightA].
Proof. vm_compute. split; [reflexivity | split; [discriminate | reflexivity]]. Qed.

Lemma register_keeps_first_entry_witness :
  registerLight (simpleLightOf "LightA" 2 13 23) oneLightScene = oneLightScene
  /\ registerModel (mkModelBase "Model1" 0 0 0 0 0 0 0) oneLightScene = oneLightScene
  /\ registerCamera (mkCameraBase "Main" 0 0) oneLightScene = oneLightScene.
Proof.
  destruct (register_keeps_first_entry (glm := sceneGlm)) as (Hlight & Hmodel & Hcamera).
  split; [|split].
  - apply (Hlight oneLightScene _ lightA). vm_compute; reflexivity.
  - apply (Hmodel oneLightScene _ model1). vm_compute; reflexivity.
  - apply (Hcamera oneLightScene _ mainCamera). vm_compute; reflexivity.
Defined.

Lemma deregister_absent_idempotent_witness :
  deregisterLight_id "LightB" oneLightScene = oneLightScene
  /\ deregisterLight_id "LightA" (deregisterLight_id "LightA" oneLightScene)
     = deregisterLight_id "LightA" oneLightScene
  /\ deregisterModel_id "Model2" oneLightScene = oneLightScene
  /\ deregisterCamera_id "Side" oneLightScene = oneLightScene.
Proof.
  destruct (deregister_absent_idempotent (glm := sceneGlm))
    as (Hlight & _ & Hmodel & _ & Hcamera & _).
  split; [|split; [|split]].
  - destruct (Hlight oneLightScene "LightB") as [Habsent _].
    apply Habsent. vm_compute; reflexivity.
  - destruct (Hlight oneLightScene "LightA") as [_ Htwice]. exact Htwice.
  - destruct (Hmodel oneLightScene "Model2") as [Habsent _].
    apply Habsent. vm_compute; reflexivity.
  - destruct (Hcamera oneLightScene "Side") as [Habsent _].
    apply Habsent. vm_compute; reflexivity.
Defined.

(** C3: without any light the main pass still binds seven 2D shadow textures
    and eight cube-map shadow textures for the model, not [MAX_CONE_LIGHTS = 4]
    and [MAX_POINT_LIGHTS = 6] of them. *)
Lemma renderModels_ignores_configured_maxima :
  let run := renderModels (double_of_Z 1) (mkCategorizedLights [] []) darkScene ∅ in
  is_Some run
  /\ Z.of_nat (length (bindingsOn GL_TEXTURE_2D (callsOf run))) = 7
  /\ Z.of_nat (length (bindingsOn GL_TEXTURE_CUBE_MAP (callsOf run))) = 8
  /\ Z.of_nat (length (bindingsOn GL_TEXTURE_2D (callsOf run))) <> Constants.MAX_CONE_LIGHTS
  /\ Z.of_nat (length (bindingsOn GL_TEXTURE_CUBE_MAP (callsOf run)))
     <> Constants.MAX_POINT_LIGHTS.
Proof.
  vm_compute. split; [by eexists|].
  split; [reflexivity | split; [reflexivity | split; discriminate]].
Qed.

Lemma renderModels_binds_seven_and_eight_witness :
  let categorizedLights :=
    mkCategorizedLights
      [mkLightDetails origin 6 white (double_of_Z 1) 1600 1600 (double_lit 1 10)
                      (double_of_Z 100) 21] [] in
  exists cs rm' ids' segments,
    renderModels (double_of_Z 1) categorizedLights oneLightScene ∅
      = Some (cs, rm', ids')
    /\ cs = mainPassHeader ++ concat segments
    /\ Forall2 (fun model segment =>
                  forall active,
                    textureBindings active segment
                    = (GL_TEXTURE0, GL_TEXTURE_2D, getTextureId model)
                      :: shadowBindings oneLightScene categorizedLights)
               [model1] segments.
Proof.
  intros categorizedLights.
  destruct (renderModels (double_of_Z 1) categorizedLights oneLightScene ∅)
    as [[[cs rm'] ids']|] eqn:Hrun; [|vm_compute in Hrun; discriminate].
  destruct (renderModels_binds_seven_and_eight (double_of_Z 1) categorizedLights
              oneLightScene ∅ cs rm' ids') as (segments & Hcs & Hall & _).
  - simpl. lia.
  - simpl. lia.
  - exact Hrun.
  - exists cs, rm', ids', segments. split; [reflexivity|]. split; [exact Hcs|].
    replace [model1] with (map_values (registeredModels oneLightScene))
      by (vm_compute; reflexivity).
    exact Hall.
Defined.

Lemma render_shadow_pass_first_witness :
  exists cs rm' ids' shadow main,
    render initialGlobals (double_of_Z 1) twoLightScene ∅ = Some (cs, rm', ids')
    /\ cs = shadow ++ main
    /\ glBindFramebuffer GL_FRAMEBUFFER 11 ∈ shadow
    /\ glBindFramebuffer GL_FRAMEBUFFER 12 ∈ shadow
    /\ Forall (fun c => isTextureCall c = false) shadow
    /\ Forall (fun c => isFramebufferCall c = false) main.
Proof.
  destruct (render initialGlobals (double_of_Z 1) twoLightScene ∅)
    as [[[cs rm'] ids']|] eqn:Hrun; [|vm_compute in Hrun; discriminate].
  destruct (render_shadow_pass_first initialGlobals (double_of_Z 1) twoLightScene
              ∅ cs rm' ids' Hrun)
    as (shadow & main & categorizedLights & ids1 & _ & _ & Hcs & Hbind & _ & _
        & Hshadow & Hmain & _).
  exists cs, rm', ids', shadow, main.
  split; [reflexivity|]. split; [exact Hcs|].
  split; [|split; [|split; [exact Hshadow | exact Hmain]]].
  - apply (Hbind lightA). apply elem_of_map_values. exists "LightA". vm_compute; reflexivity.
  - apply (Hbind lightB). apply elem_of_map_values. exists "LightB". vm_compute; reflexivity.
Defined.

(** C4: the record collected for "LightA" has the framebuffer width, 1600, as
    its map height; the framebuffer height is 1200. Its matrix is the product
    of the first projection matrix, the first view matrix and [glm::mat4()]. *)
Theorem light_details_map_height_is_width :
  (simpleLights
     <$> resultOf (renderLights initialGlobals oneLightScene ∅))
  = Some [mkLightDetails origin (2 * 3 * 1) white (double_of_Z 1)
            (FRAMEBUFFER_WIDTH initialGlobals) (FRAMEBUFFER_WIDTH initialGlobals)
            (double_lit 1 10) (double_of_Z 100) 21]
  /\ FRAMEBUFFER_WIDTH initialGlobals = 1600
  /\ FRAMEBUFFER_HEIGHT initialGlobals = 1200.
Proof. vm_compute. split; [reflexivity | split; reflexivity]. Qed.

(** C10: in a frame with the simple light "LightA" registered and no cube
    light, the main pass binds the cube texture of slot 0 on unit 8 and uploads
    9 to the sampler [cubeLightTextures[0]]; for the simple slot 0 the unit and
    the sampler agree. *)
Theorem cube_sampler_is_off_by_simple_count :
  let cs := callsOf (render initialGlobals (double_of_Z 1) oneLightScene ∅) in
  (GL_TEXTURE0 + 8, GL_TEXTURE_CUBE_MAP, 91) ∈ textureBindings GL_TEXTURE0 cs
  /\ uploadsTo (glGetUniformLocation 7 "cubeLightTextures[0]") cs = [9]
  /\ (GL_TEXTURE0 + 1, GL_TEXTURE_2D, 21) ∈ textureBindings GL_TEXTURE0 cs
  /\ uploadsTo (glGetUniformLocation 7 "simpleLightTextures[0]") cs = [1].
Proof.
  vm_compute. repeat split; try reflexivity.
  - do 8 apply list_elem_of_further. apply list_elem_of_here.
  - do 1 apply list_elem_of_further. apply list_elem_of_here.
Qed.

(** *** The further properties on the concrete scenes *)

Lemma register_fresh_adds_witness :
  registeredLights (registerLight lightB oneLightScene) !! "LightB" = Some lightB
  /\ registeredModels (registerModel model2 oneLightScene) !! "Model2" = Some model2
  /\ registeredCameras (registerCamera mainCamera emptyManager) !! "Main" = Some mainCamera.
Proof.
  destruct (register_fresh_adds (glm := sceneGlm)) as (Hlight & Hmodel & Hcamera).
  split; [|split].
  - destruct (Hlight oneLightScene lightB) as [Hadded _]; [vm_compute; reflexivity|].
    exact Hadded.
  - destruct (Hmodel oneLightScene model2) as [Hadded _]; [vm_compute; reflexivity|].
    exact Hadded.
  - destruct (Hcamera emptyManager mainCamera) as [Hadded _]; [vm_compute; reflexivity|].
    exact Hadded.
Defined.

Lemma register_deregister_fresh_witness :
  deregisterLight lightB (registerLight lightB oneLightScene) = oneLightScene
  /\ deregisterModel model2 (registerModel model2 oneLightScene) = oneLightScene
  /\ deregisterCamera_id "Main" (registerCamera mainCamera emptyManager) = emptyManager.
Proof.
  destruct (register_deregister_fresh (glm := sceneGlm)) as (Hlight & Hmodel & Hcamera).
  split; [|split].
  - destruct (Hlight oneLightScene lightB) as [Hback _]; [vm_compute; reflexivity|].
    exact Hback.
  - destruct (Hmodel oneLightScene model2) as [Hback _]; [vm_compute; reflexivity|].
    exact Hback.
  - destruct (Hcamera emptyManager mainCamera) as [_ Hback]; [vm_compute; reflexivity|].
    exact Hback.
Defined.

Lemma render_needs_active_camera_witness :
  render initialGlobals (double_of_Z 1) (deregisterCamera mainCamera twoLightScene) ∅ = None
  /\ render initialGlobals (double_of_Z 1) (registerActiveCamera_id "Side" twoLightScene) ∅
     = None.
Proof.
  split; apply (render_needs_active_camera (glm := sceneGlm)); vm_compute; reflexivity.
Defined.

Lemma createAttributeId_least_free_witness :
  createAttributeId {[0; 1; 3]} = Some ([], 2, {[0; 1; 3]})
  /\ (2 ∉ ({[0; 1; 3]} : gset Z))
  /\ forall j, 0 <= j < 2 -> j ∈ ({[0; 1; 3]} : gset Z).
Proof.
  assert (Hrun : createAttributeId (glm := sceneGlm) {[0; 1; 3]} = Some ([], 2, {[0; 1; 3]}))
    by (vm_compute; reflexivity).
  split; [exact Hrun|].
  destruct (createAttributeId_least_free (glm := sceneGlm) _ _ _ _ Hrun)
    as (_ & _ & _ & Hfree & Hbelow).
  split; [exact Hfree | exact Hbelow].
Defined.

Lemma drawModel_protocol_witness :
  exists vertex uv normal,
    0 <= vertex < uv /\ uv < normal < GLuint_max
    /\ drawModel model1 ∅
       = Some (attributeCalls vertex 41 3 ++ attributeCalls uv 42 2
               ++ attributeCalls normal 43 3
               ++ [glDrawArrays GL_TRIANGLES 0 36;
                   glDisableVertexAttribArray normal;
                   glDisableVertexAttribArray uv;
                   glDisableVertexAttribArray vertex], tt, ∅).
Proof.
  destruct (drawModel model1 ∅) as [[[cs []] ids']|] eqn:Hrun;
    [|vm_compute in Hrun; discriminate].
  destruct (drawModel_protocol (glm := sceneGlm) _ _ _ _ _ Hrun)
    as (vertex & uv & normal & Hvertex & Hnormal & _ & _ & _ & _ & -> & ->).
  by exists vertex, uv, normal.
Defined.

Lemma render_frame_effect_witness :
  exists cs,
    render initialGlobals (double_of_Z 1) twoLightScene ∅
    = Some (cs, with_lastTime (double_of_Z 1) twoLightScene, ∅).
Proof.
  destruct (render initialGlobals (double_of_Z 1) twoLightScene ∅)
    as [[[cs rm'] ids']|] eqn:Hrun; [|vm_compute in Hrun; discriminate].
  destruct (render_frame_effect (glm := sceneGlm) _ _ _ _ _ _ _ Hrun) as [-> ->].
  by exists cs.
Defined.

Lemma consecutive_frames_delta_time_witness :
  let rm1 := with_lastTime (double_of_Z 1) twoLightScene in
  let cs2 := callsOf (render initialGlobals (double_lit 3 2) rm1 ∅) in
  glUniform1f (glGetUniformLocation 7 "timeDetails.deltaTime")
              (float_of_double (dsub (double_lit 3 2) (double_of_Z 1))) ∈ cs2
  /\ glUniform1f (glGetUniformLocation 7 "timeDetails.totalTime")
                 (float_of_double (dsub (double_lit 3 2) (double_of_Z 0))) ∈ cs2.
Proof.
  intros rm1 cs2.
  assert (Hrun1 : render initialGlobals (double_of_Z 1) twoLightScene ∅
                  = Some (callsOf (render initialGlobals (double_of_Z 1) twoLightScene ∅),
                          rm1, ∅)) by (vm_compute; reflexivity).
  assert (Hrun2 : render initialGlobals (double_lit 3 2) rm1 ∅
                  = Some (cs2, with_lastTime (double_lit 3 2) rm1, ∅))
    by (vm_compute; reflexivity).
  assert (Hmodel : model1 ∈ map_values (registeredModels twoLightScene)).
  { apply elem_of_map_values. exists "Model1". vm_compute; reflexivity. }
  destruct (consecutive_frames_delta_time (glm := sceneGlm) _ _ _ _ _ _ _ _ _ _ _ _
              Hrun1 Hrun2 Hmodel) as (Hdelta & Htotal & _).
  split; [exact Hdelta | exact Htotal].
Defined.

Lemma render_draws_every_model_per_light_witness :
  drawCalls (callsOf (render initialGlobals (double_of_Z 1) cachedScene ∅))
  = [36; 12; 36; 12; 36; 12; 36; 12].
Proof.
  destruct (render initialGlobals (double_of_Z 1) cachedScene ∅)
    as [[[cs rm'] ids']|] eqn:Hrun; [|vm_compute in Hrun; discriminate].
  destruct (render_draws_every_model_per_light (glm := sceneGlm) _ _ _ _ _ _ _ Hrun)
    as [Hdraws _].
  simpl. rewrite Hdraws. vm_compute. reflexivity.
Defined.

Lemma render_changes_program_only_when_it_differs_witness :
  (getLightShaderId <$> map_values (registeredLights cachedScene)) = [5; 5; 6]
  /\ (getShaderId <$> map_values (registeredModels cachedScene)) = [7; 7]
  /\ usedPrograms (callsOf (render initialGlobals (double_of_Z 1) cachedScene ∅)) = [5; 6; 7].
Proof.
  split; [vm_compute; reflexivity|]. split; [vm_compute; reflexivity|].
  destruct (render initialGlobals (double_of_Z 1) cachedScene ∅)
    as [[[cs rm'] ids']|] eqn:Hrun; [|vm_compute in Hrun; discriminate].
  simpl.
  rewrite (render_changes_program_only_when_it_differs (glm := sceneGlm) _ _ _ _ _ _ _
             ltac:(apply list.Forall_forall;
                   replace (map_values (registeredLights cachedScene))
                     with [lightA; lightA2; lightB] by (vm_compute; reflexivity);
                   repeat constructor; vm_compute; discriminate)
             ltac:(apply list.Forall_forall;
                   replace (map_values (registeredModels cachedScene))
                     with [model1; model2] by (vm_compute; reflexivity);
                   repeat constructor; vm_compute; discriminate)
             Hrun).
  vm_compute. reflexivity.
Defined.

Lemma renderModelShadow_uploads_every_view_witness :
  glUniformMatrix4fv (glGetUniformLocation 6 "lightDetails_geometry.vpMatrices[5]")
                     1 GL_FALSE 16
    ∈ callsOf (renderModelShadow lightB (detailsOf 22) model1 ∅).
Proof.
  destruct (renderModelShadow lightB (detailsOf 22) model1 ∅)
    as [[[cs u] ids']|] eqn:Hrun; [|vm_compute in Hrun; discriminate].
  destruct (renderModelShadow_uploads_every_view (glm := sceneGlm) lightB (detailsOf 22) model1
              ∅ cs u ids' 5%nat 2 8
              (glGetUniformLocation 6 "lightDetails_geometry.vpMatrices[5]") Hrun)
    as [Hupload _]; [reflexivity | reflexivity | |exact Hupload].
  apply list_elem_of_further, list_elem_of_here.
Defined.

Lemma simple_lights_beyond_seven_take_cube_units_witness :
  let cs := callsOf (bindShadowTextures darkScene crowdedLights 7 ∅) in
  (GL_TEXTURE0 + 8, GL_TEXTURE_2D, 28) ∈ textureBindings GL_TEXTURE0 cs
  /\ (GL_TEXTURE0 + 8, GL_TEXTURE_CUBE_MAP, 31) ∈ textureBindings GL_TEXTURE0 cs.
Proof.
  intros cs. subst cs.
  destruct (bindShadowTextures darkScene crowdedLights 7 ∅)
    as [[[cs u] ids']|] eqn:Hrun; [|vm_compute in Hrun; discriminate].
  apply (simple_lights_beyond_seven_take_cube_units (glm := sceneGlm) darkScene crowdedLights
           7 ∅ cs u ids' GL_TEXTURE0 0%nat (detailsOf 28) (detailsOf 31) Hrun);
    [reflexivity | reflexivity | vm_compute; reflexivity].
Defined.

End RenderFacts.
